(** * uvc_v4l2.c: format negotiation, privilege arbitration and queue routing

    A shallow embedding of [drivers/media/video/uvc/uvc_v4l2.c] (the V4L2
    front end of the USB Video Class driver, with the still-image patch) and
    the properties of its negotiation core.

    Conventions of the embedding:
    - C integers are [Z] with the wrap-around of their type written out
      ([u16], [u32], [s32]);
    - C arrays with a separate element count are lists; an access outside
      the list is a fault ([OutOfBounds]), a dereference of [NULL] is a fault
      ([NullDeref]), a division by zero is a fault ([DivByZero]);
    - pointers into the immutable capability tables ([struct uvc_format *],
      [struct uvc_frame *]) are [option]s of the element they point to,
      [None] being [NULL];
    - the functions of the other compilation units of the driver (buffer
      queue, device probe, streaming on/off) are the fields of the
      [Collaborators] class;
    - [uvc_trace] only prints (tracing is off: its arguments are not
      evaluated), and [mutex_lock]/[mutex_unlock] only order whole calls:
      one call is one transition of the model. *)

From Stdlib Require Import ZArith List Lia Bool.
From stdpp Require Import base option list gmap relations.

Local Open Scope Z_scope.
#[local] Set Warnings "-clear-no-such-hyp".

(** ** Machine arithmetic *)

Module Mach.

Definition u8 (x : Z) : Z := x mod 2 ^ 8.
Definition u16 (x : Z) : Z := x mod 2 ^ 16.
Definition u32 (x : Z) : Z := x mod 2 ^ 32.
(** [int]: two's complement on 32 bits (the kernel is built with wrapping
    signed arithmetic). *)
Definition s32 (x : Z) : Z := (x + 2 ^ 31) mod 2 ^ 32 - 2 ^ 31.

Definition UINT_MAX : Z := 2 ^ 32 - 1.

Definition is_u8 (x : Z) : Prop := 0 <= x < 2 ^ 8.
Definition is_u16 (x : Z) : Prop := 0 <= x < 2 ^ 16.
Definition is_u32 (x : Z) : Prop := 0 <= x < 2 ^ 32.

End Mach.
Import Mach.

(** errno values of the kernel ([include/asm-generic/errno-base.h]). *)
Definition ENOMEM : Z := 12.
Definition EBUSY : Z := 16.
Definition ENODEV : Z := 19.
Definition EINVAL : Z := 22.

(** [include/linux/videodev2.h]. *)
Definition V4L2_BUF_TYPE_VIDEO_CAPTURE : Z := 1.
Definition V4L2_FIELD_NONE : Z := 1.
Definition V4L2_MEMORY_MMAP : Z := 1.

(** ** Faults and the fault monad *)

Inductive fault : Set := NullDeref | DivByZero | OutOfBounds.

Inductive result (A : Type) : Type :=
| Done (a : A)
| Oops (f : fault).
Arguments Done {A} a.
Arguments Oops {A} f.

Definition bind {A B : Type} (m : result A) (k : A -> result B) : result B :=
  match m with
  | Done a => k a
  | Oops f => Oops f
  end.

Notation "x <-- m ;; k" := (bind m (fun x => k))
  (at level 100, m at next level, right associativity).

(** [*p] *)
Definition deref {A : Type} (p : option A) : result A :=
  match p with
  | Some a => Done a
  | None => Oops NullDeref
  end.

(** [a[i]] *)
Definition idx {A : Type} (a : list A) (i : Z) : result A :=
  if i <? 0 then Oops OutOfBounds
  else match a !! Z.to_nat i with
       | Some x => Done x
       | None => Oops OutOfBounds
       end.

(** unsigned [a / b] *)
Definition udiv (a b : Z) : result Z :=
  if b =? 0 then Oops DivByZero else Done (a / b).

(** ** Capability tables *)

(** [struct uvc_frame]. [dwFrameInterval] holds [bFrameIntervalType]
    discrete intervals, or (min, max, step) when [bFrameIntervalType] is 0. *)
Record uvc_frame : Type := {
  bFrameIndex : Z;
  wWidth : Z;
  wHeight : Z;
  dwDefaultFrameInterval : Z;
  bFrameIntervalType : Z;
  dwFrameInterval : list Z
}.

(** One entry of [struct uvc_still_frame]'s [frame[]]. *)
Record uvc_still_size : Type := {
  still_wWidth : Z;
  still_wHeight : Z
}.

(** [struct uvc_format]; [nframes] is the length of [frame];
    [still_frame_tbl] is [still_frame.frame[]] and [still_frame.nframes] its
    length. *)
Record uvc_format : Type := {
  index : Z;
  bpp : Z;
  colorspace : Z;
  fcc : Z;
  frame : list uvc_frame;
  still_frame_tbl : list uvc_still_size
}.

Definition nframes (f : uvc_format) : Z := Z.of_nat (length (frame f)).

(** The fields of [struct uvc_streaming_control] this file reads or writes. *)
Record uvc_streaming_control : Type := {
  bmHint : Z;
  bFormatIndex : Z;
  ctrl_bFrameIndex : Z;
  ctrl_dwFrameInterval : Z;
  dwMaxVideoFrameSize : Z
}.

(** [memset(probe, 0, sizeof *probe)] *)
Definition zero_ctrl : uvc_streaming_control :=
  {| bmHint := 0; bFormatIndex := 0; ctrl_bFrameIndex := 0;
     ctrl_dwFrameInterval := 0; dwMaxVideoFrameSize := 0 |}.

Definition set_dwFrameInterval (v : Z) (c : uvc_streaming_control) :=
  {| bmHint := bmHint c; bFormatIndex := bFormatIndex c;
     ctrl_bFrameIndex := ctrl_bFrameIndex c;
     ctrl_dwFrameInterval := v;
     dwMaxVideoFrameSize := dwMaxVideoFrameSize c |}.

Definition set_dwMaxVideoFrameSize (v : Z) (c : uvc_streaming_control) :=
  {| bmHint := bmHint c; bFormatIndex := bFormatIndex c;
     ctrl_bFrameIndex := ctrl_bFrameIndex c;
     ctrl_dwFrameInterval := ctrl_dwFrameInterval c;
     dwMaxVideoFrameSize := v |}.

(** ** uvc_try_frame_interval *)

(** [dist = interval > x ? interval - x : x - interval] on [__u32]. *)
Definition interval_dist (interval x : Z) : Z :=
  if interval >? x then u32 (interval - x) else u32 (x - interval).

(** The [for] loop over the discrete intervals: [rem] iterations are left,
    [i] is the loop index, [best] the last distance. The value is the index
    at which the loop is left, by [break] or by its condition. *)
Fixpoint interval_scan (tbl : list Z) (interval : Z)
    (rem : nat) (i best : Z) : result Z :=
  match rem with
  | O => Done i
  | S rem' =>
      x <-- idx tbl i ;;
      let dist := interval_dist interval x in
      if dist >? best then Done i
      else interval_scan tbl interval rem' (u32 (i + 1)) dist
  end.

Definition uvc_try_frame_interval (frame : option uvc_frame) (interval : Z)
    : result Z :=
  f <-- deref frame ;;
  if negb (bFrameIntervalType f =? 0) then
    i <-- interval_scan (dwFrameInterval f) interval
            (Z.to_nat (bFrameIntervalType f)) 0 UINT_MAX ;;
    idx (dwFrameInterval f) (u32 (i - 1))
  else
    min <-- idx (dwFrameInterval f) 0 ;;
    max <-- idx (dwFrameInterval f) 1 ;;
    step <-- idx (dwFrameInterval f) 2 ;;
    q <-- udiv (u32 (u32 (interval - min) + step / 2)) step ;;
    let interval := u32 (min + u32 (q * step)) in
    Done (if interval >? max then max else interval).

(** A frame with discrete intervals, as the descriptor parser builds it. *)
Definition discrete_frame (f : uvc_frame) : Prop :=
  0 < bFrameIntervalType f < 2 ^ 8 /\
  Z.of_nat (length (dwFrameInterval f)) = bFrameIntervalType f /\
  Forall is_u32 (dwFrameInterval f).

Definition mk_discrete (w h : Z) (ivals : list Z) : uvc_frame :=
  {| bFrameIndex := 1; wWidth := w; wHeight := h;
     dwDefaultFrameInterval := hd 0 ivals;
     bFrameIntervalType := Z.of_nat (length ivals);
     dwFrameInterval := ivals |}.

Definition mk_stepwise (w h min max step : Z) : uvc_frame :=
  {| bFrameIndex := 1; wWidth := w; wHeight := h;
     dwDefaultFrameInterval := min;
     bFrameIntervalType := 0;
     dwFrameInterval := [min; max; step] |}.

(** ** V4L2 request structures *)

(** [struct v4l2_pix_format] *)
Record v4l2_pix_format : Type := {
  pix_width : Z;
  pix_height : Z;
  pix_pixelformat : Z;
  pix_field : Z;
  pix_bytesperline : Z;
  pix_sizeimage : Z;
  pix_colorspace : Z;
  pix_priv : Z
}.

(** [struct v4l2_format], with [fmt.pix] as [fmt_pix]. *)
Record v4l2_format : Type := {
  fmt_type : Z;
  fmt_pix : v4l2_pix_format
}.

(** [struct v4l2_streamparm]: the type and the [timeperframe] fraction of
    [parm.capture] or [parm.output]. *)
Record v4l2_streamparm : Type := {
  parm_type : Z;
  timeperframe_numerator : Z;
  timeperframe_denominator : Z
}.

(** [struct v4l2_requestbuffers] *)
Record v4l2_requestbuffers : Type := {
  rb_count : Z;
  rb_type : Z;
  rb_memory : Z;
  rb_reserved0 : Z
}.

(** [struct v4l2_buffer] *)
Record v4l2_buffer : Type := {
  buf_index : Z;
  buf_type : Z;
  buf_flags : Z
}.

Definition set_buf_flags (v : Z) (b : v4l2_buffer) : v4l2_buffer :=
  {| buf_index := buf_index b; buf_type := buf_type b; buf_flags := v |}.

(** ** The video chain *)

(** [include/linux/usb/video.h]. *)
Definition UVC_SET_CUR : Z := 1.
Definition UVC_SU_INPUT_SELECT_CONTROL : Z := 1.

(** The fields of the selector unit ([struct uvc_entity]) that the input
    cases read. *)
Record uvc_entity : Type := {
  entity_id : Z;
  bNrInPins : Z
}.

(** [struct uvc_video_chain]: the selector unit ([NULL] when the chain has
    none) and [dev->intfnum]. *)
Record uvc_video_chain : Type := {
  selector : option uvc_entity;
  intfnum : Z
}.

(** ** The collaborators

    The buffer queue ([uvc_queue.c]), the probe exchange and the streaming
    switch ([uvc_video.c]), the fraction helpers ([uvc_driver.c]) and the
    macros and quirk bits of [uvcvideo.h] are not part of this file. They act
    on the queue and on the device, never on the negotiated configuration or
    on the privilege counter of the stream. [uvc_query_ctrl] takes the
    query, the unit, the interface, the control selector and the data bytes;
    [uvc_chain] is [handle->chain], which [uvc_driver.c] builds when the
    device is probed and this file only reads. *)
Class Collaborators : Type := {
  uvc_video_queue : Type;
  uvc_device : Type;
  uvc_queue_allocated : uvc_video_queue -> bool;
  uvc_queue_streaming : uvc_video_queue -> bool;
  uvc_alloc_buffers : uvc_video_queue -> Z -> Z -> Z * uvc_video_queue;
  uvc_free_buffers : uvc_video_queue -> Z * uvc_video_queue;
  uvc_mark_still_buffers : uvc_video_queue -> uvc_video_queue;
  uvc_query_buffer : uvc_video_queue -> v4l2_buffer -> Z * v4l2_buffer;
  uvc_queue_buffer :
    uvc_video_queue -> v4l2_buffer -> Z * uvc_video_queue * v4l2_buffer;
  uvc_dequeue_buffer :
    uvc_video_queue -> v4l2_buffer -> bool ->
    Z * uvc_video_queue * v4l2_buffer;
  uvc_probe_video :
    uvc_device -> uvc_streaming_control ->
    Z * uvc_streaming_control * uvc_device;
  uvc_probe_still :
    uvc_device -> uvc_streaming_control ->
    Z * uvc_streaming_control * uvc_device;
  uvc_video_enable :
    uvc_device -> uvc_video_queue -> Z -> Z * uvc_device * uvc_video_queue;
  uvc_trigger_still : uvc_device -> Z * uvc_device;
  uvc_query_ctrl :
    uvc_device -> Z -> Z -> Z -> Z -> list Z -> Z * uvc_device * list Z;
  uvc_chain : uvc_video_chain;
  uvc_fraction_to_interval : Z -> Z -> Z;
  uvc_simplify_fraction : Z -> Z -> Z -> Z -> Z * Z;
  dev_disconnected : uvc_device -> bool;
  usb_autopm_get_interface : uvc_device -> Z * uvc_device;
  usb_autopm_put_interface : uvc_device -> uvc_device;
  uvc_status_start : uvc_device -> Z * uvc_device;
  uvc_status_stop : uvc_device -> uvc_device;
  IS_STILL_MAGIC : Z -> bool;
  IS_STILL_BUF : v4l2_buffer -> bool;
  UVC_QUIRK_PROBE_EXTRAFIELDS : Z;
  UVC_QUIRK_IGNORE_SELECTOR_UNIT : Z;
  UVC_QUIRK_REDUCE_MEM_USAGE : Z
}.

Section Driver.

Context `{C : Collaborators}.

(** ** Stream and handles *)

(** [struct uvc_streaming]. [quirks] is [dev->quirks], [users] is
    [dev->users], [dev] is what the collaborators keep of the device;
    [nformats] is the length of [format]; [active] is the [atomic_t]. *)
Record uvc_streaming : Type := {
  type : Z;
  quirks : Z;
  format : list uvc_format;
  ctrl : uvc_streaming_control;
  cur_format : option uvc_format;
  cur_frame : option uvc_frame;
  queue : uvc_video_queue;
  still_queue : uvc_video_queue;
  still_ctrl : uvc_streaming_control;
  still_format : option uvc_format;
  still_frame : option uvc_frame;
  still_img_configed : Z;
  still_decoding : Z;
  still_waiting_frame : Z;
  dev : uvc_device;
  users : Z;
  active : Z
}.

Definition set_ctrl (v : uvc_streaming_control) (s : uvc_streaming) :=
  {| type := type s; quirks := quirks s; format := format s; ctrl := v;
     cur_format := cur_format s; cur_frame := cur_frame s; queue := queue s;
     still_queue := still_queue s; still_ctrl := still_ctrl s;
     still_format := still_format s; still_frame := still_frame s;
     still_img_configed := still_img_configed s;
     still_decoding := still_decoding s;
     still_waiting_frame := still_waiting_frame s; dev := dev s;
     users := users s; active := active s |}.

Definition set_cur_format (v : option uvc_format) (s : uvc_streaming) :=
  {| type := type s; quirks := quirks s; format := format s; ctrl := ctrl s;
     cur_format := v; cur_frame := cur_frame s; queue := queue s;
     still_queue := still_queue s; still_ctrl := still_ctrl s;
     still_format := still_format s; still_frame := still_frame s;
     still_img_configed := still_img_configed s;
     still_decoding := still_decoding s;
     still_waiting_frame := still_waiting_frame s; dev := dev s;
     users := users s; active := active s |}.

Definition set_cur_frame (v : option uvc_frame) (s : uvc_streaming) :=
  {| type := type s; quirks := quirks s; format := format s; ctrl := ctrl s;
     cur_format := cur_format s; cur_frame := v; queue := queue s;
     still_queue := still_queue s; still_ctrl := still_ctrl s;
     still_format := still_format s; still_frame := still_frame s;
     still_img_configed := still_img_configed s;
     still_decoding := still_decoding s;
     still_waiting_frame := still_waiting_frame s; dev := dev s;
     users := users s; active := active s |}.

Definition set_queue (v : uvc_video_queue) (s : uvc_streaming) :=
  {| type := type s; quirks := quirks s; format := format s; ctrl := ctrl s;
     cur_format := cur_format s; cur_frame := cur_frame s; queue := v;
     still_queue := still_queue s; still_ctrl := still_ctrl s;
     still_format := still_format s; still_frame := still_frame s;
     still_img_configed := still_img_configed s;
     still_decoding := still_decoding s;
     still_waiting_frame := still_waiting_frame s; dev := dev s;
     users := users s; active := active s |}.

Definition set_still_queue (v : uvc_video_queue) (s : uvc_streaming) :=
  {| type := type s; quirks := quirks s; format := format s; ctrl := ctrl s;
     cur_format := cur_format s; cur_frame := cur_frame s; queue := queue s;
     still_queue := v; still_ctrl := still_ctrl s;
     still_format := still_format s; still_frame := still_frame s;
     still_img_configed := still_img_configed s;
     still_decoding := still_decoding s;
     still_waiting_frame := still_waiting_frame s; dev := dev s;
     users := users s; active := active s |}.

Definition set_still_ctrl (v : uvc_streaming_control) (s : uvc_streaming) :=
  {| type := type s; quirks := quirks s; format := format s; ctrl := ctrl s;
     cur_format := cur_format s; cur_frame := cur_frame s; queue := queue s;
     still_queue := still_queue s; still_ctrl := v;
     still_format := still_format s; still_frame := still_frame s;
     still_img_configed := still_img_configed s;
     still_decoding := still_decoding s;
     still_waiting_frame := still_waiting_frame s; dev := dev s;
     users := users s; active := active s |}.

Definition set_still_format (v : option uvc_format) (s : uvc_streaming) :=
  {| type := type s; quirks := quirks s; format := format s; ctrl := ctrl s;
     cur_format := cur_format s; cur_frame := cur_frame s; queue := queue s;
     still_queue := still_queue s; still_ctrl := still_ctrl s;
     still_format := v; still_frame := still_frame s;
     still_img_configed := still_img_configed s;
     still_decoding := still_decoding s;
     still_waiting_frame := still_waiting_frame s; dev := dev s;
     users := users s; active := active s |}.

Definition set_still_frame (v : option uvc_frame) (s : uvc_streaming) :=
  {| type := type s; quirks := quirks s; format := format s; ctrl := ctrl s;
     cur_format := cur_format s; cur_frame := cur_frame s; queue := queue s;
     still_queue := still_queue s; still_ctrl := still_ctrl s;
     still_format := still_format s; still_frame := v;
     still_img_configed := still_img_configed s;
     still_decoding := still_decoding s;
     still_waiting_frame := still_waiting_frame s; dev := dev s;
     users := users s; active := active s |}.

Definition set_still_img_configed (v : Z) (s : uvc_streaming) :=
  {| type := type s; quirks := quirks s; format := format s; ctrl := ctrl s;
     cur_format := cur_format s; cur_frame := cur_frame s; queue := queue s;
     still_queue := still_queue s; still_ctrl := still_ctrl s;
     still_format := still_format s; still_frame := still_frame s;
     still_img_configed := v;
     still_decoding := still_decoding s;
     still_waiting_frame := still_waiting_frame s; dev := dev s;
     users := users s; active := active s |}.

Definition set_still_waiting_frame (v : Z) (s : uvc_streaming) :=
  {| type := type s; quirks := quirks s; format := format s; ctrl := ctrl s;
     cur_format := cur_format s; cur_frame := cur_frame s; queue := queue s;
     still_queue := still_queue s; still_ctrl := still_ctrl s;
     still_format := still_format s; still_frame := still_frame s;
     still_img_configed := still_img_configed s;
     still_decoding := still_decoding s;
     still_waiting_frame := v; dev := dev s;
     users := users s; active := active s |}.

Definition set_dev (v : uvc_device) (s : uvc_streaming) :=
  {| type := type s; quirks := quirks s; format := format s; ctrl := ctrl s;
     cur_format := cur_format s; cur_frame := cur_frame s; queue := queue s;
     still_queue := still_queue s; still_ctrl := still_ctrl s;
     still_format := still_format s; still_frame := still_frame s;
     still_img_configed := still_img_configed s;
     still_decoding := still_decoding s;
     still_waiting_frame := still_waiting_frame s; dev := v;
     users := users s; active := active s |}.

Definition set_users (v : Z) (s : uvc_streaming) :=
  {| type := type s; quirks := quirks s; format := format s; ctrl := ctrl s;
     cur_format := cur_format s; cur_frame := cur_frame s; queue := queue s;
     still_queue := still_queue s; still_ctrl := still_ctrl s;
     still_format := still_format s; still_frame := still_frame s;
     still_img_configed := still_img_configed s;
     still_decoding := still_decoding s;
     still_waiting_frame := still_waiting_frame s; dev := dev s;
     users := v; active := active s |}.

Definition set_active (v : Z) (s : uvc_streaming) :=
  {| type := type s; quirks := quirks s; format := format s; ctrl := ctrl s;
     cur_format := cur_format s; cur_frame := cur_frame s; queue := queue s;
     still_queue := still_queue s; still_ctrl := still_ctrl s;
     still_format := still_format s; still_frame := still_frame s;
     still_img_configed := still_img_configed s;
     still_decoding := still_decoding s;
     still_waiting_frame := still_waiting_frame s; dev := dev s;
     users := users s; active := v |}.

(** [enum uvc_handle_state] *)
Inductive uvc_handle_state : Set := UVC_HANDLE_PASSIVE | UVC_HANDLE_ACTIVE.

Global Instance uvc_handle_state_eq_dec : EqDecision uvc_handle_state.
Proof. solve_decision. Defined.

(** [struct uvc_fh]. All handles point to the one stream of the model, which
    is kept beside the handle table (see [uvc_world]). *)
Record uvc_fh : Type := {
  state : uvc_handle_state
}.

(** ** Still-image negotiation *)

(** The search loop of [uvc_v4l2_get_still_idx]: the index at which the loop
    is left. *)
Fixpoint still_scan (frames : list uvc_still_size) (rw rh : Z) (i : Z) : Z :=
  match frames with
  | [] => i
  | f :: rest =>
      if (rw =? still_wWidth f) && (rh =? still_wHeight f) then i
      else still_scan rest rw rh (u32 (i + 1))
  end.

Definition uvc_v4l2_get_still_idx (fmt : v4l2_format)
    (format : option uvc_format) : Z :=
  match format with
  | None => - EINVAL
  | Some format =>
      if Z.of_nat (length (still_frame_tbl format)) =? 0 then - EINVAL
      else
        let rw := u16 (pix_width (fmt_pix fmt)) in
        let rh := u16 (pix_height (fmt_pix fmt)) in
        let i := still_scan (still_frame_tbl format) rw rh 0 in
        if i <? Z.of_nat (length (still_frame_tbl format)) then s32 (i + 1)
        else - EINVAL
  end.

(** The format lookup loop shared by the two negotiation paths: [format] is
    the last table entry visited ([NULL] before the first), and the loop is
    left at the first entry with the requested fourcc. *)
Fixpoint find_format (formats : list uvc_format) (pixelformat : Z)
    (format : option uvc_format) : option uvc_format :=
  match formats with
  | [] => format
  | f :: rest =>
      if fcc f =? pixelformat then Some f
      else find_format rest pixelformat (Some f)
  end.

(** What a negotiation call leaves behind: its return value, the stream (the
    collaborators may have touched the device), the caller's descriptor,
    the caller's probe block, and the two pointer results. *)
Record try_format_out : Type := {
  tf_ret : Z;
  tf_stream : uvc_streaming;
  tf_fmt : v4l2_format;
  tf_probe : uvc_streaming_control;
  tf_format : option uvc_format;
  tf_frame : option uvc_frame
}.

(** [uvc_v4l2_try_format_still]. The function never stores through its
    [uvc_format] and [uvc_frame] arguments: they come back as they went in. *)
Definition uvc_v4l2_try_format_still (stream : uvc_streaming)
    (fmt : v4l2_format) (probe : uvc_streaming_control)
    (uvc_format_p : option uvc_format) (uvc_frame_p : option uvc_frame)
    : try_format_out :=
  let leave ret stream probe :=
    {| tf_ret := ret; tf_stream := stream; tf_fmt := fmt; tf_probe := probe;
       tf_format := uvc_format_p; tf_frame := uvc_frame_p |} in
  if negb (fmt_type fmt =? type stream) then leave (- EINVAL) stream probe
  else
    let pixelformat := pix_pixelformat (fmt_pix fmt) in
    let format := find_format (format stream) pixelformat None in
    match format with
    | None => leave (- EINVAL) stream probe
    | Some fo =>
        if negb (fcc fo =? pixelformat) then leave (- EINVAL) stream probe
        else
          let ret := uvc_v4l2_get_still_idx fmt format in
          if ret <? 0 then leave (- EINVAL) stream probe
          else
            let probe :=
              {| bmHint := 0; bFormatIndex := index fo;
                 ctrl_bFrameIndex := u8 ret; ctrl_dwFrameInterval := 0;
                 dwMaxVideoFrameSize := 0 |} in
            let '(ret, probe, d) := uvc_probe_still (dev stream) probe in
            leave ret (set_dev d stream) probe
    end.

(** [uvc_v4l2_set_format_still]. The locals [format] and [frame] start as
    [NULL]; [probe] is written before it is read. *)
Definition uvc_v4l2_set_format_still (stream : uvc_streaming)
    (fmt : v4l2_format) : Z * uvc_streaming :=
  if negb (fmt_type fmt =? type stream) then (- EINVAL, stream)
  else if negb (still_decoding stream =? 0) then (- EBUSY, stream)
  else
    let freed :=
      if negb (still_img_configed stream =? 0) then
        let '(ret, q) := uvc_free_buffers (still_queue stream) in
        let stream := set_still_queue q stream in
        if ret <? 0 then inl (ret, stream)
        else inr (set_still_img_configed 0 stream)
      else inr stream in
    match freed with
    | inl early => early
    | inr stream =>
        let t := uvc_v4l2_try_format_still stream fmt zero_ctrl None None in
        if tf_ret t <? 0 then (tf_ret t, tf_stream t)
        else
          (tf_ret t,
           set_still_img_configed 1
             (set_still_frame (tf_frame t)
                (set_still_format (tf_format t)
                   (set_still_ctrl (tf_probe t) (tf_stream t)))))
    end.

(** ** Main-pipeline negotiation *)

(** [d = min(w, rw) * min(h, rh); d = w*h + rw*rh - 2*d;] with the operands
    promoted to [int] and the results stored in an [unsigned int]. *)
Definition size_dist (w h rw rh : Z) : Z :=
  let d := u32 (s32 (Z.min w rw * Z.min h rh)) in
  u32 (u32 (s32 (s32 (w * h) + s32 (rw * rh))) - u32 (2 * d)).

(** The frame-size loop of [uvc_v4l2_try_format], over the frames not yet
    visited: [i] is the loop index, [maxd] the best distance so far, [frame]
    the best frame so far. The value is the state in which the loop is left,
    by [break] or by its condition. *)
Fixpoint size_scan (frames : list uvc_frame) (rw rh : Z)
    (i maxd : Z) (frame : option uvc_frame) : Z * Z * option uvc_frame :=
  match frames with
  | [] => (i, maxd, frame)
  | f :: rest =>
      let d := size_dist (wWidth f) (wHeight f) rw rh in
      let '(maxd, frame) :=
        if d <? maxd then (d, Some f) else (maxd, frame) in
      if maxd =? 0 then (i, maxd, frame)
      else size_scan rest rw rh (u32 (i + 1)) maxd frame
  end.

(** Lines 311-328: the frame the loop selects for the requested size. *)
Definition select_frame (format : uvc_format) (width height : Z)
    : option uvc_frame :=
  let rw := u16 width in
  let rh := u16 height in
  snd (size_scan (frame format) rw rh 0 UINT_MAX None).

Definition quirk_set (quirks bit : Z) : bool :=
  negb (Z.land quirks bit =? 0).

Definition uvc_v4l2_try_format (stream : uvc_streaming) (fmt : v4l2_format)
    (probe : uvc_streaming_control) : result try_format_out :=
  let leave ret stream probe :=
    {| tf_ret := ret; tf_stream := stream; tf_fmt := fmt; tf_probe := probe;
       tf_format := None; tf_frame := None |} in
  if negb (fmt_type fmt =? type stream) then
    Done (leave (- EINVAL) stream probe)
  else
    let pixelformat := pix_pixelformat (fmt_pix fmt) in
    match find_format (format stream) pixelformat None with
    | None => Done (leave (- EINVAL) stream probe)
    | Some fo =>
        if negb (fcc fo =? pixelformat) then
          Done (leave (- EINVAL) stream probe)
        else
          match select_frame fo (pix_width (fmt_pix fmt))
                  (pix_height (fmt_pix fmt)) with
          | None => Done (leave (- EINVAL) stream probe)
          | Some fr =>
              let interval := dwDefaultFrameInterval fr in
              fi <-- uvc_try_frame_interval (Some fr) interval ;;
              let probe :=
                {| bmHint := 1; bFormatIndex := index fo;
                   ctrl_bFrameIndex := bFrameIndex fr;
                   ctrl_dwFrameInterval := fi;
                   dwMaxVideoFrameSize := 0 |} in
              let probe :=
                if quirk_set (quirks stream) UVC_QUIRK_PROBE_EXTRAFIELDS
                then set_dwMaxVideoFrameSize
                       (dwMaxVideoFrameSize (ctrl stream)) probe
                else probe in
              let probe :=
                if quirk_set (quirks stream) UVC_QUIRK_REDUCE_MEM_USAGE
                then set_dwMaxVideoFrameSize
                       (u32 (Z.quot
                               (s32 (s32 (wWidth fr * wHeight fr) * 2)) 5))
                       probe
                else probe in
              let '(ret, probe, d) := uvc_probe_video (dev stream) probe in
              let stream := set_dev d stream in
              if ret <? 0 then Done (leave ret stream probe)
              else
                let pix :=
                  {| pix_width := wWidth fr;
                     pix_height := wHeight fr;
                     pix_pixelformat := pixelformat;
                     pix_field := V4L2_FIELD_NONE;
                     pix_bytesperline :=
                       u32 (Z.quot (s32 (bpp fo * wWidth fr)) 8);
                     pix_sizeimage := dwMaxVideoFrameSize probe;
                     pix_colorspace := colorspace fo;
                     pix_priv := 0 |} in
                Done {| tf_ret := ret; tf_stream := stream;
                        tf_fmt := {| fmt_type := fmt_type fmt;
                                     fmt_pix := pix |};
                        tf_probe := probe;
                        tf_format := Some fo; tf_frame := Some fr |}
          end
    end.

Definition uvc_v4l2_get_format (stream : uvc_streaming) (fmt : v4l2_format)
    : Z * v4l2_format :=
  if negb (fmt_type fmt =? type stream) then (- EINVAL, fmt)
  else
    match cur_format stream, cur_frame stream with
    | Some fo, Some fr =>
        (0, {| fmt_type := fmt_type fmt;
               fmt_pix :=
                 {| pix_width := wWidth fr;
                    pix_height := wHeight fr;
                    pix_pixelformat := fcc fo;
                    pix_field := V4L2_FIELD_NONE;
                    pix_bytesperline :=
                      u32 (Z.quot (s32 (bpp fo * wWidth fr)) 8);
                    pix_sizeimage := dwMaxVideoFrameSize (ctrl stream);
                    pix_colorspace := colorspace fo;
                    pix_priv := 0 |} |})
    | _, _ => (- EINVAL, fmt)
    end.

Definition uvc_v4l2_set_format (stream : uvc_streaming) (fmt : v4l2_format)
    : result (Z * uvc_streaming * v4l2_format) :=
  if negb (fmt_type fmt =? type stream) then Done (- EINVAL, stream, fmt)
  else
    t <-- uvc_v4l2_try_format stream fmt zero_ctrl ;;
    if tf_ret t <? 0 then Done (tf_ret t, tf_stream t, tf_fmt t)
    else if uvc_queue_allocated (queue (tf_stream t)) then
      Done (- EBUSY, tf_stream t, tf_fmt t)
    else
      Done (tf_ret t,
            set_cur_frame (tf_frame t)
              (set_cur_format (tf_format t)
                 (set_ctrl (tf_probe t) (tf_stream t))),
            tf_fmt t).

Definition uvc_v4l2_get_streamparm (stream : uvc_streaming)
    (parm : v4l2_streamparm) : Z * v4l2_streamparm :=
  if negb (parm_type parm =? type stream) then (- EINVAL, parm)
  else
    let numerator := ctrl_dwFrameInterval (ctrl stream) in
    let '(numerator, denominator) :=
      uvc_simplify_fraction numerator 10000000 8 333 in
    (0, {| parm_type := type stream;
           timeperframe_numerator := numerator;
           timeperframe_denominator := denominator |}).

Definition uvc_v4l2_set_streamparm (stream : uvc_streaming)
    (parm : v4l2_streamparm) : result (Z * uvc_streaming * v4l2_streamparm) :=
  if negb (parm_type parm =? type stream) then Done (- EINVAL, stream, parm)
  else
    let interval :=
      uvc_fraction_to_interval (timeperframe_numerator parm)
        (timeperframe_denominator parm) in
    if uvc_queue_streaming (queue stream) then Done (- EBUSY, stream, parm)
    else
      let probe := ctrl stream in
      fi <-- uvc_try_frame_interval (cur_frame stream) interval ;;
      let probe := set_dwFrameInterval fi probe in
      let '(ret, probe, d) := uvc_probe_video (dev stream) probe in
      let stream := set_dev d stream in
      if ret <? 0 then Done (ret, stream, parm)
      else
        let stream := set_ctrl probe stream in
        let '(numerator, denominator) :=
          uvc_simplify_fraction (ctrl_dwFrameInterval probe) 10000000 8 333 in
        Done (0, stream,
              {| parm_type := parm_type parm;
                 timeperframe_numerator := numerator;
                 timeperframe_denominator := denominator |}).

(** ** Privilege management *)

Definition atomic_inc_return (stream : uvc_streaming) : Z * uvc_streaming :=
  let v := s32 (active stream + 1) in (v, set_active v stream).

Definition atomic_dec (stream : uvc_streaming) : uvc_streaming :=
  set_active (s32 (active stream - 1)) stream.

Definition uvc_acquire_privileges (handle : uvc_fh) (stream : uvc_streaming)
    : Z * uvc_fh * uvc_streaming :=
  if decide (state handle = UVC_HANDLE_ACTIVE) then (0, handle, stream)
  else
    let '(v, stream) := atomic_inc_return stream in
    if negb (v =? 1) then (- EBUSY, handle, atomic_dec stream)
    else (0, {| state := UVC_HANDLE_ACTIVE |}, stream).

Definition uvc_dismiss_privileges (handle : uvc_fh) (stream : uvc_streaming)
    : uvc_fh * uvc_streaming :=
  let stream :=
    if decide (state handle = UVC_HANDLE_ACTIVE) then atomic_dec stream
    else stream in
  ({| state := UVC_HANDLE_PASSIVE |}, stream).

Definition uvc_has_privileges (handle : uvc_fh) : bool :=
  bool_decide (state handle = UVC_HANDLE_ACTIVE).


(** ** File operations *)

(** The one stream and the open files: [w_files !! file] is the handle in
    [file->private_data]. Every handle's [stream] pointer is [w_stream]. *)
Record uvc_world : Type := {
  w_stream : uvc_streaming;
  w_files : gmap nat uvc_fh
}.

(** [kzalloc_ok] says whether the allocation of the handle succeeds. *)
Definition uvc_v4l2_open (file : nat) (kzalloc_ok : bool) (w : uvc_world)
    : Z * uvc_world :=
  let stream := w_stream w in
  let leave ret stream := (ret, {| w_stream := stream; w_files := w_files w |}) in
  if dev_disconnected (dev stream) then leave (- ENODEV) stream
  else
    let '(ret, d) := usb_autopm_get_interface (dev stream) in
    let stream := set_dev d stream in
    if ret <? 0 then leave ret stream
    else if negb kzalloc_ok then
      leave (- ENOMEM) (set_dev (usb_autopm_put_interface (dev stream)) stream)
    else
      let users1 := s32 (users stream + 1) in
      let stream := set_users users1 stream in
      let started :=
        if users1 =? 1 then
          let '(ret, d) := uvc_status_start (dev stream) in
          let stream := set_dev d stream in
          if ret <? 0 then
            inl (ret,
                 set_users (s32 (users stream - 1))
                   (set_dev (usb_autopm_put_interface (dev stream)) stream))
          else inr stream
        else inr stream in
      match started with
      | inl (ret, stream) => leave ret stream
      | inr stream =>
          (0, {| w_stream := stream;
                 w_files :=
                   <[file := {| state := UVC_HANDLE_PASSIVE |}]> (w_files w) |})
      end.

Definition uvc_v4l2_release (file : nat) (w : uvc_world)
    : result (Z * uvc_world) :=
  handle <-- deref (w_files w !! file) ;;
  let stream := w_stream w in
  let stream :=
    if uvc_has_privileges handle then
      let '(_, d, q) := uvc_video_enable (dev stream) (queue stream) 0 in
      let stream := set_queue q (set_dev d stream) in
      let '(_, q) := uvc_free_buffers (queue stream) in
      let stream := set_queue q stream in
      let '(_, sq) := uvc_free_buffers (still_queue stream) in
      set_still_queue sq stream
    else stream in
  let '(_, stream) := uvc_dismiss_privileges handle stream in
  let files := delete file (w_files w) in
  let users1 := s32 (users stream - 1) in
  let stream := set_users users1 stream in
  let stream :=
    if users1 =? 0 then set_dev (uvc_status_stop (dev stream)) stream
    else stream in
  let stream := set_dev (usb_autopm_put_interface (dev stream)) stream in
  Done (0, {| w_stream := stream; w_files := files |}).

(** [case VIDIOC_S_INPUT] of [uvc_v4l2_do_ioctl], for any query function
    and quirk bit (the dispatcher passes the collaborators'): [arg] is the
    [u32] the argument points to, and [chain->dev] is the device of the
    stream. One byte of the [u32] local [input] is sent: its low byte. *)
Definition do_ioctl_s_input
    (uvc_query_ctrl :
       uvc_device -> Z -> Z -> Z -> Z -> list Z -> Z * uvc_device * list Z)
    (UVC_QUIRK_IGNORE_SELECTOR_UNIT : Z)
    (chain : uvc_video_chain) (arg : Z)
    (handle : uvc_fh) (stream : uvc_streaming) : Z * uvc_fh * uvc_streaming :=
  let input := u32 (arg + 1) in
  let '(ret, handle, stream) := uvc_acquire_privileges handle stream in
  if ret <? 0 then (ret, handle, stream)
  else
    let no_selector :=
      if negb (input =? 1) then (- EINVAL, handle, stream)
      else (ret, handle, stream) in
    match selector chain with
    | None => no_selector
    | Some sel =>
        if quirk_set (quirks stream) UVC_QUIRK_IGNORE_SELECTOR_UNIT then
          no_selector
        else if (input =? 0) || (input >? bNrInPins sel) then
          (- EINVAL, handle, stream)
        else
          let '(ret, d, _) :=
            uvc_query_ctrl (dev stream) UVC_SET_CUR (entity_id sel)
              (intfnum chain) UVC_SU_INPUT_SELECT_CONTROL [u8 input] in
          (ret, handle, set_dev d stream)
    end.

(** The requests of [uvc_v4l2_do_ioctl] that reach the negotiation core, the
    privilege arbiter and the two queues, each with its argument. *)
Inductive uvc_ioctl : Type :=
| VIDIOC_TRY_FMT (fmt : v4l2_format)
| VIDIOC_S_FMT (fmt : v4l2_format)
| VIDIOC_G_FMT (fmt : v4l2_format)
| VIDIOC_G_PARM (parm : v4l2_streamparm)
| VIDIOC_S_PARM (parm : v4l2_streamparm)
| VIDIOC_REQBUFS (rb : v4l2_requestbuffers)
| VIDIOC_QUERYBUF (buf : v4l2_buffer)
| VIDIOC_QBUF (buf : v4l2_buffer)
| VIDIOC_DQBUF (buf : v4l2_buffer)
| VIDIOC_STREAMON (type : Z)
| VIDIOC_STREAMOFF (type : Z)
| VIDIOC_S_INPUT (input : Z).

Definition set_rb_count (v : Z) (rb : v4l2_requestbuffers) :=
  {| rb_count := v; rb_type := rb_type rb; rb_memory := rb_memory rb;
     rb_reserved0 := rb_reserved0 rb |}.

(** [uvc_v4l2_do_ioctl]: the return value, the argument as the call leaves
    it, and the world. [nonblock] is [file->f_flags & O_NONBLOCK]. *)
Definition uvc_v4l2_do_ioctl (file : nat) (nonblock : bool) (cmd : uvc_ioctl)
    (w : uvc_world) : result (Z * uvc_ioctl * uvc_world) :=
  handle <-- deref (w_files w !! file) ;;
  let stream := w_stream w in
  let out ret arg handle stream :=
    (ret, arg, {| w_stream := stream;
                  w_files := <[file := handle]> (w_files w) |}) in
  match cmd with
  | VIDIOC_TRY_FMT fmt =>
      t <-- uvc_v4l2_try_format stream fmt zero_ctrl ;;
      Done (out (tf_ret t) (VIDIOC_TRY_FMT (tf_fmt t)) handle (tf_stream t))
  | VIDIOC_S_FMT fmt =>
      if IS_STILL_MAGIC (pix_priv (fmt_pix fmt)) then
        let '(ret, stream) := uvc_v4l2_set_format_still stream fmt in
        Done (out ret cmd handle stream)
      else
        let '(ret, handle, stream) := uvc_acquire_privileges handle stream in
        if ret <? 0 then Done (out ret cmd handle stream)
        else
          r <-- uvc_v4l2_set_format stream fmt ;;
          let '(ret, stream, fmt) := r in
          Done (out ret (VIDIOC_S_FMT fmt) handle stream)
  | VIDIOC_G_FMT fmt =>
      let '(ret, fmt) := uvc_v4l2_get_format stream fmt in
      Done (out ret (VIDIOC_G_FMT fmt) handle stream)
  | VIDIOC_G_PARM parm =>
      let '(ret, parm) := uvc_v4l2_get_streamparm stream parm in
      Done (out ret (VIDIOC_G_PARM parm) handle stream)
  | VIDIOC_S_PARM parm =>
      let '(ret, handle, stream) := uvc_acquire_privileges handle stream in
      if ret <? 0 then Done (out ret cmd handle stream)
      else
        r <-- uvc_v4l2_set_streamparm stream parm ;;
        let '(ret, stream, parm) := r in
        Done (out ret (VIDIOC_S_PARM parm) handle stream)
  | VIDIOC_REQBUFS rb =>
      if IS_STILL_MAGIC (rb_reserved0 rb) then
        if negb (rb_memory rb =? V4L2_MEMORY_MMAP) then
          Done (out (- EINVAL) cmd handle stream)
        else
          let '(ret, q) :=
            uvc_alloc_buffers (still_queue stream) (rb_count rb)
              (dwMaxVideoFrameSize (still_ctrl stream)) in
          let stream := set_still_queue q stream in
          if ret <? 0 then Done (out ret cmd handle stream)
          else
            let stream :=
              set_still_queue (uvc_mark_still_buffers (still_queue stream))
                stream in
            Done (out 0 (VIDIOC_REQBUFS (set_rb_count ret rb)) handle stream)
      else if negb (rb_type rb =? type stream)
              || negb (rb_memory rb =? V4L2_MEMORY_MMAP) then
        Done (out (- EINVAL) cmd handle stream)
      else
        let '(ret, handle, stream) := uvc_acquire_privileges handle stream in
        if ret <? 0 then Done (out ret cmd handle stream)
        else
          let '(ret, q) :=
            uvc_alloc_buffers (queue stream) (rb_count rb)
              (dwMaxVideoFrameSize (ctrl stream)) in
          let stream := set_queue q stream in
          if ret <? 0 then Done (out ret cmd handle stream)
          else
            let '(handle, stream) :=
              if ret =? 0 then uvc_dismiss_privileges handle stream
              else (handle, stream) in
            Done (out 0 (VIDIOC_REQBUFS (set_rb_count ret rb)) handle stream)
  | VIDIOC_QUERYBUF buf =>
      if IS_STILL_BUF buf then
        let '(ret, buf) := uvc_query_buffer (still_queue stream) buf in
        Done (out ret (VIDIOC_QUERYBUF buf) handle stream)
      else if negb (buf_type buf =? type stream) then
        Done (out (- EINVAL) cmd handle stream)
      else if negb (uvc_has_privileges handle) then
        Done (out (- EBUSY) cmd handle stream)
      else
        let '(ret, buf) := uvc_query_buffer (queue stream) buf in
        Done (out ret (VIDIOC_QUERYBUF buf) handle stream)
  | VIDIOC_QBUF buf =>
      if IS_STILL_BUF buf then
        let buf := set_buf_flags 0 buf in
        let '(ret, q, buf) := uvc_queue_buffer (still_queue stream) buf in
        let stream := set_still_queue q stream in
        if ret <? 0 then Done (out (- ENOMEM) (VIDIOC_QBUF buf) handle stream)
        else Done (out ret (VIDIOC_QBUF buf) handle stream)
      else if negb (uvc_has_privileges handle) then
        Done (out (- EBUSY) cmd handle stream)
      else
        let '(ret, q, buf) := uvc_queue_buffer (queue stream) buf in
        Done (out ret (VIDIOC_QBUF buf) handle (set_queue q stream))
  | VIDIOC_DQBUF buf =>
      if IS_STILL_BUF buf then
        let '(ret, d) := uvc_trigger_still (dev stream) in
        let stream := set_dev d stream in
        if ret <? 0 then Done (out ret cmd handle stream)
        else
          let stream := set_still_waiting_frame 1 stream in
          let '(ret, q, buf) :=
            uvc_dequeue_buffer (still_queue stream) buf nonblock in
          Done (out ret (VIDIOC_DQBUF buf) handle (set_still_queue q stream))
      else if negb (uvc_has_privileges handle) then
        Done (out (- EBUSY) cmd handle stream)
      else
        let '(ret, q, buf) := uvc_dequeue_buffer (queue stream) buf nonblock in
        Done (out ret (VIDIOC_DQBUF buf) handle (set_queue q stream))
  | VIDIOC_STREAMON ty =>
      if negb (ty =? type stream) then Done (out (- EINVAL) cmd handle stream)
      else if negb (uvc_has_privileges handle) then
        Done (out (- EBUSY) cmd handle stream)
      else
        let '(ret, d, q) := uvc_video_enable (dev stream) (queue stream) 1 in
        Done (out ret cmd handle (set_queue q (set_dev d stream)))
  | VIDIOC_STREAMOFF ty =>
      if negb (ty =? type stream) then Done (out (- EINVAL) cmd handle stream)
      else if negb (uvc_has_privileges handle) then
        Done (out (- EBUSY) cmd handle stream)
      else
        let '(ret, d, q) := uvc_video_enable (dev stream) (queue stream) 0 in
        Done (out ret cmd handle (set_queue q (set_dev d stream)))
  | VIDIOC_S_INPUT input =>
      let '(ret, handle, stream) :=
        do_ioctl_s_input uvc_query_ctrl UVC_QUIRK_IGNORE_SELECTOR_UNIT
          uvc_chain input handle stream in
      Done (out ret cmd handle stream)
  end.

(** ** Sequences of privilege calls *)

(** A call of the arbiter by the handle of an open file. *)
Inductive priv_call : Set :=
| AcquirePrivilege (file : nat)
| DismissPrivilege (file : nat).

(** One call on the shared stream: the handle of [file] and the stream are
    both written back. The value is the return value of the call (0 for
    [uvc_dismiss_privileges], which returns nothing). *)
Definition priv_step (c : priv_call) (w : uvc_world) : result (Z * uvc_world) :=
  match c with
  | AcquirePrivilege file =>
      handle <-- deref (w_files w !! file) ;;
      let '(ret, handle, stream) :=
        uvc_acquire_privileges handle (w_stream w) in
      Done (ret, {| w_stream := stream;
                    w_files := <[file := handle]> (w_files w) |})
  | DismissPrivilege file =>
      handle <-- deref (w_files w !! file) ;;
      let '(handle, stream) := uvc_dismiss_privileges handle (w_stream w) in
      Done (0, {| w_stream := stream;
                  w_files := <[file := handle]> (w_files w) |})
  end.

Fixpoint priv_run (cs : list priv_call) (w : uvc_world) : result uvc_world :=
  match cs with
  | [] => Done w
  | c :: rest =>
      r <-- priv_step c w ;;
      priv_run rest (snd r)
  end.

(** The descriptor a successful negotiation hands back. *)
Definition negotiated_fmt (fmt : v4l2_format) (fo : uvc_format)
    (fr : uvc_frame) (probe : uvc_streaming_control) : v4l2_format :=
  {| fmt_type := fmt_type fmt;
     fmt_pix :=
       {| pix_width := wWidth fr;
          pix_height := wHeight fr;
          pix_pixelformat := pix_pixelformat (fmt_pix fmt);
          pix_field := V4L2_FIELD_NONE;
          pix_bytesperline := u32 (Z.quot (s32 (bpp fo * wWidth fr)) 8);
          pix_sizeimage := dwMaxVideoFrameSize probe;
          pix_colorspace := colorspace fo;
          pix_priv := 0 |} |}.

(** ** Predicates on worlds *)

Definition call_file (c : priv_call) : nat :=
  match c with
  | AcquirePrivilege file => file
  | DismissPrivilege file => file
  end.

(** The handle of [file] is privileged. *)
Definition privileged (w : uvc_world) (file : nat) : Prop :=
  exists h, w_files w !! file = Some h /\ state h = UVC_HANDLE_ACTIVE.

(** The counter is 0 and nobody is privileged, or it is 1 and exactly one
    open file is. *)
Definition exclusive (w : uvc_world) : Prop :=
  (active (w_stream w) = 0 /\ forall file, ~ privileged w file) \/
  (active (w_stream w) = 1 /\
   exists file, privileged w file /\
                forall file', privileged w file' -> file' = file).

(** The committed configuration of the main pipeline. *)
Definition main_config (s : uvc_streaming)
    : uvc_streaming_control * option uvc_format * option uvc_frame :=
  (ctrl s, cur_format s, cur_frame s).

(** The committed configuration of the still pipeline. *)
Definition still_config (s : uvc_streaming)
    : uvc_streaming_control * option uvc_format * option uvc_frame :=
  (still_ctrl s, still_format s, still_frame s).

(** The worlds the file operations can produce from a freshly attached
    stream. *)
Inductive reachable : uvc_world -> Prop :=
| reach_attach (s : uvc_streaming) :
    active s = 0 -> reachable {| w_stream := s; w_files := ∅ |}
| reach_open (w : uvc_world) (file : nat) (kzalloc_ok : bool) :
    reachable w -> w_files w !! file = None ->
    reachable (snd (uvc_v4l2_open file kzalloc_ok w))
| reach_release (w w' : uvc_world) (file : nat) (ret : Z) :
    reachable w -> uvc_v4l2_release file w = Done (ret, w') ->
    reachable w'
| reach_ioctl (w w' : uvc_world) (file : nat) (nonblock : bool)
    (cmd arg : uvc_ioctl) (ret : Z) :
    reachable w ->
    uvc_v4l2_do_ioctl file nonblock cmd w = Done (ret, arg, w') ->
    reachable w'.

(** How one request may move the handle that issues it and the counter. *)
Definition priv_move (h : uvc_fh) (s : uvc_streaming) (h' : uvc_fh)
    (s' : uvc_streaming) : Prop :=
  (h' = h /\ active s' = active s) \/
  (state h = UVC_HANDLE_PASSIVE /\ active s = 0 /\
   state h' = UVC_HANDLE_ACTIVE /\ active s' = 1) \/
  (state h = UVC_HANDLE_ACTIVE /\ active s = 1 /\
   state h' = UVC_HANDLE_PASSIVE /\ active s' = 0).

End Driver.

(** ** Enumeration and cropping requests of [uvc_v4l2_do_ioctl]

    The cases of the dispatcher that read the capability tables and the
    committed frame only; they use neither the handle nor the queues. *)

(** [include/linux/videodev2.h]. *)
Definition V4L2_FRMSIZE_TYPE_DISCRETE : Z := 1.
Definition V4L2_FRMIVAL_TYPE_DISCRETE : Z := 1.
Definition V4L2_FRMIVAL_TYPE_STEPWISE : Z := 3.

(** [struct v4l2_frmsizeenum], with [discrete.width] and [discrete.height]. *)
Record v4l2_frmsizeenum : Type := {
  fsize_index : Z;
  fsize_pixel_format : Z;
  fsize_type : Z;
  fsize_width : Z;
  fsize_height : Z
}.

(** The union of [struct v4l2_frmivalenum], tagged by its [type] field: one
    fraction, or the (min, max, step) fractions; a fraction is (numerator,
    denominator). *)
Inductive frmival_union : Type :=
| frmival_discrete (discrete : Z * Z)
| frmival_stepwise (min max step : Z * Z).

(** [struct v4l2_frmivalenum] *)
Record v4l2_frmivalenum : Type := {
  fival_index : Z;
  fival_pixel_format : Z;
  fival_width : Z;
  fival_height : Z;
  fival_type : Z;
  fival_u : frmival_union
}.

(** [struct v4l2_rect] *)
Record v4l2_rect : Type := {
  rect_left : Z;
  rect_top : Z;
  rect_width : Z;
  rect_height : Z
}.

(** [struct v4l2_cropcap]; [ccap_pixelaspect] is (numerator, denominator). *)
Record v4l2_cropcap : Type := {
  ccap_type : Z;
  ccap_bounds : v4l2_rect;
  ccap_defrect : v4l2_rect;
  ccap_pixelaspect : Z * Z
}.

(** The lookup loop of the enumeration cases: [format] stays [NULL] until an
    entry has the requested fourcc. *)
Fixpoint lookup_format (formats : list uvc_format) (pixel_format : Z)
    : option uvc_format :=
  match formats with
  | [] => None
  | f :: rest =>
      if fcc f =? pixel_format then Some f
      else lookup_format rest pixel_format
  end.

(** The frame lookup loop of [VIDIOC_ENUM_FRAMEINTERVALS]. *)
Fixpoint lookup_frame (frames : list uvc_frame) (width height : Z)
    : option uvc_frame :=
  match frames with
  | [] => None
  | f :: rest =>
      if (wWidth f =? width) && (wHeight f =? height) then Some f
      else lookup_frame rest width height
  end.

Section Enumeration.

Context `{C : Collaborators}.

(** [case VIDIOC_ENUM_FRAMESIZES] *)
Definition do_ioctl_enum_framesizes (stream : uvc_streaming)
    (fsize : v4l2_frmsizeenum) : result (Z * v4l2_frmsizeenum) :=
  match lookup_format (format stream) (fsize_pixel_format fsize) with
  | None => Done (- EINVAL, fsize)
  | Some fo =>
      if fsize_index fsize >=? nframes fo then Done (- EINVAL, fsize)
      else
        fr <-- idx (frame fo) (fsize_index fsize) ;;
        Done (0, {| fsize_index := fsize_index fsize;
                    fsize_pixel_format := fsize_pixel_format fsize;
                    fsize_type := V4L2_FRMSIZE_TYPE_DISCRETE;
                    fsize_width := wWidth fr;
                    fsize_height := wHeight fr |})
  end.

Definition set_fival (ty : Z) (u : frmival_union) (fival : v4l2_frmivalenum)
    : v4l2_frmivalenum :=
  {| fival_index := fival_index fival;
     fival_pixel_format := fival_pixel_format fival;
     fival_width := fival_width fival;
     fival_height := fival_height fival;
     fival_type := ty;
     fival_u := u |}.

(** [case VIDIOC_ENUM_FRAMEINTERVALS] *)
Definition do_ioctl_enum_frameintervals (stream : uvc_streaming)
    (fival : v4l2_frmivalenum) : result (Z * v4l2_frmivalenum) :=
  match lookup_format (format stream) (fival_pixel_format fival) with
  | None => Done (- EINVAL, fival)
  | Some fo =>
      match lookup_frame (frame fo) (fival_width fival) (fival_height fival)
      with
      | None => Done (- EINVAL, fival)
      | Some fr =>
          if negb (bFrameIntervalType fr =? 0) then
            if fival_index fival >=? bFrameIntervalType fr then
              Done (- EINVAL, fival)
            else
              numerator <-- idx (dwFrameInterval fr) (fival_index fival) ;;
              Done (0, set_fival V4L2_FRMIVAL_TYPE_DISCRETE
                         (frmival_discrete
                            (uvc_simplify_fraction numerator 10000000 8 333))
                         fival)
          else
            min <-- idx (dwFrameInterval fr) 0 ;;
            max <-- idx (dwFrameInterval fr) 1 ;;
            step <-- idx (dwFrameInterval fr) 2 ;;
            Done (0, set_fival V4L2_FRMIVAL_TYPE_STEPWISE
                       (frmival_stepwise
                          (uvc_simplify_fraction min 10000000 8 333)
                          (uvc_simplify_fraction max 10000000 8 333)
                          (uvc_simplify_fraction step 10000000 8 333))
                       fival)
      end
  end.

(** [case VIDIOC_CROPCAP] *)
Definition do_ioctl_cropcap (stream : uvc_streaming) (ccap : v4l2_cropcap)
    : result (Z * v4l2_cropcap) :=
  if negb (ccap_type ccap =? type stream) then Done (- EINVAL, ccap)
  else
    fr <-- deref (cur_frame stream) ;;
    let bounds :=
      {| rect_left := 0; rect_top := 0;
         rect_width := wWidth fr; rect_height := wHeight fr |} in
    Done (0, {| ccap_type := ccap_type ccap;
                ccap_bounds := bounds;
                ccap_defrect := bounds;
                ccap_pixelaspect := (1, 1) |}).

End Enumeration.

(** ** Control requests of [uvc_v4l2_do_ioctl]

    The control transactions of [uvc_ctrl.c], on what that unit keeps of the
    chain: begin, get or set one control, commit, roll back. *)

(** [struct v4l2_ext_control]: the id and the value. *)
Record v4l2_ext_control : Type := {
  xc_id : Z;
  xc_value : Z
}.

(** [struct v4l2_control] *)
Record v4l2_control : Type := {
  ctl_id : Z;
  ctl_value : Z
}.

(** [struct v4l2_ext_controls]; [count] is the length of [xcs_controls]. *)
Record v4l2_ext_controls : Type := {
  xcs_error_idx : Z;
  xcs_controls : list v4l2_ext_control
}.

Record uvc_ctrl_ops (chain : Type) : Type := {
  uvc_ctrl_begin : chain -> Z * chain;
  uvc_ctrl_get : chain -> v4l2_ext_control -> Z * chain * v4l2_ext_control;
  uvc_ctrl_set : chain -> v4l2_ext_control -> Z * chain * v4l2_ext_control;
  uvc_ctrl_commit : chain -> Z * chain;
  uvc_ctrl_rollback : chain -> Z * chain
}.
Arguments uvc_ctrl_begin {chain} _ _.
Arguments uvc_ctrl_get {chain} _ _ _.
Arguments uvc_ctrl_set {chain} _ _ _.
Arguments uvc_ctrl_commit {chain} _ _.
Arguments uvc_ctrl_rollback {chain} _ _.

Section Controls.

Context {chain : Type}.

(** The [for] loop of the extended-control cases over the controls not yet
    visited, [op] being [uvc_ctrl_get] or [uvc_ctrl_set]: [i] is the loop
    index, [done] the controls already visited, as the calls left them. The
    loop is left with [inl (ret, i, chain, controls)] at the first call that
    fails, or with [inr (chain, controls)] after the last control. *)
Fixpoint ext_ctrls_loop
    (op : chain -> v4l2_ext_control -> Z * chain * v4l2_ext_control)
    (c : chain) (done todo : list v4l2_ext_control) (i : Z)
    : (Z * Z * chain * list v4l2_ext_control)
      + (chain * list v4l2_ext_control) :=
  match todo with
  | [] => inr (c, done)
  | ctrl :: rest =>
      let '(ret, c, ctrl) := op c ctrl in
      if ret <? 0 then inl (ret, i, c, done ++ ctrl :: rest)
      else ext_ctrls_loop op c (done ++ [ctrl]) rest (u32 (i + 1))
  end.

(** [case VIDIOC_G_EXT_CTRLS] *)
Definition do_ioctl_g_ext_ctrls (ops : uvc_ctrl_ops chain) (c : chain)
    (ctrls : v4l2_ext_controls) : Z * v4l2_ext_controls * chain :=
  let '(ret, c) := uvc_ctrl_begin ops c in
  if ret <? 0 then (ret, ctrls, c)
  else
    match ext_ctrls_loop (uvc_ctrl_get ops) c [] (xcs_controls ctrls) 0 with
    | inl (ret, i, c, controls) =>
        let '(_, c) := uvc_ctrl_rollback ops c in
        (ret, {| xcs_error_idx := i; xcs_controls := controls |}, c)
    | inr (c, controls) =>
        let '(ret, c) := uvc_ctrl_rollback ops c in
        (ret, {| xcs_error_idx := 0; xcs_controls := controls |}, c)
    end.

(** [case VIDIOC_S_EXT_CTRLS: case VIDIOC_TRY_EXT_CTRLS]; [is_try] says
    which of the two [cmd] is. *)
Definition do_ioctl_s_ext_ctrls (ops : uvc_ctrl_ops chain) (is_try : bool)
    (c : chain) (ctrls : v4l2_ext_controls) : Z * v4l2_ext_controls * chain :=
  let '(ret, c) := uvc_ctrl_begin ops c in
  if ret <? 0 then (ret, ctrls, c)
  else
    match ext_ctrls_loop (uvc_ctrl_set ops) c [] (xcs_controls ctrls) 0 with
    | inl (ret, i, c, controls) =>
        let '(_, c) := uvc_ctrl_rollback ops c in
        (ret, {| xcs_error_idx := i; xcs_controls := controls |}, c)
    | inr (c, controls) =>
        let '(ret, c) :=
          if negb is_try then uvc_ctrl_commit ops c
          else uvc_ctrl_rollback ops c in
        (ret, {| xcs_error_idx := 0; xcs_controls := controls |}, c)
    end.

(** [case VIDIOC_G_CTRL]; the fields of [xctrl] other than the id are
    zeroed. *)
Definition do_ioctl_g_ctrl (ops : uvc_ctrl_ops chain) (c : chain)
    (ctrl : v4l2_control) : Z * v4l2_control * chain :=
  let xctrl := {| xc_id := ctl_id ctrl; xc_value := 0 |} in
  let '(ret, c) := uvc_ctrl_begin ops c in
  if ret <? 0 then (ret, ctrl, c)
  else
    let '(ret, c, xctrl) := uvc_ctrl_get ops c xctrl in
    let '(_, c) := uvc_ctrl_rollback ops c in
    if ret >=? 0 then
      (ret, {| ctl_id := ctl_id ctrl; ctl_value := xc_value xctrl |}, c)
    else (ret, ctrl, c).

(** [case VIDIOC_S_CTRL] *)
Definition do_ioctl_s_ctrl (ops : uvc_ctrl_ops chain) (c : chain)
    (ctrl : v4l2_control) : Z * v4l2_control * chain :=
  let xctrl := {| xc_id := ctl_id ctrl; xc_value := ctl_value ctrl |} in
  let '(ret, c) := uvc_ctrl_begin ops c in
  if ret <? 0 then (ret, ctrl, c)
  else
    let '(ret, c, xctrl) := uvc_ctrl_set ops c xctrl in
    if ret <? 0 then
      let '(_, c) := uvc_ctrl_rollback ops c in
      (ret, ctrl, c)
    else
      let '(ret, c) := uvc_ctrl_commit ops c in
      if ret =? 0 then
        (ret, {| ctl_id := ctl_id ctrl; ctl_value := xc_value xctrl |}, c)
      else (ret, ctrl, c).

(** [op] accepts the controls [ctrls] one after the other from the chain
    [c]: no call fails, the chain ends as [c'] and the controls as
    [ctrls']. *)
Inductive accepted
    (op : chain -> v4l2_ext_control -> Z * chain * v4l2_ext_control)
    : chain -> list v4l2_ext_control -> chain -> list v4l2_ext_control
      -> Prop :=
| accepted_nil (c : chain) : accepted op c [] c []
| accepted_cons (c c1 c' : chain) (x x' : v4l2_ext_control)
    (rest rest' : list v4l2_ext_control) (ret : Z) :
    op c x = (ret, c1, x') -> 0 <= ret ->
    accepted op c1 rest c' rest' ->
    accepted op c (x :: rest) c' (x' :: rest').

(** [op] accepts the controls [pre] and refuses the next one, [x], with
    [ret], leaving the chain as [c1], the controls before as [pre'] and [x]
    as [x']. *)
Definition refused_at
    (op : chain -> v4l2_ext_control -> Z * chain * v4l2_ext_control)
    (c : chain) (pre : list v4l2_ext_control) (x : v4l2_ext_control)
    (ret : Z) (c1 : chain) (pre' : list v4l2_ext_control)
    (x' : v4l2_ext_control) : Prop :=
  exists ck, accepted op c pre ck pre' /\ op ck x = (ret, c1, x') /\ ret < 0.

(** What an extended-control request comes to once [uvc_ctrl_begin] has
    left the chain as [c0]: if [op] accepts every control, [close] ends the
    transaction and its value is returned with an error index of 0; if [op]
    refuses a control, the transaction is rolled back, the error of [op] is
    returned, the error index is the position of that control, and the
    controls after it are as they came. *)
Definition transaction_outcome (ops : uvc_ctrl_ops chain)
    (op : chain -> v4l2_ext_control -> Z * chain * v4l2_ext_control)
    (close : chain -> Z * chain) (c0 : chain)
    (ctrls : list v4l2_ext_control)
    (result : Z * v4l2_ext_controls * chain) : Prop :=
  (forall c' ctrls',
     accepted op c0 ctrls c' ctrls' ->
     result = (fst (close c'),
               {| xcs_error_idx := 0; xcs_controls := ctrls' |},
               snd (close c'))) /\
  (forall pre x post ret c1 pre' x',
     ctrls = pre ++ x :: post ->
     refused_at op c0 pre x ret c1 pre' x' ->
     result = (ret,
               {| xcs_error_idx := Z.of_nat (length pre);
                  xcs_controls := pre' ++ x' :: post |},
               snd (uvc_ctrl_rollback ops c1))) /\
  ((exists c' ctrls', accepted op c0 ctrls c' ctrls') \/
   (exists pre x post ret c1 pre' x',
      ctrls = pre ++ x :: post /\ refused_at op c0 pre x ret c1 pre' x')).

End Controls.

(** ** Auxiliary notions for the negotiation paths *)

(** The still size [e] has exactly the size ([rw], [rh]). *)
Definition still_match (rw rh : Z) (e : uvc_still_size) : Prop :=
  still_wWidth e = rw /\ still_wHeight e = rh.

Section Proposal.

Context `{C : Collaborators}.

(** The block [uvc_v4l2_try_format] hands to [uvc_probe_video] for the format
    [fo], the frame [fr] and the interval [fi]: the second quirk test of the
    function overwrites what the first one stored. *)
Definition try_format_candidate (stream : uvc_streaming) (fo : uvc_format)
    (fr : uvc_frame) (fi : Z) : uvc_streaming_control :=
  {| bmHint := 1; bFormatIndex := index fo;
     ctrl_bFrameIndex := bFrameIndex fr;
     ctrl_dwFrameInterval := fi;
     dwMaxVideoFrameSize :=
       if quirk_set (quirks stream) UVC_QUIRK_REDUCE_MEM_USAGE then
         u32 (Z.quot (s32 (s32 (wWidth fr * wHeight fr) * 2)) 5)
       else if quirk_set (quirks stream) UVC_QUIRK_PROBE_EXTRAFIELDS then
         dwMaxVideoFrameSize (ctrl stream)
       else 0 |}.

End Proposal.

Section Requests.

Context `{C : Collaborators}.

(** The requests of [uvc_v4l2_do_ioctl] that call [uvc_acquire_privileges]:
    [VIDIOC_S_INPUT], [VIDIOC_S_PARM], [VIDIOC_S_FMT] without the still tag,
    and [VIDIOC_REQBUFS] without the still tag once its type and memory
    checks have passed. *)
Definition needs_privilege (stream : uvc_streaming) (cmd : uvc_ioctl) : bool :=
  match cmd with
  | VIDIOC_S_FMT fmt => negb (IS_STILL_MAGIC (pix_priv (fmt_pix fmt)))
  | VIDIOC_S_PARM _ => true
  | VIDIOC_REQBUFS rb =>
      negb (IS_STILL_MAGIC (rb_reserved0 rb))
      && (rb_type rb =? type stream) && (rb_memory rb =? V4L2_MEMORY_MMAP)
  | VIDIOC_S_INPUT _ => true
  | _ => false
  end.

End Requests.


(** ** Distances and well-formed tables *)

(** The overlap distance between a [w]x[h] frame and a [rw]x[rh] request, in
    exact arithmetic. *)
Definition overlap_distance (w h rw rh : Z) : Z :=
  w * h + rw * rh - 2 * (Z.min w rw * Z.min h rh).

Definition frame_distance (f : uvc_frame) (rw rh : Z) : Z :=
  overlap_distance (wWidth f) (wHeight f) rw rh.

(** [f], at position [k] of [l], is at the least distance of the request, and
    every frame before it is strictly farther. *)
Definition first_nearest (l : list uvc_frame) (rw rh : Z) (k : nat)
    (f : uvc_frame) : Prop :=
  l !! k = Some f /\
  forall j g, l !! j = Some g ->
    frame_distance f rw rh <= frame_distance g rw rh /\
    ((j < k)%nat -> frame_distance f rw rh < frame_distance g rw rh).

(** [wWidth] and [wHeight] are [__u16]. *)
Definition frame_dims_ok (f : uvc_frame) : Prop :=
  is_u16 (wWidth f) /\ is_u16 (wHeight f).

(** [nframes] is an [unsigned int]. *)
Definition frames_ok (fo : uvc_format) : Prop :=
  Forall frame_dims_ok (frame fo) /\ nframes fo < 2 ^ 32.

(** A frame with a stepwise interval range: (min, max, step) with a step
    that is not 0. *)
Definition stepwise_frame (f : uvc_frame) : Prop :=
  bFrameIntervalType f = 0 /\
  exists min max step rest,
    dwFrameInterval f = min :: max :: step :: rest /\ step <> 0.

Definition frame_ok (f : uvc_frame) : Prop :=
  frame_dims_ok f /\ is_u32 (dwDefaultFrameInterval f) /\
  (discrete_frame f \/ stepwise_frame f).

Definition format_ok (fo : uvc_format) : Prop :=
  Forall frame_ok (frame fo) /\ nframes fo < 2 ^ 32.

(** What the interval loop knows about [best] when it is at index [i]. *)
Definition best_at (tbl : list Z) (interval : Z) (i : nat) (best : Z) : Prop :=
  match i with
  | O => best = UINT_MAX
  | S i' => exists a, tbl !! i' = Some a /\ best = Z.abs (interval - a)
  end.

(** What the frame-size loop knows after the frames of [l]. *)
Definition scan_inv (rw rh : Z) (l : list uvc_frame) (maxd : Z)
    (frame : option uvc_frame) : Prop :=
  match frame with
  | None => l = [] /\ maxd = UINT_MAX
  | Some f => maxd = frame_distance f rw rh /\
              exists k, first_nearest l rw rh k f
  end.


(** ** The arbiter under interleaving

    Neither privilege function is one atomic action. A handle that loses
    in [uvc_acquire_privileges] is, between its [atomic_inc_return] and its
    [atomic_dec], counted in [active]; a handle that wins is counted before
    its state is stored; and in [uvc_dismiss_privileges] the [atomic_dec]
    comes before the store of [UVC_HANDLE_PASSIVE]. Here every atomic
    operation and every store is a step of its own, each open file running
    its calls one after the other. *)

Module Interleaved.

(** [i_held]: the files whose handle is [UVC_HANDLE_ACTIVE] and that have not
    begun to dismiss. [i_leaving]: the files inside
    [uvc_dismiss_privileges], after the [atomic_dec] and before the store:
    their handle is still [UVC_HANDLE_ACTIVE]. [i_flying]: the passive files
    that have done their [atomic_inc_return] and not yet acted on the value
    it returned, with that value. *)
Record istate : Type := {
  i_active : Z;
  i_held : gset nat;
  i_leaving : gset nat;
  i_flying : gmap nat Z
}.

(** A dismissal by a passive handle stores the state it already has and is
    no step. *)
Inductive istep (files : gset nat) : istate -> istate -> Prop :=
| i_inc (f : nat) (s : istate) :
    f ∈ files -> f ∉ i_held s -> f ∉ i_leaving s -> i_flying s !! f = None ->
    istep files s
      {| i_active := s32 (i_active s + 1); i_held := i_held s;
         i_leaving := i_leaving s;
         i_flying := <[f := s32 (i_active s + 1)]> (i_flying s) |}
| i_take (f : nat) (s : istate) :
    i_flying s !! f = Some 1 ->
    istep files s
      {| i_active := i_active s; i_held := {[f]} ∪ i_held s;
         i_leaving := i_leaving s;
         i_flying := delete f (i_flying s) |}
| i_rollback (f : nat) (v : Z) (s : istate) :
    i_flying s !! f = Some v -> v <> 1 ->
    istep files s
      {| i_active := s32 (i_active s - 1); i_held := i_held s;
         i_leaving := i_leaving s;
         i_flying := delete f (i_flying s) |}
| i_dec (f : nat) (s : istate) :
    f ∈ i_held s ->
    istep files s
      {| i_active := s32 (i_active s - 1); i_held := i_held s ∖ {[f]};
         i_leaving := {[f]} ∪ i_leaving s;
         i_flying := i_flying s |}
| i_store (f : nat) (s : istate) :
    f ∈ i_leaving s ->
    istep files s
      {| i_active := i_active s; i_held := i_held s;
         i_leaving := i_leaving s ∖ {[f]};
         i_flying := i_flying s |}.



Definition istart : istate :=
  {| i_active := 0; i_held := ∅; i_leaving := ∅; i_flying := ∅ |}.

End Interleaved.

(** ** A bench instance of the collaborators *)

Module Bench.

Record bqueue : Type := {
  bq_count : Z;
  bq_streaming : bool
}.

Record bdevice : Type := {
  bd_accept : bool;
  bd_frame_size : Z
}.

Definition EIO : Z := 5.
Definition STILL_MAGIC : Z := 1398033740.

Definition bprobe (d : bdevice) (c : uvc_streaming_control)
    : Z * uvc_streaming_control * bdevice :=
  if bd_accept d then (0, set_dwMaxVideoFrameSize (bd_frame_size d) c, d)
  else (- EIO, c, d).

(** Modelled from the spec: the buffer queue, the device probe and the other
    external collaborators (section 6), whose code is in [uvc_queue.c],
    [uvc_video.c] and [uvc_driver.c]. The queue counts its buffers, the
    device accepts or rejects every probe and reports its frame size, and
    accepts every control query; the chain has a selector unit with two
    input pins. Used to run the driver on concrete requests. *)
Definition collaborators : Collaborators :=
  {| uvc_video_queue := bqueue;
     uvc_device := bdevice;
     uvc_queue_allocated := fun q => negb (bq_count q =? 0);
     uvc_queue_streaming := bq_streaming;
     uvc_alloc_buffers := fun q n _ =>
       (n, {| bq_count := n; bq_streaming := bq_streaming q |});
     uvc_free_buffers := fun q =>
       (0, {| bq_count := 0; bq_streaming := false |});
     uvc_mark_still_buffers := fun q => q;
     uvc_query_buffer := fun q b => (0, b);
     uvc_queue_buffer := fun q b => (0, q, b);
     uvc_dequeue_buffer := fun q b _ => (0, q, b);
     uvc_probe_video := bprobe;
     uvc_probe_still := bprobe;
     uvc_video_enable := fun d q e =>
       (0, d, {| bq_count := bq_count q; bq_streaming := negb (e =? 0) |});
     uvc_trigger_still := fun d => (0, d);
     uvc_query_ctrl := fun d _ _ _ _ data => (0, d, data);
     uvc_chain :=
       {| selector := Some {| entity_id := 3; bNrInPins := 2 |};
          intfnum := 0 |};
     uvc_fraction_to_interval := fun n d =>
       if d =? 0 then 0 else u32 (n * 10000000 / d);
     uvc_simplify_fraction := fun n d _ _ => (n / Z.gcd n d, d / Z.gcd n d);
     dev_disconnected := fun _ => false;
     usb_autopm_get_interface := fun d => (0, d);
     usb_autopm_put_interface := fun d => d;
     uvc_status_start := fun d => (0, d);
     uvc_status_stop := fun d => d;
     IS_STILL_MAGIC := fun v => v =? STILL_MAGIC;
     IS_STILL_BUF := fun b => buf_flags b =? STILL_MAGIC;
     UVC_QUIRK_PROBE_EXTRAFIELDS := 4;
     UVC_QUIRK_IGNORE_SELECTOR_UNIT := 32;
     UVC_QUIRK_REDUCE_MEM_USAGE := 4096 |}.

#[local] Existing Instance collaborators.

Definition empty_queue : bqueue := {| bq_count := 0; bq_streaming := false |}.

(** The capability table of the scenarios: one YUYV format with a 640x480
    frame at 333333 or 500000 and a 1280x720 frame at 500000. *)
Definition YUYV : Z := 1448695129.

Definition frame_vga : uvc_frame := mk_discrete 640 480 [333333; 500000].
Definition frame_hd : uvc_frame := mk_discrete 1280 720 [500000].

Definition yuyv : uvc_format :=
  {| index := 1; bpp := 16; colorspace := 8; fcc := YUYV;
     frame := [frame_vga; frame_hd];
     still_frame_tbl := [{| still_wWidth := 800; still_wHeight := 600 |}] |}.

(** A freshly attached stream: nothing negotiated, nobody privileged. *)
Definition stream0 (accept : bool) : uvc_streaming :=
  {| type := V4L2_BUF_TYPE_VIDEO_CAPTURE; quirks := 0; format := [yuyv];
     ctrl := zero_ctrl; cur_format := None; cur_frame := None;
     queue := empty_queue; still_queue := empty_queue;
     still_ctrl := zero_ctrl; still_format := None; still_frame := None;
     still_img_configed := 0; still_decoding := 0; still_waiting_frame := 0;
     dev := {| bd_accept := accept; bd_frame_size := 614400 |};
     users := 0; active := 0 |}.

Definition request (fourcc w h priv : Z) : v4l2_format :=
  {| fmt_type := V4L2_BUF_TYPE_VIDEO_CAPTURE;
     fmt_pix := {| pix_width := w; pix_height := h; pix_pixelformat := fourcc;
                   pix_field := 0; pix_bytesperline := 0; pix_sizeimage := 0;
                   pix_colorspace := 0; pix_priv := priv |} |}.

(** Two files open on the stream, both unprivileged. *)
Definition world0 (accept : bool) : uvc_world :=
  {| w_stream := set_users 2 (stream0 accept);
     w_files := <[2%nat := {| state := UVC_HANDLE_PASSIVE |}]>
                  (<[1%nat := {| state := UVC_HANDLE_PASSIVE |}]> ∅) |}.

(** File 1 holds the privilege, file 2 does not. *)
Definition world1 (accept : bool) : uvc_world :=
  {| w_stream := set_active 1 (set_users 2 (stream0 accept));
     w_files := <[2%nat := {| state := UVC_HANDLE_PASSIVE |}]>
                  (<[1%nat := {| state := UVC_HANDLE_ACTIVE |}]> ∅) |}.

(** The stream with four buffers allocated on the main queue. *)
Definition stream_allocated : uvc_streaming :=
  set_queue {| bq_count := 4; bq_streaming := false |} (stream0 true).

(** The stream while the main queue is streaming. *)
Definition stream_streaming : uvc_streaming :=
  set_queue {| bq_count := 4; bq_streaming := true |} (stream0 true).

(** The stream with a still configuration in place and two still buffers. *)
Definition stream_still : uvc_streaming :=
  set_still_img_configed 1
    (set_still_queue {| bq_count := 2; bq_streaming := false |}
       (stream0 true)).

Definition parm30 : v4l2_streamparm :=
  {| parm_type := V4L2_BUF_TYPE_VIDEO_CAPTURE;
     timeperframe_numerator := 1; timeperframe_denominator := 30 |}.

Definition plain_buf : v4l2_buffer :=
  {| buf_index := 0; buf_type := V4L2_BUF_TYPE_VIDEO_CAPTURE; buf_flags := 0 |}.

(** A format with two frames of the same height. *)
Definition two_widths : uvc_format :=
  {| index := 1; bpp := 16; colorspace := 8; fcc := YUYV;
     frame := [mk_discrete 640 480 [333333]; mk_discrete 1280 480 [333333]];
     still_frame_tbl := [] |}.

End Bench.

(** ** Further scenarios *)

Module Fixtures.

#[local] Existing Instance Bench.collaborators.

(** The stream of [Bench.stream0] with YUYV 640x480 at 333333 committed. *)
Definition configured : uvc_streaming :=
  set_cur_frame (Some Bench.frame_vga)
    (set_cur_format (Some Bench.yuyv)
       (set_ctrl {| bmHint := 1; bFormatIndex := 1; ctrl_bFrameIndex := 1;
                    ctrl_dwFrameInterval := 333333;
                    dwMaxVideoFrameSize := 614400 |}
          (Bench.stream0 true))).

(** A chain with one control, of id 1: the committed value and the value of
    the transaction in progress. Used to run the control requests. *)
Definition ctrl_ops : uvc_ctrl_ops (Z * Z) :=
  {| uvc_ctrl_begin := fun c => (0, (fst c, fst c));
     uvc_ctrl_get := fun c x =>
       if xc_id x =? 1 then (0, c, {| xc_id := 1; xc_value := snd c |})
       else (- EINVAL, c, x);
     uvc_ctrl_set := fun c x =>
       if xc_id x =? 1 then (0, (fst c, xc_value x), x)
       else (- EINVAL, c, x);
     uvc_ctrl_commit := fun c => (0, (snd c, snd c));
     uvc_ctrl_rollback := fun c => (0, (fst c, fst c)) |}.

(** A device that accepts every control query. *)
Definition query_ok (d : uvc_device) (query unit intfnum cs : Z)
    (data : list Z) : Z * uvc_device * list Z :=
  (0, d, data).

(** A chain whose selector unit has two input pins. *)
Definition chain2 : uvc_video_chain :=
  {| selector := Some {| entity_id := 3; bNrInPins := 2 |}; intfnum := 0 |}.

(** A frame whose interval is a range: 100 to 1000 in steps of 50. *)
Definition frame_range : uvc_frame := mk_stepwise 640 480 100 1000 50.

End Fixtures.

(** * Properties *)

(** ** Machine arithmetic *)

Lemma u32_id x : is_u32 x -> u32 x = x.
Proof. unfold is_u32, u32. intros H. apply Z.mod_small. lia. Qed.

Lemma u16_range x : is_u16 (u16 x).
Proof. unfold is_u16, u16. apply Z.mod_pos_bound. lia. Qed.

Lemma u16_id x : is_u16 x -> u16 x = x.
Proof. unfold is_u16, u16. intros H. apply Z.mod_small. lia. Qed.

Lemma u32_range x : is_u32 (u32 x).
Proof. unfold is_u32, u32. apply Z.mod_pos_bound. lia. Qed.

Lemma u32_s32 x : u32 (s32 x) = u32 x.
Proof.
  unfold u32, s32.
  rewrite Zminus_mod, Z.mod_mod by lia.
  rewrite <- Zminus_mod.
  replace (x + 2 ^ 31 - 2 ^ 31) with x by lia. reflexivity.
Qed.

Lemma s32_id x : - 2 ^ 31 <= x < 2 ^ 31 -> s32 x = x.
Proof. unfold s32. intros H. rewrite Z.mod_small; lia. Qed.

Lemma interval_dist_abs x y :
  is_u32 x -> is_u32 y -> interval_dist x y = Z.abs (x - y).
Proof.
  unfold interval_dist, is_u32. intros Hx Hy.
  destruct (Z.gtb_spec x y); rewrite u32_id; unfold is_u32; lia.
Qed.

Lemma idx_lookup {A : Type} (a : list A) (i : nat) (x : A) :
  a !! i = Some x -> idx a (Z.of_nat i) = Done x.
Proof.
  intros H. unfold idx.
  destruct (Z.ltb_spec (Z.of_nat i) 0); [lia |].
  rewrite Nat2Z.id, H. reflexivity.
Qed.

(** ** Frame intervals *)

Section IntervalScan.

Variable tbl : list Z.
Variable interval : Z.
Hypothesis tbl_u32 : Forall is_u32 tbl.
Hypothesis interval_u32 : is_u32 interval.
Hypothesis tbl_short : Z.of_nat (length tbl) < 2 ^ 32.

Lemma interval_scan_stop (rem i : nat) (best : Z) :
  (i + rem)%nat = length tbl ->
  best_at tbl interval i best ->
  exists k : nat,
    interval_scan tbl interval rem (Z.of_nat i) best = Done (Z.of_nat k) /\
    (i <= k <= length tbl)%nat /\
    ((0 < i + rem)%nat -> (1 <= k)%nat) /\
    (forall j a b, (i <= S j < k)%nat ->
       tbl !! j = Some a -> tbl !! S j = Some b ->
       Z.abs (interval - b) <= Z.abs (interval - a)) /\
    ((k < length tbl)%nat ->
       exists j a b, k = S j /\ tbl !! j = Some a /\ tbl !! k = Some b /\
                     Z.abs (interval - a) < Z.abs (interval - b)).
Proof.
  revert i best. induction rem as [| rem IH]; intros i best Hlen Hbest.
  - exists i. simpl. split; [reflexivity |].
    split; [lia |]. split; [lia |]. split; [intros; lia | intros; lia].
  - assert (Hi : (i < length tbl)%nat) by lia.
    destruct (lookup_lt_is_Some_2 tbl i Hi) as [x Hx].
    assert (Hxu : is_u32 x).
    { eapply Forall_lookup_1; eauto. }
    cbn [interval_scan]. rewrite (idx_lookup _ _ _ Hx). cbn [bind].
    rewrite (interval_dist_abs _ _ interval_u32 Hxu).
    destruct (Z.gtb_spec (Z.abs (interval - x)) best) as [Hgt | Hle].
    + (* break *)
      destruct i as [| i'].
      { simpl in Hbest. subst best. unfold is_u32, UINT_MAX in *. lia. }
      destruct Hbest as (a & Ha & ->).
      exists (S i'). split; [reflexivity |].
      split; [lia |]. split; [lia |]. split; [intros; lia |].
      intros _. exists i', a, x. repeat split; auto; lia.
    + (* next iteration *)
      replace (u32 (Z.of_nat i + 1)) with (Z.of_nat (S i)).
      2:{ rewrite u32_id; unfold is_u32; lia. }
      destruct (IH (S i) (Z.abs (interval - x))) as (k & Hk & Hr & _ & Hmono & Hstop).
      { lia. }
      { simpl. eauto. }
      exists k. split; [exact Hk |].
      split; [lia |]. split; [lia |]. split; [| exact Hstop].
      intros j a b Hj Ha Hb.
      destruct (decide (S j = i)) as [Heq | Hne].
      * subst i. simpl in Hbest. destruct Hbest as (a' & Ha' & ->).
        assert (a' = a) by congruence. assert (b = x) by congruence.
        subst. lia.
      * apply (Hmono j a b); auto. lia.
Qed.

End IntervalScan.

Lemma interval_discrete_spec (f : uvc_frame) (interval : Z) :
  discrete_frame f -> is_u32 interval ->
  exists (k : nat) (v : Z),
    uvc_try_frame_interval (Some f) interval = Done v /\
    dwFrameInterval f !! k = Some v /\
    (forall j a b, (j < k)%nat ->
       dwFrameInterval f !! j = Some a ->
       dwFrameInterval f !! S j = Some b ->
       Z.abs (interval - b) <= Z.abs (interval - a)) /\
    (forall b, dwFrameInterval f !! S k = Some b ->
       Z.abs (interval - v) < Z.abs (interval - b)).
Proof.
  intros (Hty & Hlen & Hu) Hi.
  destruct (interval_scan_stop (dwFrameInterval f) interval Hu Hi ltac:(lia)
              (length (dwFrameInterval f)) 0 UINT_MAX)
    as (k & Hk & Hr & Hpos & Hmono & Hstop).
  { lia. }
  { reflexivity. }
  assert (Hk1 : (1 <= k)%nat) by (apply Hpos; lia).
  destruct k as [| k]; [lia |].
  destruct (lookup_lt_is_Some_2 (dwFrameInterval f) k ltac:(lia)) as [v Hv].
  exists k, v.
  split.
  - unfold uvc_try_frame_interval. cbn [deref bind].
    destruct (Z.eqb_spec (bFrameIntervalType f) 0) as [? | _]; [lia |].
    cbn [negb]. rewrite <- Hlen, Nat2Z.id.
    change (Z.of_nat 0) with 0 in Hk. rewrite Hk. cbn [bind].
    replace (u32 (Z.of_nat (S k) - 1)) with (Z.of_nat k).
    2:{ rewrite u32_id; unfold is_u32; lia. }
    apply idx_lookup, Hv.
  - split; [exact Hv |]. split.
    + intros j a b Hj Ha Hb. apply (Hmono j a b); auto. lia.
    + intros b Hb.
      assert (Hlt : (S k < length (dwFrameInterval f))%nat).
      { eapply lookup_lt_Some; eauto. }
      destruct (Hstop Hlt) as (j & a & b' & Hj & Ha & Hb' & Hd).
      inversion Hj; subst j.
      assert (a = v) by congruence. assert (b' = b) by congruence.
      subst. exact Hd.
Qed.

(** X19. For a frame whose discrete intervals are listed in ascending order,
    [uvc_try_frame_interval] returns an entry of the list that is at least
    as near to the requested interval as every other entry. *)
Lemma interval_discrete_nearest (f : uvc_frame) (interval : Z) :
  discrete_frame f -> is_u32 interval ->
  (forall i j a b, (i <= j)%nat ->
     dwFrameInterval f !! i = Some a -> dwFrameInterval f !! j = Some b ->
     a <= b) ->
  exists v,
    uvc_try_frame_interval (Some f) interval = Done v /\
    v ∈ dwFrameInterval f /\
    forall j b, dwFrameInterval f !! j = Some b ->
      Z.abs (interval - v) <= Z.abs (interval - b).
Proof.
  intros Hd Hi Hsorted.
  destruct (interval_discrete_spec f interval Hd Hi)
    as (k & v & Hv & Hk & Hmono & Hstop).
  exists v. split; [exact Hv |].
  split; [apply list_elem_of_lookup; exists k; exact Hk |].
  assert (Hleft : forall d j b, (j + d = k)%nat ->
            dwFrameInterval f !! j = Some b ->
            Z.abs (interval - v) <= Z.abs (interval - b)).
  { induction d as [| d IH]; intros j b Hj Hb.
    - replace j with k in Hb by lia.
      assert (b = v) by congruence. subst. lia.
    - assert (Hlt : (S j < length (dwFrameInterval f))%nat).
      { apply lookup_lt_Some in Hk. lia. }
      destruct (lookup_lt_is_Some_2 _ _ Hlt) as [c Hc].
      pose proof (Hmono j b c ltac:(lia) Hb Hc).
      pose proof (IH (S j) c ltac:(lia) Hc). lia. }
  intros j b Hb.
  destruct (le_lt_dec j k) as [Hle | Hgt].
  - apply (Hleft (k - j)%nat j b); [lia | exact Hb].
  - assert (Hlt : (S k < length (dwFrameInterval f))%nat).
    { apply lookup_lt_Some in Hb. lia. }
    destruct (lookup_lt_is_Some_2 _ _ Hlt) as [c Hc].
    pose proof (Hstop c Hc) as Hup.
    pose proof (Hsorted k (S k) v c ltac:(lia) Hk Hc).
    pose proof (Hsorted (S k) j c b ltac:(lia) Hc Hb).
    lia.
Qed.

(** C5. On a frame with a non-empty discrete interval list,
    [uvc_try_frame_interval] returns an entry of the list, at a position [k]
    such that the distances to the request do not increase from position 0
    up to [k] and the distance at [k + 1], if there is one, is strictly
    greater: the scan stops at the first increase and backs up by one. It
    never fails. Requesting 400000 against [333333; 500000] gives 333333. *)
Theorem try_frame_interval_discrete :
  (forall (f : uvc_frame) (interval : Z),
     discrete_frame f -> is_u32 interval ->
     exists (k : nat) (v : Z),
       uvc_try_frame_interval (Some f) interval = Done v /\
       dwFrameInterval f !! k = Some v /\
       (forall j a b, (j < k)%nat ->
          dwFrameInterval f !! j = Some a ->
          dwFrameInterval f !! S j = Some b ->
          Z.abs (interval - b) <= Z.abs (interval - a)) /\
       (forall b, dwFrameInterval f !! S k = Some b ->
          Z.abs (interval - v) < Z.abs (interval - b))) /\
  uvc_try_frame_interval (Some (mk_discrete 640 480 [333333; 500000])) 400000
    = Done 333333.
Proof. split; [exact interval_discrete_spec | reflexivity]. Qed.

(** ** Frame sizes *)

Lemma s32_congr x : exists k, s32 x = x + k * 2 ^ 32.
Proof.
  unfold s32. exists (- ((x + 2 ^ 31) / 2 ^ 32)).
  pose proof (Z.div_mod (x + 2 ^ 31) (2 ^ 32) ltac:(lia)). lia.
Qed.

Lemma overlap_distance_bounds w h rw rh :
  is_u16 w -> is_u16 h -> is_u16 rw -> is_u16 rh ->
  0 <= overlap_distance w h rw rh <= 65535 * 65535.
Proof.
  unfold is_u16, overlap_distance. intros Hw Hh Hrw Hrh.
  change (2 ^ 16) with 65536 in *.
  destruct (Z.min_spec w rw) as [[? ->] | [? ->]];
    destruct (Z.min_spec h rh) as [[? ->] | [? ->]]; nia.
Qed.

Lemma size_dist_exact w h rw rh :
  is_u16 w -> is_u16 h -> is_u16 rw -> is_u16 rh ->
  size_dist w h rw rh = overlap_distance w h rw rh.
Proof.
  intros Hw Hh Hrw Hrh.
  pose proof (overlap_distance_bounds w h rw rh Hw Hh Hrw Hrh) as Hb.
  unfold size_dist. rewrite !u32_s32.
  set (m := Z.min w rw * Z.min h rh).
  assert (Hm : 0 <= m <= 65535 * 65535).
  { subst m. unfold is_u16 in *. change (2 ^ 16) with 65536 in *.
    destruct (Z.min_spec w rw) as [[? ->] | [? ->]];
      destruct (Z.min_spec h rh) as [[? ->] | [? ->]]; nia. }
  rewrite (u32_id m) by (unfold is_u32; lia).
  destruct (s32_congr (w * h)) as [k1 ->].
  destruct (s32_congr (rw * rh)) as [k2 ->].
  unfold u32. rewrite <- Zminus_mod.
  replace (w * h + k1 * 2 ^ 32 + (rw * rh + k2 * 2 ^ 32) - 2 * m)
    with (overlap_distance w h rw rh + (k1 + k2) * 2 ^ 32)
    by (unfold overlap_distance; fold m; ring).
  rewrite Z_mod_plus_full. apply Z.mod_small. lia.
Qed.

Section SizeScan.

Variables rw rh : Z.
Hypothesis rw_u16 : is_u16 rw.
Hypothesis rh_u16 : is_u16 rh.

Lemma frame_distance_code f :
  frame_dims_ok f ->
  size_dist (wWidth f) (wHeight f) rw rh = frame_distance f rw rh /\
  0 <= frame_distance f rw rh < UINT_MAX.
Proof.
  intros [Hw Hh]. split.
  - apply size_dist_exact; assumption.
  - pose proof (overlap_distance_bounds _ _ _ _ Hw Hh rw_u16 rh_u16).
    unfold frame_distance, UINT_MAX. lia.
Qed.

Lemma scan_inv_step pre f maxd frame :
  Forall frame_dims_ok pre -> frame_dims_ok f ->
  scan_inv rw rh pre maxd frame ->
  let d := size_dist (wWidth f) (wHeight f) rw rh in
  scan_inv rw rh (pre ++ [f])
    (fst (if d <? maxd then (d, Some f) else (maxd, frame)))
    (snd (if d <? maxd then (d, Some f) else (maxd, frame))).
Proof.
  intros Hpre Hf Hinv d.
  destruct (frame_distance_code f Hf) as [Hd Hdb]. subst d. rewrite Hd.
  destruct frame as [f0 |]; simpl in Hinv.
  - destruct Hinv as (-> & k & Hk & Hmin).
    destruct (Z.ltb_spec (frame_distance f rw rh) (frame_distance f0 rw rh))
      as [Hlt | Hge]; simpl.
    + split; [reflexivity |]. exists (length pre). split.
      * rewrite lookup_app_r by lia. rewrite Nat.sub_diag. reflexivity.
      * intros j g Hg.
        destruct (decide (j < length pre)%nat) as [Hj | Hj].
        -- rewrite lookup_app_l in Hg by lia.
           destruct (Hmin j g Hg) as [Hle _]. lia.
        -- rewrite lookup_app_r in Hg by lia.
           destruct (j - length pre)%nat eqn:E; simpl in Hg; [| discriminate].
           inversion Hg; subst g. lia.
    + split; [reflexivity |]. exists k. split.
      * apply lookup_app_l_Some. exact Hk.
      * intros j g Hg.
        destruct (decide (j < length pre)%nat) as [Hj | Hj].
        -- rewrite lookup_app_l in Hg by lia. apply (Hmin j g Hg).
        -- rewrite lookup_app_r in Hg by lia.
           destruct (j - length pre)%nat eqn:E; simpl in Hg; [| discriminate].
           inversion Hg; subst g. split; [lia |].
           intros Hjk. apply lookup_lt_Some in Hk. lia.
  - destruct Hinv as (-> & ->).
    destruct (Z.ltb_spec (frame_distance f rw rh) UINT_MAX) as [_ | ?];
      [| lia]. simpl.
    split; [reflexivity |]. exists 0%nat. split; [reflexivity |].
    intros j g Hg. destruct j; simpl in Hg; [| discriminate].
    inversion Hg; subst g. lia.
Qed.

Lemma scan_inv_rest pre rest f :
  Forall frame_dims_ok rest ->
  frame_distance f rw rh = 0 ->
  (exists k, first_nearest pre rw rh k f) ->
  exists k, first_nearest (pre ++ rest) rw rh k f.
Proof.
  intros Hrest Hz (k & Hk & Hmin). exists k. split.
  - apply lookup_app_l_Some. exact Hk.
  - intros j g Hg.
    destruct (decide (j < length pre)%nat) as [Hj | Hj].
    + rewrite lookup_app_l in Hg by lia. apply (Hmin j g Hg).
    + rewrite lookup_app_r in Hg by lia.
      assert (Hgok : frame_dims_ok g).
      { eapply Forall_lookup_1; eauto. }
      destruct (frame_distance_code g Hgok) as [_ Hb]. split; [lia |].
      intros Hjk. apply lookup_lt_Some in Hk. lia.
Qed.

Lemma size_scan_inv rest : forall pre i maxd frame,
  Forall frame_dims_ok pre -> Forall frame_dims_ok rest ->
  scan_inv rw rh pre maxd frame ->
  scan_inv rw rh (pre ++ rest)
    (snd (fst (size_scan rest rw rh i maxd frame)))
    (snd (size_scan rest rw rh i maxd frame)).
Proof.
  induction rest as [| f rest IH]; intros pre i maxd frame Hpre Hrest Hinv.
  - simpl. rewrite app_nil_r. exact Hinv.
  - apply Forall_cons in Hrest as [Hf Hrest].
    pose proof (scan_inv_step pre f maxd frame Hpre Hf Hinv) as Hstep.
    cbn [size_scan]. cbv zeta in Hstep.
    destruct (if size_dist (wWidth f) (wHeight f) rw rh <? maxd
              then (size_dist (wWidth f) (wHeight f) rw rh, Some f)
              else (maxd, frame)) as [maxd1 frame1] eqn:E.
    simpl in Hstep.
    destruct (Z.eqb_spec maxd1 0) as [Hz | Hnz].
    + simpl. subst maxd1.
      destruct frame1 as [f1 |]; simpl in Hstep |- *.
      * destruct Hstep as (Hd & Hex). split; [exact Hd |].
        replace (pre ++ f :: rest) with ((pre ++ [f]) ++ rest)
          by (rewrite <- app_assoc; reflexivity).
        apply scan_inv_rest; auto.
      * destruct Hstep as (_ & Hbad). unfold UINT_MAX in Hbad. lia.
    + replace (pre ++ f :: rest) with ((pre ++ [f]) ++ rest)
        by (rewrite <- app_assoc; reflexivity).
      apply IH; auto.
      apply Forall_app. split; auto.
Qed.

(** Where the loop is left: at the first frame at distance 0, or after the
    last frame when there is none. *)
Lemma size_scan_exit rest : forall i maxd frame,
  Forall frame_dims_ok rest ->
  0 <= i -> i + Z.of_nat (length rest) < 2 ^ 32 -> 0 < maxd ->
  (forall k g, rest !! k = Some g -> frame_distance g rw rh = 0 ->
     (forall j h, (j < k)%nat -> rest !! j = Some h ->
        frame_distance h rw rh <> 0) ->
     size_scan rest rw rh i maxd frame = (i + Z.of_nat k, 0, Some g)) /\
  ((forall j h, rest !! j = Some h -> frame_distance h rw rh <> 0) ->
     fst (fst (size_scan rest rw rh i maxd frame))
       = i + Z.of_nat (length rest)).
Proof.
  induction rest as [| f rest IH]; intros i maxd frame Hrest Hi Hlen Hmaxd.
  - split; [intros k g Hk; discriminate | intros _; simpl; lia].
  - apply Forall_cons in Hrest as [Hf Hrest].
    destruct (frame_distance_code f Hf) as [Hd Hdb].
    cbn [size_scan]. rewrite Hd.
    assert (Hnext : u32 (i + 1) = i + 1).
    { apply u32_id. unfold is_u32. simpl length in Hlen. lia. }
    split.
    + intros k g Hk Hz Hfirst. destruct k as [| k]; simpl in Hk.
      * inversion Hk; subst g. rewrite Hz.
        destruct (Z.ltb_spec 0 maxd); [| lia]. simpl.
        f_equal. f_equal. lia.
      * assert (Hfnz : frame_distance f rw rh <> 0).
        { apply (Hfirst 0%nat f); [lia | reflexivity]. }
        destruct (Z.ltb_spec (frame_distance f rw rh) maxd).
        -- destruct (Z.eqb_spec (frame_distance f rw rh) 0); [lia |].
           rewrite Hnext.
           destruct (IH (i + 1) (frame_distance f rw rh) (Some f) Hrest)
             as [Hfound _]; [lia | simpl length in Hlen; lia | lia |].
           rewrite (Hfound k g Hk Hz).
           ++ f_equal. f_equal. lia.
           ++ intros j h Hj Hh. apply (Hfirst (S j) h); [lia | exact Hh].
        -- destruct (Z.eqb_spec maxd 0); [lia |].
           rewrite Hnext.
           destruct (IH (i + 1) maxd frame Hrest)
             as [Hfound _]; [lia | simpl length in Hlen; lia | lia |].
           rewrite (Hfound k g Hk Hz).
           ++ f_equal. f_equal. lia.
           ++ intros j h Hj Hh. apply (Hfirst (S j) h); [lia | exact Hh].
    + intros Hnone.
      assert (Hfnz : frame_distance f rw rh <> 0).
      { apply (Hnone 0%nat f). reflexivity. }
      destruct (Z.ltb_spec (frame_distance f rw rh) maxd).
      * destruct (Z.eqb_spec (frame_distance f rw rh) 0); [lia |].
        rewrite Hnext.
        destruct (IH (i + 1) (frame_distance f rw rh) (Some f) Hrest)
          as [_ Hall]; [lia | simpl length in Hlen; lia | lia |].
        rewrite Hall.
        -- simpl length. lia.
        -- intros j h Hh. apply (Hnone (S j) h). exact Hh.
      * destruct (Z.eqb_spec maxd 0); [lia |].
        rewrite Hnext.
        destruct (IH (i + 1) maxd frame Hrest)
          as [_ Hall]; [lia | simpl length in Hlen; lia | lia |].
        rewrite Hall.
        -- simpl length. lia.
        -- intros j h Hh. apply (Hnone (S j) h). exact Hh.
Qed.

End SizeScan.

Lemma overlap_distance_zero w h rw rh :
  is_u16 w -> is_u16 h -> 0 < rw -> 0 < rh ->
  overlap_distance w h rw rh = 0 -> w = rw /\ h = rh.
Proof.
  unfold is_u16, overlap_distance. intros Hw Hh Hrw Hrh.
  destruct (Z.min_spec w rw) as [[? ->] | [? ->]];
    destruct (Z.min_spec h rh) as [[? ->] | [? ->]]; intros Hz; nia.
Qed.

Lemma overlap_distance_same rw rh : overlap_distance rw rh rw rh = 0.
Proof. unfold overlap_distance. rewrite !Z.min_id. ring. Qed.

Section FrameSizeClaim.
Context `{C : Collaborators}.

(** X23. With the requested width and height reduced modulo 2^16
    (the loop keeps them in [__u16] variables), the frame-size loop returns
    the frame of the format's list at the least overlap distance, the first
    such frame winning ties; it is left at the first frame at distance 0; if
    some frame has exactly the (reduced) requested size, the result is at
    distance 0, and for a non-zero size it has exactly that size; the result
    depends on the table and the reduced request only; and on an empty frame
    list nothing is selected and [uvc_v4l2_try_format] returns [-EINVAL]. *)
Theorem select_frame_nearest (fo : uvc_format) (width height : Z) :
  frames_ok fo ->
  let rw := u16 width in
  let rh := u16 height in
  (frame fo = [] -> select_frame fo width height = None) /\
  (frame fo <> [] ->
     exists k f, select_frame fo width height = Some f /\
                 first_nearest (frame fo) rw rh k f) /\
  (forall k g, frame fo !! k = Some g -> frame_distance g rw rh = 0 ->
     (forall j h, (j < k)%nat -> frame fo !! j = Some h ->
        frame_distance h rw rh <> 0) ->
     size_scan (frame fo) rw rh 0 UINT_MAX None = (Z.of_nat k, 0, Some g)) /\
  (forall g, g ∈ frame fo -> wWidth g = rw -> wHeight g = rh ->
     exists f, select_frame fo width height = Some f /\
               frame_distance f rw rh = 0 /\
               (0 < rw -> 0 < rh -> wWidth f = rw /\ wHeight f = rh)) /\
  (forall width' height', u16 width' = rw -> u16 height' = rh ->
     select_frame fo width' height' = select_frame fo width height) /\
  (frame fo = [] ->
   forall (stream : uvc_streaming) fmt probe,
     fmt_type fmt = type stream ->
     find_format (format stream) (pix_pixelformat (fmt_pix fmt)) None
       = Some fo ->
     fcc fo = pix_pixelformat (fmt_pix fmt) ->
     exists t, uvc_v4l2_try_format stream fmt probe = Done t /\
               tf_ret t = - EINVAL /\ tf_fmt t = fmt /\
               tf_stream t = stream).
Proof.
  intros [Hok Hlen] rw rh.
  assert (Hrw : is_u16 rw) by apply u16_range.
  assert (Hrh : is_u16 rh) by apply u16_range.
  pose proof (size_scan_inv rw rh Hrw Hrh (frame fo) [] 0 UINT_MAX None
                (Forall_nil_2 _) Hok (conj eq_refl eq_refl)) as Hinv.
  rewrite app_nil_l in Hinv.
  change (snd (size_scan (frame fo) rw rh 0 UINT_MAX None))
    with (select_frame fo width height) in Hinv.
  assert (Hsel : frame fo <> [] ->
            exists k f, select_frame fo width height = Some f /\
                        first_nearest (frame fo) rw rh k f).
  { intros Hne. destruct (select_frame fo width height) as [f |];
      simpl in Hinv.
    - destruct Hinv as (_ & k & Hk). exists k, f. split; [reflexivity | exact Hk].
    - destruct Hinv as [Hnil _]. contradiction. }
  split; [intros Hnil; unfold select_frame; rewrite Hnil; reflexivity |].
  split; [exact Hsel |].
  split.
  { intros k g Hk Hz Hfirst.
    destruct (size_scan_exit rw rh Hrw Hrh (frame fo) 0 UINT_MAX None Hok)
      as [Hfound _]; [lia | unfold nframes in Hlen; lia | unfold UINT_MAX; lia |].
    rewrite (Hfound k g Hk Hz Hfirst). f_equal. }
  split.
  { intros g Hg Hw Hh.
    destruct Hsel as (k & f & Hf & Hk & Hmin).
    { intros Hnil. rewrite Hnil in Hg. inversion Hg. }
    exists f. split; [exact Hf |].
    apply list_elem_of_lookup in Hg as [j Hj].
    destruct (Hmin j g Hj) as [Hle _].
    assert (Hfok : frame_dims_ok f) by (eapply Forall_lookup_1; eauto).
    destruct (frame_distance_code rw rh Hrw Hrh f Hfok) as [_ Hb].
    assert (Hgz : frame_distance g rw rh = 0).
    { unfold frame_distance. rewrite Hw, Hh. apply overlap_distance_same. }
    assert (Hfz : frame_distance f rw rh = 0) by lia.
    split; [exact Hfz |].
    intros Hpw Hph. destruct Hfok as [Hfw Hfh].
    apply (overlap_distance_zero _ _ _ _ Hfw Hfh Hpw Hph Hfz). }
  split.
  { intros width' height' Hw' Hh'. unfold select_frame.
    rewrite Hw', Hh'. reflexivity. }
  intros Hnil stream fmt probe Hty Hfo Hfcc.
  unfold uvc_v4l2_try_format.
  rewrite Hty, Z.eqb_refl, Hfo, Hfcc, Z.eqb_refl. cbn [negb].
  unfold select_frame. rewrite Hnil. cbn.
  eexists. split; [reflexivity |]. cbn. auto.
Qed.

End FrameSizeClaim.


(** ** Privileges *)

Section Priv.
Context `{C : Collaborators}.

Lemma set_active_same (s : uvc_streaming) v : active s = v -> set_active v s = s.
Proof. intros <-. destruct s. reflexivity. Qed.

Lemma fh_eta (h : uvc_fh) : {| state := state h |} = h.
Proof. destruct h. reflexivity. Qed.

Lemma world_same (w : uvc_world) file h :
  w_files w !! file = Some h ->
  {| w_stream := w_stream w; w_files := <[file := h]> (w_files w) |} = w.
Proof. intros H. rewrite (insert_id _ _ _ H). destruct w. reflexivity. Qed.

Lemma acquire_active h s :
  state h = UVC_HANDLE_ACTIVE -> uvc_acquire_privileges h s = (0, h, s).
Proof.
  intros H. unfold uvc_acquire_privileges.
  destruct (decide (state h = UVC_HANDLE_ACTIVE)); [reflexivity | contradiction].
Qed.

Lemma acquire_free h s :
  state h = UVC_HANDLE_PASSIVE -> active s = 0 ->
  uvc_acquire_privileges h s
    = (0, {| state := UVC_HANDLE_ACTIVE |}, set_active 1 s).
Proof.
  intros H Ha. unfold uvc_acquire_privileges, atomic_inc_return.
  destruct (decide (state h = UVC_HANDLE_ACTIVE)) as [E | _]; [congruence |].
  rewrite Ha. reflexivity.
Qed.

Lemma acquire_held h s :
  state h = UVC_HANDLE_PASSIVE -> active s = 1 ->
  uvc_acquire_privileges h s = (- EBUSY, h, s).
Proof.
  intros H Ha. unfold uvc_acquire_privileges, atomic_inc_return, atomic_dec.
  destruct (decide (state h = UVC_HANDLE_ACTIVE)) as [E | _]; [congruence |].
  rewrite Ha. cbn. f_equal. destruct s; cbn in *. subst. reflexivity.
Qed.

Lemma dismiss_active h s :
  state h = UVC_HANDLE_ACTIVE -> active s = 1 ->
  uvc_dismiss_privileges h s
    = ({| state := UVC_HANDLE_PASSIVE |}, set_active 0 s).
Proof.
  intros H Ha. unfold uvc_dismiss_privileges, atomic_dec.
  destruct (decide (state h = UVC_HANDLE_ACTIVE)); [| contradiction].
  rewrite Ha. reflexivity.
Qed.

Lemma dismiss_passive h s :
  state h = UVC_HANDLE_PASSIVE -> uvc_dismiss_privileges h s = (h, s).
Proof.
  intros H. unfold uvc_dismiss_privileges.
  destruct (decide (state h = UVC_HANDLE_ACTIVE)) as [E | _]; [congruence |].
  rewrite <- H. rewrite fh_eta. reflexivity.
Qed.

Lemma state_cases (h : uvc_fh) :
  state h = UVC_HANDLE_PASSIVE \/ state h = UVC_HANDLE_ACTIVE.
Proof. destruct (state h); auto. Qed.

Lemma exclusive_holder w file h :
  exclusive w -> w_files w !! file = Some h -> state h = UVC_HANDLE_ACTIVE ->
  active (w_stream w) = 1 /\ forall file', privileged w file' -> file' = file.
Proof.
  intros [[_ Hnone] | (Ha & f & Hf & Huniq)] Hh Hs.
  - exfalso. apply (Hnone file). exists h. auto.
  - split; [exact Ha |]. intros file' Hp.
    assert (file = f) by (apply Huniq; exists h; auto).
    subst f. apply Huniq, Hp.
Qed.

Lemma exclusive_passive w file h other :
  exclusive w -> w_files w !! file = Some h -> state h = UVC_HANDLE_PASSIVE ->
  privileged w other -> active (w_stream w) = 1.
Proof.
  intros [[_ Hnone] | (Ha & _)] _ _ Hp; [| exact Ha].
  exfalso. apply (Hnone other Hp).
Qed.

(** What one call does in a world where the counter agrees with the handles. *)
Lemma priv_step_exclusive c w :
  exclusive w -> is_Some (w_files w !! call_file c) ->
  exists ret w', priv_step c w = Done (ret, w') /\ exclusive w' /\
                 dom (w_files w') = dom (w_files w).
Proof.
  intros Hex [h Hh]. destruct c as [file | file]; simpl in Hh; cbn [priv_step].
  - rewrite Hh. cbn [deref bind].
    destruct (state_cases h) as [Hs | Hs].
    + destruct Hex as [[Ha Hnone] | (Ha & f & Hf & Huniq)].
      * rewrite (acquire_free h _ Hs Ha).
        eexists _, _. split; [reflexivity |]. split.
        -- right. cbn. split; [reflexivity |]. exists file. split.
           ++ eexists. cbn. rewrite lookup_insert_eq. split; reflexivity.
           ++ intros file' (h' & Hh' & Hs'). cbn in Hh'.
              destruct (decide (file = file')) as [-> | Hne]; [reflexivity |].
              rewrite lookup_insert_ne in Hh' by exact Hne.
              exfalso. apply (Hnone file'). exists h'. auto.
        -- cbn. apply dom_insert_lookup_L. eauto.
      * rewrite (acquire_held h _ Hs Ha).
        eexists _, _. split; [reflexivity |].
        rewrite (world_same w file h Hh). split; [| reflexivity].
        right. eauto.
    + rewrite (acquire_active h _ Hs).
      eexists _, _. split; [reflexivity |].
      rewrite (world_same w file h Hh). split; [exact Hex | reflexivity].
  - rewrite Hh. cbn [deref bind].
    destruct (state_cases h) as [Hs | Hs].
    + rewrite (dismiss_passive h _ Hs).
      eexists _, _. split; [reflexivity |].
      rewrite (world_same w file h Hh). split; [exact Hex | reflexivity].
    + destruct (exclusive_holder w file h Hex Hh Hs) as [Ha Huniq].
      rewrite (dismiss_active h _ Hs Ha).
      eexists _, _. split; [reflexivity |]. split.
      * left. cbn. split; [reflexivity |].
        intros file' (h' & Hh' & Hs'). cbn in Hh'.
        destruct (decide (file = file')) as [-> | Hne].
        -- rewrite lookup_insert_eq in Hh'. inversion Hh'; subst h'.
           discriminate.
        -- rewrite lookup_insert_ne in Hh' by exact Hne.
           apply Hne. symmetry. apply Huniq. exists h'. auto.
      * cbn. apply dom_insert_lookup_L. eauto.
Qed.

Lemma priv_run_exclusive calls : forall w,
  exclusive w ->
  (forall c, c ∈ calls -> is_Some (w_files w !! call_file c)) ->
  exists w', priv_run calls w = Done w' /\ exclusive w' /\
             dom (w_files w') = dom (w_files w).
Proof.
  induction calls as [| c calls IH]; intros w Hex Hopen.
  - exists w. simpl. auto.
  - destruct (priv_step_exclusive c w Hex) as (ret & w1 & Hstep & Hex1 & Hdom).
    { apply Hopen. left. }
    cbn [priv_run]. rewrite Hstep. cbn [bind snd].
    destruct (IH w1 Hex1) as (w' & Hrun & Hex' & Hdom').
    { intros c' Hc'. apply elem_of_dom. rewrite Hdom. apply elem_of_dom.
      apply Hopen. right. exact Hc'. }
    exists w'. split; [exact Hrun |]. split; [exact Hex' |]. congruence.
Qed.

(** C1. From a world in which the counter agrees with the handles, any
    sequence of acquire and dismiss calls by open files runs to a world where
    [active] is 0 or 1 and at most one file is privileged. There, acquiring
    with a privileged handle returns 0 and changes nothing; acquiring with an
    unprivileged handle while another file is privileged returns [-EBUSY] and
    changes nothing: the increment (to 2) is undone by the decrement, and the
    caller stays passive. *)
Theorem privilege_exclusive (w0 : uvc_world) (calls : list priv_call) :
  exclusive w0 ->
  (forall c, c ∈ calls -> is_Some (w_files w0 !! call_file c)) ->
  exists w,
    priv_run calls w0 = Done w /\
    (active (w_stream w) = 0 \/ active (w_stream w) = 1) /\
    (forall f1 f2, privileged w f1 -> privileged w f2 -> f1 = f2) /\
    (forall file h, w_files w !! file = Some h ->
       state h = UVC_HANDLE_ACTIVE ->
       priv_step (AcquirePrivilege file) w = Done (0, w)) /\
    (forall file h other, w_files w !! file = Some h ->
       state h = UVC_HANDLE_PASSIVE -> privileged w other ->
       priv_step (AcquirePrivilege file) w = Done (- EBUSY, w) /\
       fst (atomic_inc_return (w_stream w)) = 2 /\
       atomic_dec (snd (atomic_inc_return (w_stream w))) = w_stream w).
Proof.
  intros Hex Hopen.
  destruct (priv_run_exclusive calls w0 Hex Hopen) as (w & Hrun & Hexw & _).
  exists w. split; [exact Hrun |].
  split.
  { destruct Hexw as [[Ha _] | [Ha _]]; auto. }
  split.
  { intros f1 f2 H1 H2.
    destruct Hexw as [[_ Hnone] | (_ & f & _ & Huniq)].
    - exfalso. apply (Hnone f1 H1).
    - rewrite (Huniq f1 H1), (Huniq f2 H2). reflexivity. }
  split.
  { intros file h Hh Hs. cbn [priv_step]. rewrite Hh. cbn [deref bind].
    rewrite (acquire_active h _ Hs). rewrite (world_same w file h Hh).
    reflexivity. }
  intros file h other Hh Hs Hp.
  pose proof (exclusive_passive w file h other Hexw Hh Hs Hp) as Ha.
  split.
  - cbn [priv_step]. rewrite Hh. cbn [deref bind].
    rewrite (acquire_held h _ Hs Ha). rewrite (world_same w file h Hh).
    reflexivity.
  - unfold atomic_dec, atomic_inc_return.
    destruct (w_stream w); cbn in *. subst. split; reflexivity.
Qed.


Lemma release_spec w file h :
  exclusive w -> w_files w !! file = Some h ->
  exists w',
    uvc_v4l2_release file w = Done (0, w') /\
    w_files w' = delete file (w_files w) /\
    active (w_stream w')
      = (if uvc_has_privileges h then 0 else active (w_stream w)) /\
    exclusive w'.
Proof.
  intros Hex Hh. unfold uvc_v4l2_release. rewrite Hh. cbn [deref bind].
  destruct (state_cases h) as [Hs | Hs].
  - assert (Hp : uvc_has_privileges h = false).
    { unfold uvc_has_privileges. apply bool_decide_eq_false. congruence. }
    rewrite Hp, (dismiss_passive h _ Hs).
    eexists. split; [reflexivity |]. cbn [w_files w_stream].
    split; [reflexivity |].
    assert (Hact : forall b (s0 : uvc_streaming),
              active (set_dev (usb_autopm_put_interface
                                 (dev (if b : bool
                                       then set_dev (uvc_status_stop (dev s0)) s0
                                       else s0)))
                        (if b then set_dev (uvc_status_stop (dev s0)) s0
                         else s0)) = active s0).
    { intros b s0. destruct b; reflexivity. }
    unfold exclusive. cbn [w_stream]. rewrite !Hact. cbn [active set_users].
    split; [reflexivity |].
    destruct Hex as [[Ha Hnone] | (Ha & f & Hf & Huniq)].
    + left. split; [exact Ha |].
      intros file' (h' & Hh' & Hs'). cbn in Hh'.
      apply lookup_delete_Some in Hh' as [_ Hh'].
      apply (Hnone file'). exists h'. auto.
    + right. split; [exact Ha |].
      exists f. split.
      * destruct Hf as (hf & Hhf & Hsf). exists hf. cbn. split; [| exact Hsf].
        apply lookup_delete_Some. split; [| exact Hhf].
        intros ->. congruence.
      * intros file' (h' & Hh' & Hs'). cbn in Hh'.
        apply lookup_delete_Some in Hh' as [_ Hh'].
        apply Huniq. exists h'. auto.
  - destruct (exclusive_holder w file h Hex Hh Hs) as [Ha Huniq].
    assert (Hp : uvc_has_privileges h = true).
    { unfold uvc_has_privileges. apply bool_decide_eq_true. exact Hs. }
    rewrite Hp.
    destruct (uvc_video_enable (dev (w_stream w)) (queue (w_stream w)) 0)
      as [[r1 d1] q1].
    destruct (uvc_free_buffers
                (queue (set_queue q1 (set_dev d1 (w_stream w))))) as [r2 q2].
    destruct (uvc_free_buffers
                (still_queue
                   (set_queue q2 (set_queue q1 (set_dev d1 (w_stream w))))))
      as [r3 q3].
    rewrite (dismiss_active h _ Hs) by exact Ha.
    eexists. split; [reflexivity |]. cbn [w_files w_stream].
    split; [reflexivity |].
    assert (Hact : forall b (s0 : uvc_streaming),
              active (set_dev (usb_autopm_put_interface
                                 (dev (if b : bool
                                       then set_dev (uvc_status_stop (dev s0)) s0
                                       else s0)))
                        (if b then set_dev (uvc_status_stop (dev s0)) s0
                         else s0)) = active s0).
    { intros b s0. destruct b; reflexivity. }
    unfold exclusive. cbn [w_stream]. rewrite !Hact. cbn [active set_users set_active].
    split; [reflexivity |].
    left. split; [reflexivity |].
    intros file' (h' & Hh' & Hs'). cbn in Hh'.
    apply lookup_delete_Some in Hh' as [Hne Hh'].
    apply Hne. symmetry. apply Huniq. exists h'. auto.
Qed.

(** C7. Closing an open file in any privilege state returns 0, removes its
    handle only, and leaves the counter in agreement with the remaining
    handles: unchanged when the closed handle was passive, back to 0 when it
    was privileged. In that case an acquisition by another open file, which
    failed with [-EBUSY] before the close, succeeds after it. *)
Theorem release_dismisses_privileges (w : uvc_world) (file : nat)
    (h : uvc_fh) :
  exclusive w -> w_files w !! file = Some h ->
  exists w',
    uvc_v4l2_release file w = Done (0, w') /\
    w_files w' = delete file (w_files w) /\
    exclusive w' /\
    (state h = UVC_HANDLE_PASSIVE ->
       active (w_stream w') = active (w_stream w)) /\
    (state h = UVC_HANDLE_ACTIVE ->
       active (w_stream w') = 0 /\
       forall other ho,
         other <> file -> w_files w !! other = Some ho ->
         priv_step (AcquirePrivilege other) w = Done (- EBUSY, w) /\
         exists w'',
           priv_step (AcquirePrivilege other) w' = Done (0, w'') /\
           privileged w'' other /\ exclusive w'').
Proof.
  intros Hex Hh.
  destruct (release_spec w file h Hex Hh) as (w' & Hrel & Hfiles & Hact & Hex').
  exists w'. split; [exact Hrel |]. split; [exact Hfiles |].
  split; [exact Hex' |]. split.
  - intros Hs. rewrite Hact. unfold uvc_has_privileges.
    rewrite bool_decide_eq_false_2 by congruence. reflexivity.
  - intros Hs.
    assert (Hact0 : active (w_stream w') = 0).
    { rewrite Hact. unfold uvc_has_privileges.
      rewrite bool_decide_eq_true_2 by exact Hs. reflexivity. }
    destruct (exclusive_holder w file h Hex Hh Hs) as [Ha Huniq].
    split; [exact Hact0 |].
    intros other ho Hne Hho.
    assert (Hso : state ho = UVC_HANDLE_PASSIVE).
    { destruct (state_cases ho) as [? | Hso]; [assumption |].
      exfalso. apply Hne. apply Huniq. exists ho. auto. }
    split.
    + cbn [priv_step]. rewrite Hho. cbn [deref bind].
      rewrite (acquire_held ho _ Hso Ha), (world_same w other ho Hho).
      reflexivity.
    + assert (Hho' : w_files w' !! other = Some ho).
      { rewrite Hfiles. apply lookup_delete_Some. auto. }
      destruct (priv_step_exclusive (AcquirePrivilege other) w' Hex')
        as (ret & w'' & Hstep & Hex'' & _).
      { simpl. eauto. }
      cbn [priv_step] in Hstep |- *. rewrite Hho' in Hstep |- *.
      cbn [deref bind] in Hstep |- *.
      rewrite (acquire_free ho _ Hso Hact0) in Hstep |- *.
      inversion Hstep; subst ret w''.
      eexists. split; [reflexivity |]. split; [| exact Hex''].
      eexists. cbn. rewrite lookup_insert_eq. split; reflexivity.
Qed.

(** Buffer operations *)

(** C8. For a passive handle and a buffer without the still tag, QBUF and
    DQBUF return [-EBUSY], and so does QUERYBUF for a buffer of the stream's
    type (a buffer of another type is refused with [-EINVAL]), all leaving
    the world (handle, counter, queues) as it was. For
    a buffer with the still tag the three requests go to the still queue
    whatever the state of the handle, which they leave as it is. *)
Theorem main_queue_needs_privilege (w : uvc_world) (file : nat) (h : uvc_fh)
    (nonblock : bool) (buf : v4l2_buffer) :
  w_files w !! file = Some h ->
  (state h = UVC_HANDLE_PASSIVE -> IS_STILL_BUF buf = false ->
     uvc_v4l2_do_ioctl file nonblock (VIDIOC_QBUF buf) w
       = Done (- EBUSY, VIDIOC_QBUF buf, w) /\
     uvc_v4l2_do_ioctl file nonblock (VIDIOC_DQBUF buf) w
       = Done (- EBUSY, VIDIOC_DQBUF buf, w) /\
     (buf_type buf = type (w_stream w) ->
        uvc_v4l2_do_ioctl file nonblock (VIDIOC_QUERYBUF buf) w
          = Done (- EBUSY, VIDIOC_QUERYBUF buf, w)) /\
     (buf_type buf <> type (w_stream w) ->
        uvc_v4l2_do_ioctl file nonblock (VIDIOC_QUERYBUF buf) w
          = Done (- EINVAL, VIDIOC_QUERYBUF buf, w))) /\
  (IS_STILL_BUF buf = true ->
     uvc_v4l2_do_ioctl file nonblock (VIDIOC_QUERYBUF buf) w
       = (let '(ret, buf') := uvc_query_buffer (still_queue (w_stream w)) buf in
          Done (ret, VIDIOC_QUERYBUF buf', w)) /\
     uvc_v4l2_do_ioctl file nonblock (VIDIOC_QBUF buf) w
       = (let '(ret, q, buf') :=
            uvc_queue_buffer (still_queue (w_stream w)) (set_buf_flags 0 buf) in
          Done (if ret <? 0 then - ENOMEM else ret, VIDIOC_QBUF buf',
                {| w_stream := set_still_queue q (w_stream w);
                   w_files := w_files w |})) /\
     uvc_v4l2_do_ioctl file nonblock (VIDIOC_DQBUF buf) w
       = (let '(ret, d) := uvc_trigger_still (dev (w_stream w)) in
          if ret <? 0 then
            Done (ret, VIDIOC_DQBUF buf,
                  {| w_stream := set_dev d (w_stream w);
                     w_files := w_files w |})
          else
            let '(ret, q, buf') :=
              uvc_dequeue_buffer (still_queue (w_stream w)) buf nonblock in
            Done (ret, VIDIOC_DQBUF buf',
                  {| w_stream :=
                       set_still_queue q
                         (set_still_waiting_frame 1
                            (set_dev d (w_stream w)));
                     w_files := w_files w |}))).
Proof.
  intros Hh. split.
  - intros Hs Hstill.
    assert (Hp : uvc_has_privileges h = false).
    { unfold uvc_has_privileges. apply bool_decide_eq_false. congruence. }
    unfold uvc_v4l2_do_ioctl. rewrite Hh. cbn [deref bind].
    rewrite Hstill, Hp. cbn [negb]. rewrite (world_same w file h Hh).
    split; [reflexivity |]. split; [reflexivity |]. split.
    + intros Hty. rewrite Hty, Z.eqb_refl. reflexivity.
    + intros Hty.
      destruct (Z.eqb_spec (buf_type buf) (type (w_stream w)));
        [contradiction | reflexivity].
  - intros Hstill.
    unfold uvc_v4l2_do_ioctl. rewrite Hh. cbn [deref bind].
    rewrite Hstill, (insert_id _ _ _ Hh).
    split; [| split].
    + destruct (uvc_query_buffer (still_queue (w_stream w)) buf) as [ret buf'].
      rewrite <- (insert_id _ _ _ Hh) at 1.
      rewrite (world_same w file h Hh). reflexivity.
    + destruct (uvc_queue_buffer (still_queue (w_stream w))
                  (set_buf_flags 0 buf)) as [[ret q] buf'].
      destruct (ret <? 0); reflexivity.
    + destruct (uvc_trigger_still (dev (w_stream w))) as [ret d].
      destruct (ret <? 0); [reflexivity |].
      cbn [still_queue set_still_waiting_frame set_dev].
      destruct (uvc_dequeue_buffer (still_queue (w_stream w)) buf nonblock)
        as [[ret' q] buf'].
      reflexivity.
Qed.

(** While another file is privileged, S_FMT on the main pipeline by a passive
    handle is refused before any negotiation. *)
Lemma set_format_blocked (w : uvc_world) (file other : nat) (h : uvc_fh)
    (nonblock : bool) (fmt : v4l2_format) :
  exclusive w -> w_files w !! file = Some h ->
  state h = UVC_HANDLE_PASSIVE -> privileged w other ->
  IS_STILL_MAGIC (pix_priv (fmt_pix fmt)) = false ->
  uvc_v4l2_do_ioctl file nonblock (VIDIOC_S_FMT fmt) w
    = Done (- EBUSY, VIDIOC_S_FMT fmt, w).
Proof.
  intros Hex Hh Hs Hp Hmagic.
  pose proof (exclusive_passive w file h other Hex Hh Hs Hp) as Ha.
  unfold uvc_v4l2_do_ioctl. rewrite Hh. cbn [deref bind].
  rewrite Hmagic, (acquire_held h _ Hs Ha).
  change (- EBUSY <? 0) with true. cbv iota.
  rewrite (world_same w file h Hh). reflexivity.
Qed.

End Priv.

(** ** Negotiation and commit *)

Section Negotiation.
Context `{C : Collaborators}.

Lemma set_dev_same (s : uvc_streaming) : set_dev (dev s) s = s.
Proof. destruct s. reflexivity. Qed.

Lemma try_format_done stream fmt probe t :
  uvc_v4l2_try_format stream fmt probe = Done t ->
  (exists d, tf_stream t = set_dev d stream) /\
  ((tf_ret t < 0 /\ tf_fmt t = fmt /\
    tf_format t = None /\ tf_frame t = None) \/
   (0 <= tf_ret t /\
    exists fo fr cand,
      fmt_type fmt = type stream /\
      find_format (format stream) (pix_pixelformat (fmt_pix fmt)) None
        = Some fo /\
      fcc fo = pix_pixelformat (fmt_pix fmt) /\
      select_frame fo (pix_width (fmt_pix fmt)) (pix_height (fmt_pix fmt))
        = Some fr /\
      uvc_probe_video (dev stream) cand
        = (tf_ret t, tf_probe t, dev (tf_stream t)) /\
      tf_format t = Some fo /\ tf_frame t = Some fr /\
      tf_fmt t = negotiated_fmt fmt fo fr (tf_probe t))).
Proof.
  unfold uvc_v4l2_try_format. intros H.
  destruct (Z.eqb_spec (fmt_type fmt) (type stream)) as [Hty | Hty];
    cbn [negb] in H.
  2:{ inversion H; subst t; cbn. split.
      - exists (dev stream). symmetry. apply set_dev_same.
      - left. unfold EINVAL. repeat split; lia. }
  destruct (find_format (format stream) (pix_pixelformat (fmt_pix fmt)) None)
    as [fo |] eqn:Hfo.
  2:{ inversion H; subst t; cbn. split.
      - exists (dev stream). symmetry. apply set_dev_same.
      - left. unfold EINVAL. repeat split; lia. }
  destruct (Z.eqb_spec (fcc fo) (pix_pixelformat (fmt_pix fmt))) as [Hfcc | Hfcc];
    cbn [negb] in H.
  2:{ inversion H; subst t; cbn. split.
      - exists (dev stream). symmetry. apply set_dev_same.
      - left. unfold EINVAL. repeat split; lia. }
  destruct (select_frame fo (pix_width (fmt_pix fmt))
              (pix_height (fmt_pix fmt))) as [fr |] eqn:Hfr.
  2:{ inversion H; subst t; cbn. split.
      - exists (dev stream). symmetry. apply set_dev_same.
      - left. unfold EINVAL. repeat split; lia. }
  destruct (uvc_try_frame_interval (Some fr) (dwDefaultFrameInterval fr))
    as [fi | ?] eqn:Hfi; cbn [bind] in H; [| discriminate].
  match type of H with
  | context [uvc_probe_video _ ?c] => set (cand := c) in H
  end.
  destruct (uvc_probe_video (dev stream) cand) as [[ret probe'] d] eqn:Hprobe.
  destruct (Z.ltb_spec ret 0) as [Hneg | Hpos].
  - inversion H; subst t; cbn. split; [eauto |].
    left. repeat split; lia.
  - inversion H; subst t; cbn. split; [eauto |].
    right. split; [exact Hpos |].
    exists fo, fr, cand. repeat split; auto.
Qed.


Lemma find_format_in formats pixelformat : forall init fo,
  find_format formats pixelformat init = Some fo ->
  init = Some fo \/ fo ∈ formats.
Proof.
  induction formats as [| f rest IH]; intros init fo H; simpl in H.
  - left. exact H.
  - destruct (fcc f =? pixelformat).
    + inversion H; subst. right. left.
    + destruct (IH _ _ H) as [Hi | Hi].
      * inversion Hi; subst. right. left.
      * right. right. exact Hi.
Qed.

Lemma size_scan_in frames rw rh : forall i maxd frame fr,
  snd (size_scan frames rw rh i maxd frame) = Some fr ->
  frame = Some fr \/ fr ∈ frames.
Proof.
  induction frames as [| f rest IH]; intros i maxd frame fr H; simpl in H.
  - left. exact H.
  - destruct (size_dist (wWidth f) (wHeight f) rw rh <? maxd).
    + destruct (size_dist (wWidth f) (wHeight f) rw rh =? 0).
      * simpl in H. inversion H; subst. right. left.
      * destruct (IH _ _ _ _ H) as [Hi | Hi].
        -- inversion Hi; subst. right. left.
        -- right. right. exact Hi.
    + destruct (maxd =? 0).
      * simpl in H. left. exact H.
      * destruct (IH _ _ _ _ H) as [Hi | Hi]; [left | right; right]; exact Hi.
Qed.

Lemma select_frame_in fo width height fr :
  select_frame fo width height = Some fr -> fr ∈ frame fo.
Proof.
  unfold select_frame. intros H.
  destruct (size_scan_in _ _ _ _ _ _ _ H) as [Hi | Hi];
    [discriminate | exact Hi].
Qed.

Lemma idx_triple {A : Type} (a b c : A) (rest : list A) :
  idx (a :: b :: c :: rest) 0 = Done a /\
  idx (a :: b :: c :: rest) 1 = Done b /\
  idx (a :: b :: c :: rest) 2 = Done c.
Proof. repeat split; reflexivity. Qed.

Lemma try_frame_interval_stepwise f min max step rest interval :
  bFrameIntervalType f = 0 ->
  dwFrameInterval f = min :: max :: step :: rest -> step <> 0 ->
  uvc_try_frame_interval (Some f) interval
    = Done (let v := u32 (min + u32 (u32 (u32 (interval - min) + step / 2)
                                       / step * step)) in
            if v >? max then max else v).
Proof.
  intros Hty Htbl Hstep. unfold uvc_try_frame_interval. cbn [deref bind].
  rewrite Hty, Htbl. cbn [Z.eqb negb].
  destruct (idx_triple min max step rest) as (-> & -> & ->). cbn [bind].
  unfold udiv.
  destruct (Z.eqb_spec step 0); [contradiction |]. reflexivity.
Qed.

Lemma try_frame_interval_total f interval :
  frame_ok f -> is_u32 interval ->
  exists v, uvc_try_frame_interval (Some f) interval = Done v.
Proof.
  intros (_ & _ & [Hd | (Hty & min & max & step & rest & Htbl & Hstep)]) Hi.
  - destruct (interval_discrete_spec f interval Hd Hi) as (k & v & Hv & _).
    eauto.
  - rewrite (try_frame_interval_stepwise f min max step rest interval);
      eauto.
Qed.

Lemma try_format_total stream fmt probe :
  Forall format_ok (format stream) ->
  exists t, uvc_v4l2_try_format stream fmt probe = Done t.
Proof.
  intros Htbl. unfold uvc_v4l2_try_format.
  destruct (negb (fmt_type fmt =? type stream)); [eauto |].
  destruct (find_format (format stream) (pix_pixelformat (fmt_pix fmt)) None)
    as [fo |] eqn:Hfo; [| eauto].
  destruct (negb (fcc fo =? pix_pixelformat (fmt_pix fmt))); [eauto |].
  destruct (select_frame fo (pix_width (fmt_pix fmt))
              (pix_height (fmt_pix fmt))) as [fr |] eqn:Hfr; [| eauto].
  assert (Hfo_in : fo ∈ format stream).
  { destruct (find_format_in _ _ _ _ Hfo); [discriminate | assumption]. }
  assert (Hfr_ok : frame_ok fr).
  { rewrite Forall_forall in Htbl. destruct (Htbl fo Hfo_in) as [Hfrs _].
    rewrite Forall_forall in Hfrs. apply Hfrs.
    eapply select_frame_in; eauto. }
  destruct (try_frame_interval_total fr (dwDefaultFrameInterval fr) Hfr_ok)
    as [fi Hfi].
  { apply Hfr_ok. }
  rewrite Hfi. cbn [bind].
  match goal with
  | |- context [uvc_probe_video ?d ?c] =>
      destruct (uvc_probe_video d c) as [[ret probe'] d']
  end.
  destruct (ret <? 0); eauto.
Qed.

(** [format->bpp * frame->wWidth / 8] in exact arithmetic. *)
Lemma bytesperline_exact b w :
  is_u8 b -> is_u16 w -> u32 (Z.quot (s32 (b * w)) 8) = b * w / 8.
Proof.
  unfold is_u8, is_u16. intros Hb Hw.
  change (2 ^ 8) with 256 in Hb. change (2 ^ 16) with 65536 in Hw.
  assert (0 <= b * w < 2 ^ 24) by (change (2 ^ 24) with 16777216; nia).
  rewrite s32_id by (change (2 ^ 31) with 2147483648;
                     change (2 ^ 24) with 16777216 in *; lia).
  rewrite Z.quot_div_nonneg by lia.
  apply u32_id. unfold is_u32.
  split; [apply Z.div_pos; lia |].
  apply Z.div_lt_upper_bound; [lia |].
  change (2 ^ 32) with 4294967296. change (2 ^ 24) with 16777216 in *. lia.
Qed.

(** C10. When [uvc_v4l2_try_format] returns an error the descriptor is as
    the caller supplied it. When it succeeds, width and height are those of
    the selected frame, sizeimage is the [dwMaxVideoFrameSize] the probe
    returned, bytesperline is [bpp * wWidth / 8], and colorspace is that of
    the matched format. A successful [uvc_v4l2_set_format] hands back the
    descriptor of its successful [uvc_v4l2_try_format]. On well-formed tables
    [uvc_v4l2_try_format] returns. *)
Theorem try_format_descriptor (stream : uvc_streaming) (fmt : v4l2_format)
    (probe : uvc_streaming_control) :
  (forall t, uvc_v4l2_try_format stream fmt probe = Done t ->
     (tf_ret t < 0 -> tf_fmt t = fmt) /\
     (0 <= tf_ret t ->
        exists fo fr cand,
          find_format (format stream) (pix_pixelformat (fmt_pix fmt)) None
            = Some fo /\
          fcc fo = pix_pixelformat (fmt_pix fmt) /\
          select_frame fo (pix_width (fmt_pix fmt))
            (pix_height (fmt_pix fmt)) = Some fr /\
          uvc_probe_video (dev stream) cand
            = (tf_ret t, tf_probe t, dev (tf_stream t)) /\
          pix_width (fmt_pix (tf_fmt t)) = wWidth fr /\
          pix_height (fmt_pix (tf_fmt t)) = wHeight fr /\
          pix_sizeimage (fmt_pix (tf_fmt t))
            = dwMaxVideoFrameSize (tf_probe t) /\
          pix_bytesperline (fmt_pix (tf_fmt t))
            = u32 (Z.quot (s32 (bpp fo * wWidth fr)) 8) /\
          (is_u8 (bpp fo) -> is_u16 (wWidth fr) ->
             pix_bytesperline (fmt_pix (tf_fmt t))
               = bpp fo * wWidth fr / 8) /\
          pix_colorspace (fmt_pix (tf_fmt t)) = colorspace fo)) /\
  (forall ret stream' fmt',
     uvc_v4l2_set_format stream fmt = Done (ret, stream', fmt') ->
     0 <= ret ->
     exists t, uvc_v4l2_try_format stream fmt zero_ctrl = Done t /\
               0 <= tf_ret t /\ fmt' = tf_fmt t) /\
  (Forall format_ok (format stream) ->
     exists t, uvc_v4l2_try_format stream fmt probe = Done t).
Proof.
  split; [| split].
  - intros t Ht.
    destruct (try_format_done stream fmt probe t Ht)
      as [_ [(Hneg & Hfmt & _) | (Hpos & fo & fr & cand & Hok)]].
    + split; [intros _; exact Hfmt | lia].
    + split; [lia |]. intros _.
      destruct Hok as (_ & Hfo & Hfcc & Hfr & Hprobe & _ & _ & Hfmt).
      exists fo, fr, cand. rewrite Hfmt. cbn.
      repeat split; auto.
      intros Hb Hw. apply bytesperline_exact; assumption.
  - intros ret stream' fmt' Hset Hret. unfold uvc_v4l2_set_format in Hset.
    destruct (negb (fmt_type fmt =? type stream)).
    { inversion Hset; subst. unfold EINVAL in Hret. lia. }
    destruct (uvc_v4l2_try_format stream fmt zero_ctrl) as [t | ?] eqn:Ht;
      cbn [bind] in Hset; [| discriminate].
    exists t. split; [reflexivity |].
    destruct (Z.ltb_spec (tf_ret t) 0).
    { inversion Hset; subst. lia. }
    destruct (uvc_queue_allocated (queue (tf_stream t))).
    { inversion Hset; subst. unfold EBUSY in Hret. lia. }
    inversion Hset; subst. auto.
  - apply try_format_total.
Qed.

Lemma set_format_cases stream fmt ret stream' fmt' :
  uvc_v4l2_set_format stream fmt = Done (ret, stream', fmt') ->
  (ret < 0 /\ main_config stream' = main_config stream /\
   (ret = - EBUSY \/
    fmt_type fmt <> type stream \/
    exists t, uvc_v4l2_try_format stream fmt zero_ctrl = Done t /\
              tf_ret t = ret)) \/
  (0 <= ret /\ uvc_queue_allocated (queue stream) = false /\
   exists t, uvc_v4l2_try_format stream fmt zero_ctrl = Done t /\
             tf_ret t = ret /\
             main_config stream' = (tf_probe t, tf_format t, tf_frame t)).
Proof.
  unfold uvc_v4l2_set_format. intros H.
  destruct (Z.eqb_spec (fmt_type fmt) (type stream)) as [Hty | Hty];
    cbn [negb] in H.
  2:{ inversion H; subst. left. unfold EINVAL. split; [lia |]. auto. }
  destruct (uvc_v4l2_try_format stream fmt zero_ctrl) as [t | ?] eqn:Ht;
    cbn [bind] in H; [| discriminate].
  destruct (try_format_done stream fmt zero_ctrl t Ht) as [[d Hd] _].
  destruct (Z.ltb_spec (tf_ret t) 0) as [Hneg | Hpos].
  { inversion H; subst. left. split; [lia |]. rewrite Hd.
    split; [reflexivity |]. right. right. eauto. }
  rewrite Hd in H. cbn [queue set_dev] in H.
  destruct (uvc_queue_allocated (queue stream)) eqn:Hq.
  { inversion H; subst. left. unfold EBUSY. split; [lia |].
    split; [reflexivity | left; reflexivity]. }
  inversion H; subst. right. split; [lia |]. split; [reflexivity |].
  exists t. repeat split; auto.
Qed.

Lemma set_streamparm_error stream parm ret stream' parm' :
  uvc_v4l2_set_streamparm stream parm = Done (ret, stream', parm') ->
  ret < 0 -> main_config stream' = main_config stream.
Proof.
  unfold uvc_v4l2_set_streamparm. intros H Hret.
  destruct (negb (parm_type parm =? type stream)).
  { inversion H; subst. reflexivity. }
  destruct (uvc_queue_streaming (queue stream)).
  { inversion H; subst. reflexivity. }
  destruct (uvc_try_frame_interval (cur_frame stream) _) as [fi | ?];
    cbn [bind] in H; [| discriminate].
  destruct (uvc_probe_video (dev stream) (set_dwFrameInterval fi (ctrl stream)))
    as [[r probe'] d].
  destruct (Z.ltb_spec r 0).
  { inversion H; subst. reflexivity. }
  destruct (uvc_simplify_fraction _ _ _ _) as [n dn].
  inversion H; subst. lia.
Qed.

Lemma set_streamparm_total stream parm fr :
  cur_frame stream = Some fr -> frame_ok fr ->
  is_u32 (uvc_fraction_to_interval (timeperframe_numerator parm)
            (timeperframe_denominator parm)) ->
  exists r, uvc_v4l2_set_streamparm stream parm = Done r.
Proof.
  intros Hfr Hok Hi. unfold uvc_v4l2_set_streamparm.
  destruct (negb (parm_type parm =? type stream)); [eauto |].
  destruct (uvc_queue_streaming (queue stream)); [eauto |].
  rewrite Hfr.
  destruct (try_frame_interval_total fr _ Hok Hi) as [fi ->]. cbn [bind].
  destruct (uvc_probe_video (dev stream) (set_dwFrameInterval fi (ctrl stream)))
    as [[r probe'] d].
  destruct (r <? 0); [eauto |].
  destruct (uvc_simplify_fraction _ _ _ _) as [n dn]. eauto.
Qed.

(** Without a committed frame the call gets past its guards and
    dereferences [cur_frame]. *)
Lemma set_streamparm_no_frame stream parm :
  parm_type parm = type stream ->
  uvc_queue_streaming (queue stream) = false ->
  cur_frame stream = None ->
  uvc_v4l2_set_streamparm stream parm = Oops NullDeref.
Proof.
  intros Hty Hq Hfr. unfold uvc_v4l2_set_streamparm.
  rewrite Hty, Z.eqb_refl, Hq, Hfr. reflexivity.
Qed.

Lemma set_format_returns stream fmt ret stream' fmt' :
  uvc_v4l2_set_format stream fmt = Done (ret, stream', fmt') ->
  forall t,
    uvc_v4l2_try_format stream fmt zero_ctrl = Done t ->
    (tf_ret t < 0 -> ret = tf_ret t) /\
    (0 <= tf_ret t ->
     ret = if uvc_queue_allocated (queue stream) then - EBUSY else tf_ret t).
Proof.
  intros H t Ht.
  destruct (try_format_done _ _ _ _ Ht) as [[d Hd] Hcases].
  unfold uvc_v4l2_set_format in H.
  destruct (Z.eqb_spec (fmt_type fmt) (type stream)) as [Hty | Hty];
    cbn [negb] in H.
  - rewrite Ht in H. cbn [bind] in H. rewrite Hd in H. cbn [queue set_dev] in H.
    destruct (Z.ltb_spec (tf_ret t) 0).
    + inversion H; subst. split; [reflexivity | lia].
    + split; [lia |]. intros _.
      destruct (uvc_queue_allocated (queue stream));
        inversion H; subst; reflexivity.
  - inversion H; subst ret stream' fmt'.
    unfold uvc_v4l2_try_format in Ht.
    destruct (Z.eqb_spec (fmt_type fmt) (type stream)); [contradiction |].
    cbn [negb] in Ht. inversion Ht; subst t. cbn [tf_ret].
    split; [reflexivity | unfold EINVAL; lia].
Qed.

(** C2, amended. [uvc_v4l2_set_format] commits only when the negotiation
    succeeded and the main queue has no buffers. With buffers allocated it
    always fails and commits nothing: with [-EBUSY] when the negotiation
    succeeded, with the error of the negotiation otherwise; in general the
    value returned is the error of the negotiation when it failed, whatever
    the queue, and else [-EBUSY] or the value of the negotiation according
    to the queue. Whenever
    [uvc_v4l2_set_format] or [uvc_v4l2_set_streamparm] returns an error, the
    committed configuration is the one before the call. On well-formed tables
    [uvc_v4l2_set_format] returns, and so does [uvc_v4l2_set_streamparm] when
    a well-formed frame is committed. *)
Theorem set_format_commit (stream : uvc_streaming) (fmt : v4l2_format) :
  (forall ret stream' fmt',
     uvc_v4l2_set_format stream fmt = Done (ret, stream', fmt') ->
     (ret < 0 -> main_config stream' = main_config stream) /\
     (uvc_queue_allocated (queue stream) = true ->
        ret < 0 /\ main_config stream' = main_config stream /\
        ((exists t, uvc_v4l2_try_format stream fmt zero_ctrl = Done t /\
                    0 <= tf_ret t) ->
         ret = - EBUSY)) /\
     (0 <= ret ->
        uvc_queue_allocated (queue stream) = false /\
        exists t, uvc_v4l2_try_format stream fmt zero_ctrl = Done t /\
                  tf_ret t = ret /\
                  main_config stream' = (tf_probe t, tf_format t, tf_frame t)) /\
     (forall t,
        uvc_v4l2_try_format stream fmt zero_ctrl = Done t ->
        (tf_ret t < 0 -> ret = tf_ret t) /\
        (0 <= tf_ret t ->
         ret = if uvc_queue_allocated (queue stream) then - EBUSY
               else tf_ret t))) /\
  (forall parm ret stream' parm',
     uvc_v4l2_set_streamparm stream parm = Done (ret, stream', parm') ->
     ret < 0 -> main_config stream' = main_config stream) /\
  (Forall format_ok (format stream) ->
     exists r, uvc_v4l2_set_format stream fmt = Done r) /\
  (forall parm fr,
     cur_frame stream = Some fr -> frame_ok fr ->
     is_u32 (uvc_fraction_to_interval (timeperframe_numerator parm)
               (timeperframe_denominator parm)) ->
     exists r, uvc_v4l2_set_streamparm stream parm = Done r).
Proof.
  split; [| split; [| split]].
  - intros ret stream' fmt' H.
    destruct (set_format_cases stream fmt ret stream' fmt' H)
      as [(Hneg & Hcfg & Hwhy) | (Hpos & Hq & Ht)].
    + split; [auto |]. split; [| split; [lia |]].
      intros Hq. split; [exact Hneg |]. split; [exact Hcfg |].
      intros (t & Ht & Hpos).
      destruct Hwhy as [? | [Hty | (t' & Ht' & Hret)]]; [assumption | |].
      * destruct (try_format_done stream fmt zero_ctrl t Ht)
          as [_ [(? & _) | (_ & fo & fr & cand & Hty' & _)]];
          [lia | contradiction].
      * rewrite Ht in Ht'. inversion Ht'; subst t'. lia.
      * eapply set_format_returns; exact H.
    + split; [lia |]. split; [congruence |].
      split; [auto | eapply set_format_returns; exact H].
  - intros parm ret stream' parm'. apply set_streamparm_error.
  - intros Htbl. unfold uvc_v4l2_set_format.
    destruct (negb (fmt_type fmt =? type stream)); [eauto |].
    destruct (try_format_total stream fmt zero_ctrl Htbl) as [t ->].
    cbn [bind].
    destruct (tf_ret t <? 0); [eauto |].
    destruct (uvc_queue_allocated (queue (tf_stream t))); eauto.
  - intros parm fr. apply set_streamparm_total.
Qed.

(** Still pipeline *)

Lemma try_format_still_stream stream fmt probe fp frp :
  let t := uvc_v4l2_try_format_still stream fmt probe fp frp in
  (exists d, tf_stream t = set_dev d stream) /\
  tf_format t = fp /\ tf_frame t = frp /\
  (0 <= tf_ret t ->
     exists cand, uvc_probe_still (dev stream) cand
                  = (tf_ret t, tf_probe t, dev (tf_stream t))).
Proof.
  unfold uvc_v4l2_try_format_still.
  destruct (negb (fmt_type fmt =? type stream)).
  { cbn. repeat split; [exists (dev stream); symmetry; apply set_dev_same |].
    unfold EINVAL. lia. }
  destruct (find_format _ _ _) as [fo |].
  2:{ cbn. repeat split; [exists (dev stream); symmetry; apply set_dev_same |].
      unfold EINVAL. lia. }
  destruct (negb (fcc fo =? _)).
  { cbn. repeat split; [exists (dev stream); symmetry; apply set_dev_same |].
    unfold EINVAL. lia. }
  destruct (uvc_v4l2_get_still_idx fmt (Some fo) <? 0).
  { cbn. repeat split; [exists (dev stream); symmetry; apply set_dev_same |].
    unfold EINVAL. lia. }
  match goal with
  | |- context [uvc_probe_still ?d ?c] =>
      destruct (uvc_probe_still d c) as [[ret probe'] d'] eqn:Hp
  end.
  cbn. repeat split; eauto.
Qed.

(** C3, amended. On a request of the stream's type,
    [uvc_v4l2_set_format_still] fails with [-EBUSY], changing nothing, when
    [still_decoding] is set. When it fails, the committed still
    parameters, format and frame are those before the call; the still queue
    and the [still_img_configed] flag are untouched when no still
    configuration was in place, whereas a configured still queue has been
    asked to free its buffers as soon as the guards are passed, and the flag
    is cleared once that succeeded, whatever the negotiation then answers. On
    success the probed parameters are committed and the flag is 1. The main
    configuration and the privilege counter are never touched. *)
Theorem set_format_still_commit (stream : uvc_streaming)
    (fmt : v4l2_format) :
  let r := uvc_v4l2_set_format_still stream fmt in
  (fmt_type fmt = type stream -> still_decoding stream <> 0 ->
     r = (- EBUSY, stream)) /\
  (fst r < 0 ->
     still_config (snd r) = still_config stream /\
     (still_img_configed stream = 0 ->
        still_queue (snd r) = still_queue stream /\
        still_img_configed (snd r) = 0) /\
     (still_img_configed stream <> 0 ->
        fmt_type fmt = type stream -> still_decoding stream = 0 ->
        still_queue (snd r) = snd (uvc_free_buffers (still_queue stream)) /\
        (fst (uvc_free_buffers (still_queue stream)) < 0 /\
         still_img_configed (snd r) = still_img_configed stream \/
         0 <= fst (uvc_free_buffers (still_queue stream)) /\
         still_img_configed (snd r) = 0))) /\
  (0 <= fst r ->
     still_img_configed (snd r) = 1 /\
     exists cand d,
       uvc_probe_still d cand = (fst r, still_ctrl (snd r), dev (snd r))) /\
  main_config (snd r) = main_config stream /\
  active (snd r) = active stream.
Proof.
  cbv zeta. unfold uvc_v4l2_set_format_still.
  destruct (Z.eqb_spec (fmt_type fmt) (type stream)) as [Hty | Hty];
    cbn [negb].
  2:{ cbn [fst snd]. unfold EINVAL. split_and!; try reflexivity.
      - intros; contradiction.
      - intros _. split_and!; [reflexivity | auto | intros; contradiction].
      - lia. }
  destruct (Z.eqb_spec (still_decoding stream) 0) as [Hdec | Hdec];
    cbn [negb].
  2:{ cbn [fst snd]. unfold EBUSY. split_and!; try reflexivity.
      - intros _. split_and!; [reflexivity | auto | intros; contradiction].
      - lia. }
  split; [intros _ Hc; contradiction |].
  destruct (Z.eqb_spec (still_img_configed stream) 0) as [Hcfg | Hcfg];
    cbn [negb].
  - pose proof (try_format_still_stream stream fmt zero_ctrl None None)
      as ([d Hd] & Hf & Hfr & Hprobe). cbv zeta in Hprobe.
    set (t := uvc_v4l2_try_format_still stream fmt zero_ctrl None None) in *.
    destruct (Z.ltb_spec (tf_ret t) 0) as [Hneg | Hpos]; cbn [fst snd].
    + rewrite Hd. cbn. split_and!; try reflexivity; try lia.
      intros _. split_and!; [reflexivity | auto | intros; contradiction].
    + rewrite Hd. cbn. split_and!; try reflexivity; try lia.
      intros _. split; [reflexivity |].
      destruct (Hprobe Hpos) as [cand Hc]. rewrite Hd in Hc. cbn in Hc. eauto.
  - destruct (uvc_free_buffers (still_queue stream)) as [fr q] eqn:Hfree.
    cbn [fst snd].
    destruct (Z.ltb_spec fr 0) as [Hfneg | Hfpos].
    + cbn. split_and!; try reflexivity; try lia.
      intros _. split_and!; [reflexivity | intros; contradiction |].
      intros _ _ _. split; [reflexivity |]. left. auto.
    + set (s1 := set_still_img_configed 0 (set_still_queue q stream)).
      pose proof (try_format_still_stream s1 fmt zero_ctrl None None)
        as ([d Hd] & Hf & Hfr & Hprobe). cbv zeta in Hprobe.
      set (t := uvc_v4l2_try_format_still s1 fmt zero_ctrl None None) in *.
      destruct (Z.ltb_spec (tf_ret t) 0) as [Hneg | Hpos]; cbn [fst snd].
      * rewrite Hd. cbn. split_and!; try reflexivity; try lia.
        intros _. split_and!; [reflexivity | intros; contradiction |].
        intros _ _ _. split; [reflexivity |]. right. auto.
      * rewrite Hd. cbn. split_and!; try reflexivity; try lia.
        intros _. split; [reflexivity |].
        destruct (Hprobe Hpos) as [cand Hc]. rewrite Hd in Hc. cbn in Hc.
        eauto.
Qed.

End Negotiation.

(** ** Reachable worlds *)

Section Reachability.
Context `{C : Collaborators}.

Lemma exclusive_ext w w' :
  exclusive w -> active (w_stream w') = active (w_stream w) ->
  w_files w' = w_files w -> exclusive w'.
Proof.
  unfold exclusive, privileged. intros H Ha Hf. rewrite Ha, Hf. exact H.
Qed.

Lemma exclusive_move w file h h' s' :
  exclusive w -> w_files w !! file = Some h ->
  priv_move h (w_stream w) h' s' ->
  exclusive {| w_stream := s'; w_files := <[file := h']> (w_files w) |}.
Proof.
  intros Hex Hh [(-> & Ha) | [(Hs & Ha & Hs' & Ha') | (Hs & Ha & Hs' & Ha')]].
  - apply (exclusive_ext w); [exact Hex | exact Ha |].
    cbn. apply insert_id, Hh.
  - right. cbn. split; [exact Ha' |]. exists file. split.
    + exists h'. cbn. rewrite lookup_insert_eq. auto.
    + intros file' (h0 & Hh0 & Hs0). cbn in Hh0.
      destruct (decide (file = file')) as [-> | Hne]; [reflexivity |].
      rewrite lookup_insert_ne in Hh0 by exact Hne.
      destruct Hex as [[_ Hnone] | [Hone _]]; [| congruence].
      exfalso. apply (Hnone file'). exists h0. auto.
  - destruct (exclusive_holder w file h Hex Hh Hs) as [_ Huniq].
    left. cbn. split; [exact Ha' |].
    intros file' (h0 & Hh0 & Hs0). cbn in Hh0.
    destruct (decide (file = file')) as [-> | Hne].
    + rewrite lookup_insert_eq in Hh0. congruence.
    + rewrite lookup_insert_ne in Hh0 by exact Hne.
      apply Hne. symmetry. apply Huniq. exists h0. auto.
Qed.

Lemma exclusive_counter w :
  exclusive w -> active (w_stream w) = 0 \/ active (w_stream w) = 1.
Proof. intros [[Ha _] | [Ha _]]; auto. Qed.

Lemma acquire_move w file h ret h' s' :
  exclusive w -> w_files w !! file = Some h ->
  uvc_acquire_privileges h (w_stream w) = (ret, h', s') ->
  priv_move h (w_stream w) h' s' /\
  (ret < 0 /\ h' = h /\ s' = w_stream w \/
   ret = 0 /\ state h' = UVC_HANDLE_ACTIVE /\ active s' = 1 /\
   s' = set_active 1 (w_stream w)).
Proof.
  intros Hex Hh Hacq.
  destruct (state_cases h) as [Hs | Hs].
  - destruct (exclusive_counter w Hex) as [Ha | Ha].
    + rewrite (acquire_free h _ Hs Ha) in Hacq. inversion Hacq; subst.
      split; [right; left; auto |]. right. auto.
    + rewrite (acquire_held h _ Hs Ha) in Hacq. inversion Hacq; subst.
      split; [left; auto |]. left. unfold EBUSY. split; [lia | auto].
  - destruct (exclusive_holder w file h Hex Hh Hs) as [Ha _].
    rewrite (acquire_active h _ Hs) in Hacq. inversion Hacq; subst.
    split; [left; auto |]. right. split; [reflexivity |].
    split; [exact Hs |]. split; [exact Ha |].
    symmetry. apply set_active_same, Ha.
Qed.

Lemma set_format_active stream fmt ret stream' fmt' :
  uvc_v4l2_set_format stream fmt = Done (ret, stream', fmt') ->
  active stream' = active stream.
Proof.
  unfold uvc_v4l2_set_format. intros H.
  destruct (negb (fmt_type fmt =? type stream)).
  { inversion H; subst. reflexivity. }
  destruct (uvc_v4l2_try_format stream fmt zero_ctrl) as [t | ?] eqn:Ht;
    cbn [bind] in H; [| discriminate].
  destruct (try_format_done stream fmt zero_ctrl t Ht) as [[d Hd] _].
  destruct (tf_ret t <? 0).
  { inversion H; subst. rewrite Hd. reflexivity. }
  destruct (uvc_queue_allocated (queue (tf_stream t))).
  { inversion H; subst. rewrite Hd. reflexivity. }
  inversion H; subst. rewrite Hd. reflexivity.
Qed.

Lemma set_streamparm_active stream parm ret stream' parm' :
  uvc_v4l2_set_streamparm stream parm = Done (ret, stream', parm') ->
  active stream' = active stream.
Proof.
  unfold uvc_v4l2_set_streamparm. intros H.
  destruct (negb (parm_type parm =? type stream)).
  { inversion H; subst. reflexivity. }
  destruct (uvc_queue_streaming (queue stream)).
  { inversion H; subst. reflexivity. }
  destruct (uvc_try_frame_interval (cur_frame stream) _) as [fi | ?];
    cbn [bind] in H; [| discriminate].
  destruct (uvc_probe_video (dev stream) (set_dwFrameInterval fi (ctrl stream)))
    as [[r probe'] d].
  destruct (r <? 0).
  { inversion H; subst. reflexivity. }
  destruct (uvc_simplify_fraction _ _ _ _) as [n dn].
  inversion H; subst. reflexivity.
Qed.

Lemma set_format_still_active stream fmt :
  active (snd (uvc_v4l2_set_format_still stream fmt)) = active stream.
Proof.
  unfold uvc_v4l2_set_format_still.
  destruct (negb (fmt_type fmt =? type stream)); [reflexivity |].
  destruct (negb (still_decoding stream =? 0)); [reflexivity |].
  destruct (negb (still_img_configed stream =? 0)).
  - destruct (uvc_free_buffers (still_queue stream)) as [fr q].
    destruct (fr <? 0); [reflexivity |].
    match goal with
    | |- context [uvc_v4l2_try_format_still ?s ?f ?p ?a ?b] =>
        destruct (try_format_still_stream s f p a b) as ([d Hd] & _);
        cbv zeta in Hd;
        destruct (tf_ret (uvc_v4l2_try_format_still s f p a b) <? 0);
        cbn [snd]; rewrite Hd; reflexivity
    end.
  - match goal with
    | |- context [uvc_v4l2_try_format_still ?s ?f ?p ?a ?b] =>
        destruct (try_format_still_stream s f p a b) as ([d Hd] & _);
        cbv zeta in Hd;
        destruct (tf_ret (uvc_v4l2_try_format_still s f p a b) <? 0);
        cbn [snd]; rewrite Hd; reflexivity
    end.
Qed.

Lemma open_exclusive w file kzalloc_ok :
  exclusive w -> w_files w !! file = None ->
  exclusive (snd (uvc_v4l2_open file kzalloc_ok w)).
Proof.
  intros Hex Hfresh. unfold uvc_v4l2_open.
  destruct (dev_disconnected (dev (w_stream w))).
  { apply (exclusive_ext w); auto. }
  destruct (usb_autopm_get_interface (dev (w_stream w))) as [r d].
  destruct (r <? 0).
  { apply (exclusive_ext w); auto. }
  destruct kzalloc_ok; cbn [negb].
  2:{ apply (exclusive_ext w); auto. }
  cbn [users set_dev].
  assert (Hfiles : forall (s : uvc_streaming),
            active s = active (w_stream w) ->
            exclusive {| w_stream := s;
                         w_files := <[file := {| state := UVC_HANDLE_PASSIVE |}]>
                                      (w_files w) |}).
  { intros s Hs. unfold exclusive, privileged. cbn [w_stream w_files].
    rewrite Hs.
    assert (Heq : forall f, (exists h, <[file := {| state := UVC_HANDLE_PASSIVE |}]>
                               (w_files w) !! f = Some h /\
                               state h = UVC_HANDLE_ACTIVE) <->
                            privileged w f).
    { intros f. unfold privileged. split; intros (h & Hh & Hs').
      - destruct (decide (file = f)) as [-> | Hne].
        + rewrite lookup_insert_eq in Hh. inversion Hh; subst h. discriminate.
        + rewrite lookup_insert_ne in Hh by exact Hne. eauto.
      - exists h. split; [| exact Hs'].
        rewrite lookup_insert_ne; [exact Hh |]. intros ->. congruence. }
    destruct Hex as [[Ha Hnone] | (Ha & f & Hf & Huniq)].
    - left. split; [exact Ha |]. intros f Hp. apply (Hnone f), Heq, Hp.
    - right. split; [exact Ha |]. exists f. split; [apply Heq, Hf |].
      intros f' Hp. apply Huniq, Heq, Hp. }
  destruct (s32 (users (w_stream w) + 1) =? 1).
  - destruct (uvc_status_start _) as [r1 d1].
    destruct (r1 <? 0).
    + apply (exclusive_ext w); auto.
    + apply Hfiles. reflexivity.
  - apply Hfiles. reflexivity.
Qed.


Lemma priv_move_active h s h' s1 s2 :
  priv_move h s h' s1 -> active s2 = active s1 -> priv_move h s h' s2.
Proof. unfold priv_move. intros H E. rewrite E. exact H. Qed.

Lemma priv_move_stay h s s' : active s' = active s -> priv_move h s h s'.
Proof. intros E. left. auto. Qed.

Lemma s_input_move w file h query bit chain arg ret h' s' :
  exclusive w -> w_files w !! file = Some h ->
  do_ioctl_s_input query bit chain arg h (w_stream w) = (ret, h', s') ->
  priv_move h (w_stream w) h' s'.
Proof.
  intros Hex Hh H. unfold do_ioctl_s_input in H.
  destruct (uvc_acquire_privileges h (w_stream w)) as [[r h1] s1] eqn:Hacq.
  destruct (acquire_move w file h r h1 s1 Hex Hh Hacq) as [Hmove _].
  repeat case_match; simplify_eq; try exact Hmove;
    eapply priv_move_active; try exact Hmove; reflexivity.
Qed.

Lemma do_ioctl_exclusive w file nonblock cmd ret arg w' :
  exclusive w ->
  uvc_v4l2_do_ioctl file nonblock cmd w = Done (ret, arg, w') ->
  exclusive w'.
Proof.
  intros Hex H. unfold uvc_v4l2_do_ioctl in H.
  destruct (w_files w !! file) as [h |] eqn:Hh; cbn [deref bind] in H;
    [| discriminate].
  assert (Hstay : forall r a s',
            Done (r, a, {| w_stream := s';
                           w_files := <[file := h]> (w_files w) |})
              = Done (ret, arg, w') ->
            active s' = active (w_stream w) -> exclusive w').
  { intros r a s' E Ha. inversion E; subst.
    apply (exclusive_move w file h); auto. apply priv_move_stay, Ha. }
  destruct cmd
    as [fmt | fmt | fmt | parm | parm | rb | buf | buf | buf | ty | ty | input].
  - (* VIDIOC_TRY_FMT *)
    destruct (uvc_v4l2_try_format (w_stream w) fmt zero_ctrl) as [t | ?] eqn:Ht;
      cbn [bind] in H; [| discriminate].
    destruct (try_format_done _ _ _ _ Ht) as [[d Hd] _].
    eapply Hstay; [exact H |]. rewrite Hd. reflexivity.
  - (* VIDIOC_S_FMT *)
    destruct (IS_STILL_MAGIC (pix_priv (fmt_pix fmt))).
    + pose proof (set_format_still_active (w_stream w) fmt) as Ha.
      destruct (uvc_v4l2_set_format_still (w_stream w) fmt) as [r s'].
      eapply Hstay; [exact H | exact Ha].
    + destruct (uvc_acquire_privileges h (w_stream w)) as [[r h1] s1] eqn:Hacq.
      destruct (acquire_move w file h r h1 s1 Hex Hh Hacq) as [Hmove _].
      destruct (r <? 0).
      * inversion H; subst. apply (exclusive_move w file h); auto.
      * destruct (uvc_v4l2_set_format s1 fmt) as [[[r2 s2] fmt2] | ?] eqn:Hset;
          cbn [bind] in H; [| discriminate].
        inversion H; subst. apply (exclusive_move w file h); auto.
        eapply priv_move_active; [exact Hmove |].
        eapply set_format_active; eauto.
  - (* VIDIOC_G_FMT *)
    destruct (uvc_v4l2_get_format (w_stream w) fmt) as [r fmt'].
    eapply Hstay; [exact H | reflexivity].
  - (* VIDIOC_G_PARM *)
    destruct (uvc_v4l2_get_streamparm (w_stream w) parm) as [r parm'].
    eapply Hstay; [exact H | reflexivity].
  - (* VIDIOC_S_PARM *)
    destruct (uvc_acquire_privileges h (w_stream w)) as [[r h1] s1] eqn:Hacq.
    destruct (acquire_move w file h r h1 s1 Hex Hh Hacq) as [Hmove _].
    destruct (r <? 0).
    + inversion H; subst. apply (exclusive_move w file h); auto.
    + destruct (uvc_v4l2_set_streamparm s1 parm) as [[[r2 s2] parm2] | ?]
        eqn:Hset; cbn [bind] in H; [| discriminate].
      inversion H; subst. apply (exclusive_move w file h); auto.
      eapply priv_move_active; [exact Hmove |].
      eapply set_streamparm_active; eauto.
  - (* VIDIOC_REQBUFS *)
    destruct (IS_STILL_MAGIC (rb_reserved0 rb)).
    + destruct (negb (rb_memory rb =? V4L2_MEMORY_MMAP)).
      { eapply Hstay; [exact H | reflexivity]. }
      destruct (uvc_alloc_buffers (still_queue (w_stream w)) _ _) as [r q].
      destruct (r <? 0); eapply Hstay; try exact H; reflexivity.
    + destruct (negb (rb_type rb =? type (w_stream w))
                || negb (rb_memory rb =? V4L2_MEMORY_MMAP)).
      { eapply Hstay; [exact H | reflexivity]. }
      destruct (uvc_acquire_privileges h (w_stream w)) as [[r h1] s1] eqn:Hacq.
      destruct (acquire_move w file h r h1 s1 Hex Hh Hacq)
        as [Hmove [(Hneg & _) | (_ & Hs1 & Ha1 & _)]].
      * destruct (Z.ltb_spec r 0); [| lia].
        inversion H; subst. apply (exclusive_move w file h); auto.
      * destruct (r <? 0).
        { inversion H; subst. apply (exclusive_move w file h); auto. }
        destruct (uvc_alloc_buffers (queue s1) _ _) as [r2 q].
        destruct (r2 <? 0).
        { inversion H; subst. apply (exclusive_move w file h); auto. }
        destruct (r2 =? 0).
        -- rewrite (dismiss_active h1 (set_queue q s1) Hs1) in H
             by exact Ha1.
           inversion H; subst. apply (exclusive_move w file h); auto.
           destruct Hmove
             as [(-> & Ha) | [(Hs & Ha & _) | (_ & _ & Hs' & _)]].
           ++ right. right. split; [exact Hs1 |].
              split; [congruence |]. split; reflexivity.
           ++ left. split; [| cbn; congruence].
              rewrite <- Hs. apply fh_eta.
           ++ congruence.
        -- inversion H; subst. apply (exclusive_move w file h); auto.
  - (* VIDIOC_QUERYBUF *)
    destruct (IS_STILL_BUF buf).
    { destruct (uvc_query_buffer (still_queue (w_stream w)) buf) as [r b].
      eapply Hstay; [exact H | reflexivity]. }
    destruct (negb (buf_type buf =? type (w_stream w))).
    { eapply Hstay; [exact H | reflexivity]. }
    destruct (negb (uvc_has_privileges h)).
    { eapply Hstay; [exact H | reflexivity]. }
    destruct (uvc_query_buffer (queue (w_stream w)) buf) as [r b].
    eapply Hstay; [exact H | reflexivity].
  - (* VIDIOC_QBUF *)
    destruct (IS_STILL_BUF buf).
    { destruct (uvc_queue_buffer (still_queue (w_stream w)) _)
        as [[r q] b].
      destruct (r <? 0); eapply Hstay; try exact H; reflexivity. }
    destruct (negb (uvc_has_privileges h)).
    { eapply Hstay; [exact H | reflexivity]. }
    destruct (uvc_queue_buffer (queue (w_stream w)) buf) as [[r q] b].
    eapply Hstay; [exact H | reflexivity].
  - (* VIDIOC_DQBUF *)
    destruct (IS_STILL_BUF buf).
    { destruct (uvc_trigger_still (dev (w_stream w))) as [r d].
      destruct (r <? 0).
      { eapply Hstay; [exact H | reflexivity]. }
      destruct (uvc_dequeue_buffer _ buf nonblock) as [[r2 q] b].
      eapply Hstay; [exact H | reflexivity]. }
    destruct (negb (uvc_has_privileges h)).
    { eapply Hstay; [exact H | reflexivity]. }
    destruct (uvc_dequeue_buffer (queue (w_stream w)) buf nonblock)
      as [[r q] b].
    eapply Hstay; [exact H | reflexivity].
  - (* VIDIOC_STREAMON *)
    destruct (negb (ty =? type (w_stream w))).
    { eapply Hstay; [exact H | reflexivity]. }
    destruct (negb (uvc_has_privileges h)).
    { eapply Hstay; [exact H | reflexivity]. }
    destruct (uvc_video_enable (dev (w_stream w)) (queue (w_stream w)) 1)
      as [[r d] q].
    eapply Hstay; [exact H | reflexivity].
  - (* VIDIOC_STREAMOFF *)
    destruct (negb (ty =? type (w_stream w))).
    { eapply Hstay; [exact H | reflexivity]. }
    destruct (negb (uvc_has_privileges h)).
    { eapply Hstay; [exact H | reflexivity]. }
    destruct (uvc_video_enable (dev (w_stream w)) (queue (w_stream w)) 0)
      as [[r d] q].
    eapply Hstay; [exact H | reflexivity].
  - (* VIDIOC_S_INPUT *)
    destruct (do_ioctl_s_input _ _ _ _ _ _) as [[r h1] s1] eqn:Hin.
    inversion H; subst. apply (exclusive_move w file h); auto.
    eapply s_input_move; eauto.
Qed.

(** X21. In every world that [uvc_v4l2_open], [uvc_v4l2_release] and the
    requests of [uvc_ioctl] can produce from a freshly attached stream, the
    privilege counter is 0 and no handle is privileged, or it is 1 and
    exactly one handle is. *)
Lemma reachable_exclusive w : reachable w -> exclusive w.
Proof.
  induction 1 as [s Ha | w file ok _ IH Hfresh | w w' file ret _ IH Hrel
                 | w w' file nonblock cmd arg ret _ IH Hio].
  - left. cbn. split; [exact Ha |].
    intros file (h & Hh & _). cbn in Hh. rewrite lookup_empty in Hh.
    discriminate.
  - apply open_exclusive; assumption.
  - unfold uvc_v4l2_release in Hrel.
    destruct (w_files w !! file) as [h |] eqn:Hh; [| discriminate].
    destruct (release_spec w file h IH Hh) as (w1 & Hrel1 & _ & _ & Hex1).
    unfold uvc_v4l2_release in Hrel1. rewrite Hh in Hrel1.
    rewrite Hrel1 in Hrel. inversion Hrel; subst. exact Hex1.
  - eapply do_ioctl_exclusive; eauto.
Qed.

End Reachability.


(** ** The arbiter under interleaving *)

Import Interleaved.





(** The counter does pass through 2: with file 1 privileged, file 2 is
    refused, and before its [atomic_dec] the counter is 2. *)
Example interleaved_transient :
  rtc (istep {[1%nat; 2%nat]}) istart
    {| i_active := 2; i_held := {[1%nat]}; i_leaving := ∅;
       i_flying := {[2%nat := 2]} |}.
Proof.
  eapply rtc_l;
    [apply (i_inc _ 1%nat); [set_solver | set_solver | set_solver | reflexivity] |].
  eapply rtc_l; [apply (i_take _ 1%nat); reflexivity |].
  eapply rtc_l;
    [apply (i_inc _ 2%nat); [set_solver | set_solver | set_solver | reflexivity] |].
  apply rtc_refl.
Qed.


(** ** The stepwise range, for requests inside it *)

(** X20. For a frame with an interval range (a positive step, a minimum
    that is not negative and a maximum below 2^32 that is not below it) and
    a request that is not below the minimum and small enough for the
    rounding not to wrap ([interval + step / 2 < 2^32]),
    [uvc_try_frame_interval] returns the request rounded to the nearest step
    above the minimum and capped at the maximum: a value between the minimum
    and the maximum that is the maximum or lies on the grid of steps. *)
Lemma try_frame_interval_stepwise_in_range f min max step rest interval :
  bFrameIntervalType f = 0 ->
  dwFrameInterval f = min :: max :: step :: rest ->
  0 < step -> 0 <= min -> min <= max -> max < 2 ^ 32 ->
  min <= interval -> interval + step / 2 < 2 ^ 32 ->
  exists v,
    uvc_try_frame_interval (Some f) interval = Done v /\
    v = Z.min max (min + (interval - min + step / 2) / step * step) /\
    min <= v <= max /\
    (v = max \/ exists k, 0 <= k /\ v = min + k * step).
Proof.
  intros Hty Htbl Hstep Hmin Hmax Hmax32 Hlo Hhi.
  rewrite (try_frame_interval_stepwise f min max step rest interval Hty Htbl)
    by lia.
  assert (Hh : 0 <= step / 2) by (apply Z.div_pos; lia).
  set (q := (interval - min + step / 2) / step).
  assert (Hq : 0 <= q) by (apply Z.div_pos; lia).
  assert (Hqs : q * step <= interval - min + step / 2).
  { subst q. rewrite Z.mul_comm. apply Z.mul_div_le. lia. }
  assert (Hqs0 : 0 <= q * step) by nia.
  rewrite (u32_id (interval - min)) by (unfold is_u32; lia).
  rewrite (u32_id (interval - min + step / 2)) by (unfold is_u32; lia).
  fold q.
  rewrite (u32_id (q * step)) by (unfold is_u32; lia).
  rewrite (u32_id (min + q * step)) by (unfold is_u32; lia).
  cbv zeta.
  destruct (Z.gtb_spec (min + q * step) max) as [Hgt | Hle].
  - exists max. split; [reflexivity |]. split; [lia |]. split; [lia |]. auto.
  - exists (min + q * step). split; [reflexivity |]. split; [lia |].
    split; [lia |]. right. exists q. auto.
Qed.

(** ** The driver on the bench *)

Section Scenarios.

#[local] Existing Instance Bench.collaborators.

(** C6, the code at the failing input. With min 100, max 1000, step 10 and
    a request of 50, [interval - min] wraps around and the result is 54,
    below the minimum; with a step of 0 the division faults. *)
Theorem try_frame_interval_stepwise_below_min :
  uvc_try_frame_interval (Some (mk_stepwise 640 480 100 1000 10)) 50
    = Done 54 /\
  ~ (100 <= 54 <= 1000) /\
  uvc_try_frame_interval (Some (mk_stepwise 640 480 100 1000 0)) 500
    = Oops DivByZero.
Proof. split; [reflexivity |]. split; [lia | reflexivity]. Qed.

(** C9, the code at the failing input. On a stream with no committed frame
    ([cur_frame] is [NULL]) whose main queue is not streaming,
    [uvc_v4l2_set_streamparm] dereferences the null frame instead of
    returning an error, although [uvc_v4l2_get_format] returns [-EINVAL] on
    the same stream. On a streaming queue it returns [-EBUSY] first. *)
Theorem set_streamparm_null_frame :
  cur_frame (Bench.stream0 true) = None /\
  uvc_v4l2_set_streamparm (Bench.stream0 true) Bench.parm30 = Oops NullDeref /\
  fst (uvc_v4l2_get_format (Bench.stream0 true)
         (Bench.request Bench.YUYV 640 480 0)) = - EINVAL /\
  uvc_v4l2_set_streamparm Bench.stream_streaming Bench.parm30
    = Done (- EBUSY, Bench.stream_streaming, Bench.parm30).
Proof. repeat split; reflexivity. Qed.

Lemma set_format_allocated_unsupported :
  uvc_queue_allocated (queue Bench.stream_allocated) = true /\
  uvc_v4l2_set_format Bench.stream_allocated (Bench.request 0 640 480 0)
    = Done (- EINVAL, Bench.stream_allocated, Bench.request 0 640 480 0) /\
  - EINVAL <> - EBUSY.
Proof. split; [reflexivity |]. split; [reflexivity | discriminate]. Qed.

Lemma set_format_still_failure_frees :
  let r := uvc_v4l2_set_format_still Bench.stream_still
             (Bench.request 0 800 600 Bench.STILL_MAGIC) in
  fst r = - EINVAL /\
  still_img_configed Bench.stream_still = 1 /\
  still_img_configed (snd r) = 0 /\
  still_queue (snd r) <> still_queue Bench.stream_still.
Proof. cbv zeta. repeat split; try reflexivity. discriminate. Qed.

(** C4, the code at the failing input. The loop keeps the requested width
    and height in [__u16] variables: of the frames 640x480 and 1280x480, a
    request of 66176x480 selects 640x480, as a request of 640x480 does,
    although 1280x480 is in the list and strictly nearer to the size that
    was requested. *)
Theorem select_frame_wide_request :
  select_frame Bench.two_widths 66176 480 = Some (mk_discrete 640 480 [333333]) /\
  select_frame Bench.two_widths 640 480 = Some (mk_discrete 640 480 [333333]) /\
  mk_discrete 1280 480 [333333] ∈ frame Bench.two_widths /\
  frame_distance (mk_discrete 1280 480 [333333]) 66176 480
  < frame_distance (mk_discrete 640 480 [333333]) 66176 480.
Proof.
  split; [reflexivity |]. split; [reflexivity |].
  split; [right; left | vm_compute; reflexivity].
Qed.

Lemma select_frame_nearest_witness :
  exists k f, select_frame Bench.yuyv 700 480 = Some f /\
              first_nearest (frame Bench.yuyv) (u16 700) (u16 480) k f.
Proof.
  destruct (select_frame_nearest Bench.yuyv 700 480) as (_ & Hsel & _).
  - split; [repeat constructor; vm_compute; intuition discriminate
           | vm_compute; reflexivity].
  - apply Hsel. discriminate.
Defined.

Example scenario_size :
  select_frame Bench.yuyv 700 480 = Some Bench.frame_vga.
Proof. reflexivity. Qed.


Lemma bench_world0_exclusive : exclusive (Bench.world0 true).
Proof.
  left. split; [reflexivity |].
  intros file (h & Hh & Hs). cbn in Hh.
  apply lookup_insert_Some in Hh as [[_ <-] | [_ Hh]]; [discriminate |].
  apply lookup_insert_Some in Hh as [[_ <-] | [_ Hh]]; [discriminate |].
  rewrite lookup_empty in Hh. discriminate.
Qed.

Lemma bench_world1_exclusive : exclusive (Bench.world1 true).
Proof.
  right. split; [reflexivity |]. exists 1%nat. split.
  - eexists. split; reflexivity.
  - intros file (h & Hh & Hs). cbn in Hh.
    apply lookup_insert_Some in Hh as [[_ <-] | [_ Hh]]; [discriminate |].
    apply lookup_insert_Some in Hh as [[<- _] | [_ Hh]]; [reflexivity |].
    rewrite lookup_empty in Hh. discriminate.
Qed.

Example scenario_set_format_busy :
  uvc_v4l2_do_ioctl 2 false (VIDIOC_S_FMT (Bench.request Bench.YUYV 700 480 0))
    (Bench.world1 true)
  = Done (- EBUSY, VIDIOC_S_FMT (Bench.request Bench.YUYV 700 480 0),
          Bench.world1 true).
Proof.
  apply (set_format_blocked (Bench.world1 true) 2 1
           {| state := UVC_HANDLE_PASSIVE |}).
  - exact bench_world1_exclusive.
  - reflexivity.
  - reflexivity.
  - eexists. split; reflexivity.
  - reflexivity.
Qed.

Lemma privilege_exclusive_witness :
  exists w,
    priv_run [AcquirePrivilege 1; AcquirePrivilege 2; DismissPrivilege 1;
              AcquirePrivilege 2] (Bench.world0 true) = Done w /\
    (active (w_stream w) = 0 \/ active (w_stream w) = 1).
Proof.
  destruct (privilege_exclusive (Bench.world0 true)
              [AcquirePrivilege 1; AcquirePrivilege 2; DismissPrivilege 1;
               AcquirePrivilege 2])
    as (w & Hrun & Hact & _).
  - exact bench_world0_exclusive.
  - intros c Hc.
    repeat (apply elem_of_cons in Hc as [-> | Hc]; [eexists; reflexivity |]).
    inversion Hc.
  - exists w. split; [exact Hrun | exact Hact].
Defined.

Lemma release_dismisses_privileges_witness :
  exists w',
    uvc_v4l2_release 1 (Bench.world1 true) = Done (0, w') /\
    active (w_stream w') = 0 /\
    priv_step (AcquirePrivilege 2) (Bench.world1 true)
      = Done (- EBUSY, Bench.world1 true) /\
    exists w'', priv_step (AcquirePrivilege 2) w' = Done (0, w'').
Proof.
  destruct (release_dismisses_privileges (Bench.world1 true) 1
              {| state := UVC_HANDLE_ACTIVE |})
    as (w' & Hrel & _ & _ & _ & Hact).
  - exact bench_world1_exclusive.
  - reflexivity.
  - destruct (Hact eq_refl) as (H0 & Hothers).
    destruct (Hothers 2%nat {| state := UVC_HANDLE_PASSIVE |})
      as (Hbusy & w'' & Hok & _); [lia | reflexivity |].
    exists w'. split; [exact Hrel |]. split; [exact H0 |].
    split; [exact Hbusy |]. exists w''. exact Hok.
Defined.

Lemma main_queue_needs_privilege_witness :
  uvc_v4l2_do_ioctl 1 false (VIDIOC_QBUF Bench.plain_buf) (Bench.world0 true)
    = Done (- EBUSY, VIDIOC_QBUF Bench.plain_buf, Bench.world0 true).
Proof.
  destruct (main_queue_needs_privilege (Bench.world0 true) 1
              {| state := UVC_HANDLE_PASSIVE |} false Bench.plain_buf)
    as [Hmain _].
  - reflexivity.
  - destruct (Hmain eq_refl eq_refl) as [Hq _]. exact Hq.
Defined.

Lemma try_frame_interval_discrete_witness :
  exists (k : nat) (v : Z),
    uvc_try_frame_interval (Some Bench.frame_vga) 400000 = Done v /\
    dwFrameInterval Bench.frame_vga !! k = Some v.
Proof.
  destruct try_frame_interval_discrete as [Hgen _].
  destruct (Hgen Bench.frame_vga 400000) as (k & v & Hv & Hk & _).
  - split; [vm_compute; split; reflexivity |].
    split; [reflexivity |].
    repeat constructor; vm_compute; intuition discriminate.
  - vm_compute. intuition discriminate.
  - exists k, v. split; [exact Hv | exact Hk].
Defined.

Lemma bench_table_ok : Forall format_ok (format (Bench.stream0 true)).
Proof.
  repeat constructor; try (vm_compute; intuition discriminate).
  all: left; split; [vm_compute; split; reflexivity |];
    split; [reflexivity |];
    repeat constructor; vm_compute; intuition discriminate.
Qed.

Lemma try_format_descriptor_witness :
  exists t fo fr,
    uvc_v4l2_try_format (Bench.stream0 true)
      (Bench.request Bench.YUYV 700 480 0) zero_ctrl = Done t /\
    tf_ret t = 0 /\
    select_frame fo 700 480 = Some fr /\
    pix_width (fmt_pix (tf_fmt t)) = wWidth fr /\
    pix_colorspace (fmt_pix (tf_fmt t)) = colorspace fo.
Proof.
  destruct (try_format_descriptor (Bench.stream0 true)
              (Bench.request Bench.YUYV 700 480 0) zero_ctrl)
    as (Htry & _ & Htot).
  destruct (Htot bench_table_ok) as [t Ht].
  destruct (Htry t Ht) as [_ Hpos].
  pose proof (eq_refl :
    match uvc_v4l2_try_format (Bench.stream0 true)
            (Bench.request Bench.YUYV 700 480 0) zero_ctrl with
    | Done t0 => tf_ret t0
    | Oops _ => -1
    end = 0) as Hret.
  rewrite Ht in Hret.
  destruct (Hpos ltac:(lia))
    as (fo & fr & cand & _ & _ & Hfr & _ & Hw & _ & _ & _ & _ & Hc).
  exists t, fo, fr. auto.
Defined.

Lemma set_format_commit_witness :
  exists ret stream' fmt',
    uvc_v4l2_set_format Bench.stream_allocated
      (Bench.request Bench.YUYV 700 480 0) = Done (ret, stream', fmt') /\
    ret < 0 /\
    main_config stream' = main_config Bench.stream_allocated.
Proof.
  destruct (set_format_commit Bench.stream_allocated
              (Bench.request Bench.YUYV 700 480 0)) as (Hset & _ & Htot & _).
  destruct (Htot bench_table_ok) as [[[ret stream'] fmt'] Hr].
  exists ret, stream', fmt'. split; [exact Hr |].
  destruct (Hset ret stream' fmt' Hr) as (_ & Hbusy & _).
  destruct (Hbusy eq_refl) as (Hneg & Hcfg & _).
  split; [exact Hneg | exact Hcfg].
Defined.

Lemma set_format_still_commit_witness :
  still_config
    (snd (uvc_v4l2_set_format_still Bench.stream_still
            (Bench.request 0 800 600 Bench.STILL_MAGIC)))
  = still_config Bench.stream_still.
Proof.
  destruct (set_format_still_commit Bench.stream_still
              (Bench.request 0 800 600 Bench.STILL_MAGIC))
    as (_ & Hfail & _).
  destruct Hfail as [Hcfg _].
  - reflexivity.
  - exact Hcfg.
Defined.

End Scenarios.

(** ** Still index *)

Section StillIndex.
Context `{C : Collaborators}.

Lemma still_scan_spec tbl rw rh : forall i,
  0 <= i -> i + Z.of_nat (length tbl) < 2 ^ 32 ->
  (forall k e, tbl !! k = Some e -> still_match rw rh e ->
     (forall j e', (j < k)%nat -> tbl !! j = Some e' ->
        ~ still_match rw rh e') ->
     still_scan tbl rw rh i = i + Z.of_nat k) /\
  ((forall j e, tbl !! j = Some e -> ~ still_match rw rh e) ->
     still_scan tbl rw rh i = i + Z.of_nat (length tbl)).
Proof.
  induction tbl as [| e0 tbl IH]; intros i Hi Hlen.
  - split; [intros k e Hk; discriminate | intros _; simpl; lia].
  - simpl length in Hlen.
    assert (Hnext : u32 (i + 1) = i + 1) by (apply u32_id; unfold is_u32; lia).
    destruct (IH (i + 1)) as [IHfound IHnone]; [lia | lia |].
    cbn [still_scan].
    destruct (Z.eqb_spec rw (still_wWidth e0)) as [Hw | Hw];
      destruct (Z.eqb_spec rh (still_wHeight e0)) as [Hh | Hh]; cbn [andb].
    + split.
      * intros [| k] e Hk Hm Hfirst; [lia |].
        exfalso. apply (Hfirst 0%nat e0); [lia | reflexivity |].
        split; congruence.
      * intros Hnone. exfalso. apply (Hnone 0%nat e0 eq_refl).
        split; congruence.
    + rewrite Hnext. split.
      * intros [| k] e Hk [Hm1 Hm2] Hfirst.
        { inversion Hk; subst. congruence. }
        rewrite (IHfound k e Hk (conj Hm1 Hm2)); [lia |].
        intros j e' Hj. apply (Hfirst (S j)). lia.
      * intros Hnone. rewrite IHnone; [simpl length; lia |].
        intros j e'. apply (Hnone (S j)).
    + rewrite Hnext. split.
      * intros [| k] e Hk [Hm1 Hm2] Hfirst.
        { inversion Hk; subst. congruence. }
        rewrite (IHfound k e Hk (conj Hm1 Hm2)); [lia |].
        intros j e' Hj. apply (Hfirst (S j)). lia.
      * intros Hnone. rewrite IHnone; [simpl length; lia |].
        intros j e'. apply (Hnone (S j)).
    + rewrite Hnext. split.
      * intros [| k] e Hk [Hm1 Hm2] Hfirst.
        { inversion Hk; subst. congruence. }
        rewrite (IHfound k e Hk (conj Hm1 Hm2)); [lia |].
        intros j e' Hj. apply (Hfirst (S j)). lia.
      * intros Hnone. rewrite IHnone; [simpl length; lia |].
        intros j e'. apply (Hnone (S j)).
Qed.

(** X1. [uvc_v4l2_get_still_idx] compares the still sizes with the requested
    width and height reduced modulo 2^16: it returns the 1-based position of
    the first still size that has exactly that size, and [-EINVAL] when no
    still size has it or when there is no format. *)
Theorem get_still_idx_first_match (fmt : v4l2_format) (fo : uvc_format) :
  Z.of_nat (length (still_frame_tbl fo)) < 2 ^ 31 ->
  let rw := u16 (pix_width (fmt_pix fmt)) in
  let rh := u16 (pix_height (fmt_pix fmt)) in
  (forall k e, still_frame_tbl fo !! k = Some e -> still_match rw rh e ->
     (forall j e', (j < k)%nat -> still_frame_tbl fo !! j = Some e' ->
        ~ still_match rw rh e') ->
     uvc_v4l2_get_still_idx fmt (Some fo) = Z.of_nat k + 1) /\
  ((forall j e, still_frame_tbl fo !! j = Some e -> ~ still_match rw rh e) ->
     uvc_v4l2_get_still_idx fmt (Some fo) = - EINVAL) /\
  uvc_v4l2_get_still_idx fmt None = - EINVAL.
Proof.
  intros Hlen rw rh.
  destruct (still_scan_spec (still_frame_tbl fo) rw rh 0)
    as [Hfound Hnone]; [lia | change (2 ^ 31) with 2147483648 in Hlen;
                              change (2 ^ 32) with 4294967296; lia |].
  split; [| split; [| reflexivity]].
  - intros k e Hk Hm Hfirst. unfold uvc_v4l2_get_still_idx.
    pose proof (lookup_lt_Some _ _ _ Hk) as Hklt.
    destruct (Z.eqb_spec (Z.of_nat (length (still_frame_tbl fo))) 0); [lia |].
    fold rw rh. rewrite (Hfound k e Hk Hm Hfirst).
    destruct (Z.ltb_spec (0 + Z.of_nat k)
                (Z.of_nat (length (still_frame_tbl fo)))); [| lia].
    rewrite s32_id; lia.
  - intros Hno. unfold uvc_v4l2_get_still_idx.
    destruct (Z.of_nat (length (still_frame_tbl fo)) =? 0); [reflexivity |].
    fold rw rh. rewrite (Hnone Hno).
    destruct (Z.ltb_spec (0 + Z.of_nat (length (still_frame_tbl fo)))
                (Z.of_nat (length (still_frame_tbl fo)))); [lia | reflexivity].
Qed.

End StillIndex.

(** ** What a committed negotiation leaves behind *)

Section RoundTrips.
Context `{C : Collaborators}.

(** X2. A still S_FMT that succeeds marks the still pipeline configured and
    commits the block the device answered to one probe, made of the format's
    index and the still index; but it commits [NULL] as the still format and
    the still frame, because [uvc_v4l2_try_format_still] never stores
    through its two pointer arguments. *)
Theorem set_format_still_commits_null (stream : uvc_streaming)
    (fmt : v4l2_format) :
  let r := uvc_v4l2_set_format_still stream fmt in
  0 <= fst r ->
  still_format (snd r) = None /\ still_frame (snd r) = None /\
  still_img_configed (snd r) = 1 /\
  exists fo,
    find_format (format stream) (pix_pixelformat (fmt_pix fmt)) None = Some fo /\
    fcc fo = pix_pixelformat (fmt_pix fmt) /\
    0 <= uvc_v4l2_get_still_idx fmt (Some fo) /\
    uvc_probe_still (dev stream)
      {| bmHint := 0; bFormatIndex := index fo;
         ctrl_bFrameIndex := u8 (uvc_v4l2_get_still_idx fmt (Some fo));
         ctrl_dwFrameInterval := 0; dwMaxVideoFrameSize := 0 |}
    = (fst r, still_ctrl (snd r), dev (snd r)).
Proof.
  intros r Hok. subst r. revert Hok.
  unfold uvc_v4l2_set_format_still.
  destruct (negb (fmt_type fmt =? type stream)) eqn:Hty;
    [cbn; change (- EINVAL <? 0) with true; cbn; unfold EINVAL; lia |].
  destruct (negb (still_decoding stream =? 0)); [unfold EBUSY; cbn; lia |].
  set (freed := if negb (still_img_configed stream =? 0) then _ else _).
  assert (Hfreed : (exists e, freed = inl e /\ fst e < 0) \/
                   (exists s, freed = inr s /\ dev s = dev stream /\
                              format s = format stream /\
                              type s = type stream)).
  { subst freed. destruct (negb (still_img_configed stream =? 0)).
    - destruct (uvc_free_buffers (still_queue stream)) as [ret q].
      destruct (Z.ltb_spec ret 0).
      + left. eexists. split; [reflexivity | exact H].
      + right. eexists. split; [reflexivity |]. auto.
    - right. eexists. split; [reflexivity |]. auto. }
  destruct Hfreed as [(e & -> & He) | (s & -> & Hdev & Hfmt & Htype)];
    [cbn; intros; lia |].
  unfold uvc_v4l2_try_format_still. rewrite Htype, Hty, Hfmt, Hdev.
  destruct (find_format (format stream) (pix_pixelformat (fmt_pix fmt)) None)
    as [fo |] eqn:Hfo; [| cbn; change (- EINVAL <? 0) with true; cbn; unfold EINVAL; lia].
  destruct (Z.eqb_spec (fcc fo) (pix_pixelformat (fmt_pix fmt))) as [Hfcc | Hfcc];
    cbn [negb]; [| cbn; change (- EINVAL <? 0) with true; cbn; unfold EINVAL; lia].
  destruct (Z.ltb_spec (uvc_v4l2_get_still_idx fmt (Some fo)) 0) as [Hi | Hi];
    [cbn; change (- EINVAL <? 0) with true; cbn; unfold EINVAL; lia |].
  destruct (uvc_probe_still _ _) as [[ret probe] d] eqn:Hprobe.
  cbn [tf_ret tf_stream tf_probe tf_format tf_frame].
  destruct (Z.ltb_spec ret 0); cbn [fst snd]; [lia |].
  intros _. cbn. split_and!; try reflexivity.
  exists fo. split_and!; auto.
Qed.

(** X3. After a successful [uvc_v4l2_set_format], [uvc_v4l2_get_format]
    returns 0 and reports exactly the pixel format that the set call handed
    back to its caller. *)
Theorem get_format_after_set_format (stream stream' : uvc_streaming)
    (fmt fmt' q : v4l2_format) (ret : Z) :
  uvc_v4l2_set_format stream fmt = Done (ret, stream', fmt') ->
  0 <= ret -> fmt_type q = type stream ->
  uvc_v4l2_get_format stream' q
    = (0, {| fmt_type := fmt_type q; fmt_pix := fmt_pix fmt' |}).
Proof.
  intros Hset Hret Hq.
  unfold uvc_v4l2_set_format in Hset.
  destruct (Z.eqb_spec (fmt_type fmt) (type stream)) as [Hty | Hty];
    cbn [negb] in Hset;
    [| inversion Hset; subst; unfold EINVAL in Hret; lia].
  destruct (uvc_v4l2_try_format stream fmt zero_ctrl) as [t | e] eqn:Htry;
    [| discriminate].
  cbn [bind] in Hset.
  destruct (try_format_done _ _ _ _ Htry) as [[d Hd] Hcases].
  destruct (Z.ltb_spec (tf_ret t) 0);
    [inversion Hset; subst; lia |].
  destruct (uvc_queue_allocated (queue (tf_stream t)));
    [inversion Hset; subst; unfold EBUSY in Hret; lia |].
  inversion Hset; subst ret stream' fmt'; clear Hset.
  destruct Hcases as [[Hneg _] | (_ & fo & fr & cand & _ & _ & Hfcc & _ & _ &
                                   Hfo & Hfr & Hfmt)]; [lia |].
  unfold uvc_v4l2_get_format. rewrite Hd. cbn.
  rewrite Hq, Z.eqb_refl. cbn. rewrite Hfo, Hfr, Hfmt. cbn.
  rewrite Hfcc. reflexivity.
Qed.

(** X4. A [uvc_v4l2_set_streamparm] that does not fail returns 0, keeps the
    committed format and frame, commits the block the device answered to the
    probe of the snapped interval, and [uvc_v4l2_get_streamparm] then reports
    the same time per frame as the set call handed back. *)
Theorem get_streamparm_after_set_streamparm (stream stream' : uvc_streaming)
    (parm parm' q : v4l2_streamparm) (ret : Z) :
  uvc_v4l2_set_streamparm stream parm = Done (ret, stream', parm') ->
  0 <= ret -> parm_type q = type stream ->
  ret = 0 /\
  uvc_v4l2_get_streamparm stream' q = (0, parm') /\
  cur_format stream' = cur_format stream /\
  cur_frame stream' = cur_frame stream /\
  exists fi r,
    uvc_try_frame_interval (cur_frame stream)
      (uvc_fraction_to_interval (timeperframe_numerator parm)
         (timeperframe_denominator parm)) = Done fi /\
    uvc_probe_video (dev stream) (set_dwFrameInterval fi (ctrl stream))
      = (r, ctrl stream', dev stream') /\ 0 <= r.
Proof.
  intros Hset Hret Hq.
  unfold uvc_v4l2_set_streamparm in Hset.
  destruct (Z.eqb_spec (parm_type parm) (type stream)) as [Hty | Hty];
    cbn [negb] in Hset;
    [| inversion Hset; subst; unfold EINVAL in Hret; lia].
  destruct (uvc_queue_streaming (queue stream));
    [inversion Hset; subst; unfold EBUSY in Hret; lia |].
  destruct (uvc_try_frame_interval (cur_frame stream) _) as [fi | e] eqn:Hfi;
    [| discriminate].
  cbn [bind] in Hset.
  destruct (uvc_probe_video _ _) as [[r probe] d] eqn:Hprobe.
  destruct (Z.ltb_spec r 0); [inversion Hset; subst; lia |].
  destruct (uvc_simplify_fraction _ _ _ _) as [n dn] eqn:Hsimp.
  inversion Hset; subst ret stream' parm'; clear Hset.
  split; [reflexivity |]. split.
  { unfold uvc_v4l2_get_streamparm. cbn. rewrite Hq, Z.eqb_refl. cbn.
    rewrite Hsimp, Hty. reflexivity. }
  split; [reflexivity |]. split; [reflexivity |].
  exists fi, r. cbn. auto.
Qed.

End RoundTrips.

(** ** Negotiation and enumeration *)

Section Enumerations.
Context `{C : Collaborators}.

Lemma try_format_proposal stream fmt probe t :
  uvc_v4l2_try_format stream fmt probe = Done t -> 0 <= tf_ret t ->
  exists fo fr fi,
    find_format (format stream) (pix_pixelformat (fmt_pix fmt)) None = Some fo /\
    fcc fo = pix_pixelformat (fmt_pix fmt) /\
    select_frame fo (pix_width (fmt_pix fmt)) (pix_height (fmt_pix fmt))
      = Some fr /\
    uvc_try_frame_interval (Some fr) (dwDefaultFrameInterval fr) = Done fi /\
    uvc_probe_video (dev stream) (try_format_candidate stream fo fr fi)
      = (tf_ret t, tf_probe t, dev (tf_stream t)) /\
    tf_format t = Some fo /\ tf_frame t = Some fr /\
    tf_fmt t = negotiated_fmt fmt fo fr (tf_probe t).
Proof.
  unfold uvc_v4l2_try_format. intros H Hret.
  destruct (negb (fmt_type fmt =? type stream));
    [inversion H; subst; cbn in Hret; unfold EINVAL in Hret; lia |].
  destruct (find_format (format stream) (pix_pixelformat (fmt_pix fmt)) None)
    as [fo |] eqn:Hfo;
    [| inversion H; subst; cbn in Hret; unfold EINVAL in Hret; lia].
  destruct (Z.eqb_spec (fcc fo) (pix_pixelformat (fmt_pix fmt))) as [Hfcc | Hfcc];
    cbn [negb] in H;
    [| inversion H; subst; cbn in Hret; unfold EINVAL in Hret; lia].
  destruct (select_frame fo _ _) as [fr |] eqn:Hfr;
    [| inversion H; subst; cbn in Hret; unfold EINVAL in Hret; lia].
  destruct (uvc_try_frame_interval (Some fr) (dwDefaultFrameInterval fr))
    as [fi | e] eqn:Hfi; [| discriminate].
  cbn [bind] in H.
  assert (Hcand :
    (if quirk_set (quirks stream) UVC_QUIRK_REDUCE_MEM_USAGE
     then set_dwMaxVideoFrameSize
            (u32 (Z.quot (s32 (s32 (wWidth fr * wHeight fr) * 2)) 5))
            (if quirk_set (quirks stream) UVC_QUIRK_PROBE_EXTRAFIELDS
             then set_dwMaxVideoFrameSize (dwMaxVideoFrameSize (ctrl stream))
                    {| bmHint := 1; bFormatIndex := index fo;
                       ctrl_bFrameIndex := bFrameIndex fr;
                       ctrl_dwFrameInterval := fi;
                       dwMaxVideoFrameSize := 0 |}
             else {| bmHint := 1; bFormatIndex := index fo;
                     ctrl_bFrameIndex := bFrameIndex fr;
                     ctrl_dwFrameInterval := fi;
                     dwMaxVideoFrameSize := 0 |})
     else (if quirk_set (quirks stream) UVC_QUIRK_PROBE_EXTRAFIELDS
           then set_dwMaxVideoFrameSize (dwMaxVideoFrameSize (ctrl stream))
                  {| bmHint := 1; bFormatIndex := index fo;
                     ctrl_bFrameIndex := bFrameIndex fr;
                     ctrl_dwFrameInterval := fi;
                     dwMaxVideoFrameSize := 0 |}
           else {| bmHint := 1; bFormatIndex := index fo;
                   ctrl_bFrameIndex := bFrameIndex fr;
                   ctrl_dwFrameInterval := fi;
                   dwMaxVideoFrameSize := 0 |}))
    = try_format_candidate stream fo fr fi).
  { unfold try_format_candidate.
    destruct (quirk_set (quirks stream) UVC_QUIRK_REDUCE_MEM_USAGE),
             (quirk_set (quirks stream) UVC_QUIRK_PROBE_EXTRAFIELDS);
      reflexivity. }
  cbv zeta in H. rewrite Hcand in H.
  destruct (uvc_probe_video _ _) as [[ret probe'] d] eqn:Hprobe.
  destruct (Z.ltb_spec ret 0);
    inversion H; subst t; clear H; cbn in Hret |- *; [lia |].
  exists fo, fr, fi. split_and!; auto.
Qed.

Lemma find_format_lookup formats pf fo : forall init,
  find_format formats pf init = Some fo -> fcc fo = pf ->
  lookup_format formats pf = Some fo \/ init = Some fo.
Proof.
  induction formats as [| f rest IH]; intros init H Hfcc; cbn in *.
  - right. exact H.
  - destruct (Z.eqb_spec (fcc f) pf) as [E | E]; [left; exact H |].
    destruct (IH _ H Hfcc) as [Hl | Hi]; [left; exact Hl |].
    inversion Hi; subst. contradiction.
Qed.

Lemma lookup_format_fcc formats pf fo :
  lookup_format formats pf = Some fo -> fo ∈ formats /\ fcc fo = pf.
Proof.
  induction formats as [| f rest IH]; cbn; [discriminate |].
  destruct (Z.eqb_spec (fcc f) pf) as [E | E].
  - intros H; inversion H; subst. split; [left | reflexivity].
  - intros H. destruct (IH H). split; [right |]; auto.
Qed.

Lemma lookup_frame_first l w h : forall k f,
  l !! k = Some f -> wWidth f = w -> wHeight f = h ->
  (forall j g, (j < k)%nat -> l !! j = Some g ->
     ~ (wWidth g = w /\ wHeight g = h)) ->
  lookup_frame l w h = Some f.
Proof.
  induction l as [| g l IH]; intros k f Hk Hw Hh Hfirst; [discriminate |].
  cbn [lookup_frame].
  destruct k as [| k].
  - inversion Hk; subst. rewrite !Z.eqb_refl. reflexivity.
  - destruct (Z.eqb_spec (wWidth g) w) as [Ew | Ew];
      destruct (Z.eqb_spec (wHeight g) h) as [Eh | Eh]; cbn [andb];
      try (apply (IH k f Hk Hw Hh); intros j g' Hj; apply (Hfirst (S j)); lia).
    exfalso. apply (Hfirst 0%nat g); [lia | reflexivity | auto].
Qed.

Lemma lookup_frame_dims l w h f :
  lookup_frame l w h = Some f -> f ∈ l /\ wWidth f = w /\ wHeight f = h.
Proof.
  induction l as [| g l IH]; cbn; [discriminate |].
  destruct (Z.eqb_spec (wWidth g) w) as [Ew | Ew];
    destruct (Z.eqb_spec (wHeight g) h) as [Eh | Eh]; cbn [andb];
    try (intros H; destruct (IH H) as (? & ? & ?); split; [right |]; auto).
  intros H; inversion H; subst. split; [left | auto].
Qed.

Lemma select_frame_lookup fo width height fr :
  frames_ok fo -> select_frame fo width height = Some fr ->
  lookup_frame (frame fo) (wWidth fr) (wHeight fr) = Some fr.
Proof.
  intros [Hok Hlen] Hsel.
  pose proof (size_scan_inv (u16 width) (u16 height) (u16_range _)
                (u16_range _) (frame fo) [] 0 UINT_MAX None
                (Forall_nil_2 _) Hok (conj eq_refl eq_refl)) as Hinv.
  rewrite app_nil_l in Hinv.
  change (snd (size_scan (frame fo) (u16 width) (u16 height) 0 UINT_MAX None))
    with (select_frame fo width height) in Hinv.
  rewrite Hsel in Hinv. destruct Hinv as (_ & k & Hk & Hmin).
  apply (lookup_frame_first _ _ _ k fr Hk eq_refl eq_refl).
  intros j g Hj Hg [Hw Hh].
  destruct (Hmin j g Hg) as [_ Hlt]. specialize (Hlt Hj).
  unfold frame_distance in Hlt. rewrite Hw, Hh in Hlt. lia.
Qed.

(** X5. [uvc_v4l2_try_format] is a dry run: the stream it leaves differs
    from the one it was given in the device state only; the block passed in
    by the caller does not influence the outcome; and on success the device
    was probed once, with hint 1, the indices of the selected format and
    frame, the frame's default interval snapped by [uvc_try_frame_interval],
    and a frame size that the reduced-memory quirk, when set, decides before
    the extra-fields quirk. *)
Theorem try_format_is_dry_run (stream : uvc_streaming) (fmt : v4l2_format)
    (probe : uvc_streaming_control) (t : try_format_out) :
  uvc_v4l2_try_format stream fmt probe = Done t ->
  tf_stream t = set_dev (dev (tf_stream t)) stream /\
  (forall probe', exists t',
     uvc_v4l2_try_format stream fmt probe' = Done t' /\
     tf_ret t' = tf_ret t /\ tf_fmt t' = tf_fmt t /\
     tf_stream t' = tf_stream t /\
     (0 <= tf_ret t -> tf_probe t' = tf_probe t)) /\
  (0 <= tf_ret t ->
   exists fo fr fi,
     tf_format t = Some fo /\ tf_frame t = Some fr /\
     uvc_try_frame_interval (Some fr) (dwDefaultFrameInterval fr) = Done fi /\
     uvc_probe_video (dev stream) (try_format_candidate stream fo fr fi)
       = (tf_ret t, tf_probe t, dev (tf_stream t))).
Proof.
  intros H.
  destruct (try_format_done _ _ _ _ H) as [[d Hd] _].
  split; [rewrite Hd; reflexivity |]. split.
  - intros probe'. revert H. unfold uvc_v4l2_try_format.
    destruct (negb (fmt_type fmt =? type stream));
      [intros H; inversion H; subst; eexists; split; [reflexivity |]; cbn;
       unfold EINVAL; split_and!; auto; lia |].
    destruct (find_format _ _ _) as [fo |];
      [| intros H; inversion H; subst; eexists; split; [reflexivity |]; cbn;
         unfold EINVAL; split_and!; auto; lia].
    destruct (negb (fcc fo =? _));
      [intros H; inversion H; subst; eexists; split; [reflexivity |]; cbn;
       unfold EINVAL; split_and!; auto; lia |].
    destruct (select_frame fo _ _) as [fr |];
      [| intros H; inversion H; subst; eexists; split; [reflexivity |]; cbn;
         unfold EINVAL; split_and!; auto; lia].
    destruct (uvc_try_frame_interval _ _) as [fi | e]; [| discriminate].
    cbn [bind]. cbv zeta.
    destruct (uvc_probe_video _ _) as [[ret p] d'].
    destruct (Z.ltb_spec ret 0) as [Hlt | Hge]; intros H; inversion H; subst;
      eexists; (split; [reflexivity |]); cbn; split_and!; auto; lia.
  - intros Hret.
    destruct (try_format_proposal _ _ _ _ H Hret)
      as (fo & fr & fi & _ & _ & _ & Hfi & Hp & Hfo & Hfr & _).
    exists fo, fr, fi. auto.
Qed.

(** X6. [VIDIOC_ENUM_FRAMESIZES] never faults: it returns 0 exactly when
    the first format with the requested fourcc has a frame at the requested
    index, and then reports that frame's size as a discrete size; otherwise
    it returns [-EINVAL] and leaves the argument as it was. *)
Theorem enum_framesizes_spec (stream : uvc_streaming)
    (fsize : v4l2_frmsizeenum) :
  0 <= fsize_index fsize ->
  exists ret out,
    do_ioctl_enum_framesizes stream fsize = Done (ret, out) /\
    (ret = 0 \/ ret = - EINVAL) /\
    (ret = - EINVAL -> out = fsize) /\
    (ret = 0 <->
     exists fo fr,
       lookup_format (format stream) (fsize_pixel_format fsize) = Some fo /\
       frame fo !! Z.to_nat (fsize_index fsize) = Some fr) /\
    (ret = 0 ->
     exists fo fr,
       fo ∈ format stream /\ fcc fo = fsize_pixel_format fsize /\
       frame fo !! Z.to_nat (fsize_index fsize) = Some fr /\
       fsize_width out = wWidth fr /\ fsize_height out = wHeight fr /\
       fsize_type out = V4L2_FRMSIZE_TYPE_DISCRETE /\
       fsize_index out = fsize_index fsize /\
       fsize_pixel_format out = fsize_pixel_format fsize).
Proof.
  intros Hidx. unfold do_ioctl_enum_framesizes.
  destruct (lookup_format _ _) as [fo |] eqn:Hfo.
  2:{ exists (- EINVAL), fsize. split; [reflexivity |].
      split; [auto |]. split; [auto |]. unfold EINVAL.
      split; [split; [lia | intros (? & ? & ? & _); discriminate] | lia]. }
  unfold nframes.
  destruct (Z.geb_spec (fsize_index fsize) (Z.of_nat (length (frame fo))))
    as [Hge | Hlt].
  { exists (- EINVAL), fsize. split; [reflexivity |].
    split; [auto |]. split; [auto |]. unfold EINVAL.
    split; [split; [lia |] | lia].
    intros (fo' & fr & Hfo' & Hfr). inversion Hfo'; subst fo'.
    apply lookup_lt_Some in Hfr. lia. }
  destruct (lookup_lt_is_Some_2 (frame fo) (Z.to_nat (fsize_index fsize)))
    as [fr Hfr]; [lia |].
  pose proof (idx_lookup _ _ _ Hfr) as Hidx'.
  rewrite Z2Nat.id in Hidx' by lia. rewrite Hidx'. cbn [bind].
  eexists _, _. split; [reflexivity |]. split; [auto |].
  split; [unfold EINVAL; lia |].
  split; [split; [intros _; exists fo, fr; auto | auto] |].
  intros _. destruct (lookup_format_fcc _ _ _ Hfo) as [Hin Hfcc].
  exists fo, fr. cbn. split_and!; auto.
Qed.

(** X7. The size a successful [uvc_v4l2_try_format] hands back is one that
    [VIDIOC_ENUM_FRAMESIZES] lists for the negotiated fourcc. *)
Theorem negotiated_size_enumerated (stream : uvc_streaming)
    (fmt : v4l2_format) (probe : uvc_streaming_control) (t : try_format_out) :
  uvc_v4l2_try_format stream fmt probe = Done t -> 0 <= tf_ret t ->
  exists index ty w h,
    0 <= index /\
    do_ioctl_enum_framesizes stream
      {| fsize_index := index;
         fsize_pixel_format := pix_pixelformat (fmt_pix (tf_fmt t));
         fsize_type := ty; fsize_width := w; fsize_height := h |}
    = Done (0, {| fsize_index := index;
                  fsize_pixel_format := pix_pixelformat (fmt_pix (tf_fmt t));
                  fsize_type := V4L2_FRMSIZE_TYPE_DISCRETE;
                  fsize_width := pix_width (fmt_pix (tf_fmt t));
                  fsize_height := pix_height (fmt_pix (tf_fmt t)) |}).
Proof.
  intros H Hret.
  destruct (try_format_proposal _ _ _ _ H Hret)
    as (fo & fr & fi & Hfo & Hfcc & Hsel & _ & _ & _ & _ & Hfmt).
  destruct (find_format_lookup _ _ _ _ Hfo Hfcc) as [Hl | ?]; [| discriminate].
  apply select_frame_in in Hsel. apply list_elem_of_lookup in Hsel as [k Hk].
  exists (Z.of_nat k), 0, 0, 0. split; [lia |].
  unfold do_ioctl_enum_framesizes. rewrite Hfmt. cbn.
  rewrite Hl. unfold nframes.
  pose proof (lookup_lt_Some _ _ _ Hk).
  destruct (Z.geb_spec (Z.of_nat k) (Z.of_nat (length (frame fo)))); [lia |].
  rewrite (idx_lookup _ _ _ Hk). reflexivity.
Qed.

End Enumerations.

Section Cropping.
Context `{C : Collaborators}.

(** X8. On a well-formed capability table, [VIDIOC_ENUM_FRAMEINTERVALS]
    asked about a negotiated fourcc and size consults the very frame that
    [uvc_v4l2_try_format] selected: for a frame with discrete intervals the
    interval proposed to the device is listed at some index, and for a frame
    with a range every index reports that frame's minimum, maximum and
    step. *)
Theorem negotiated_interval_enumerated (stream : uvc_streaming)
    (fmt : v4l2_format) (probe : uvc_streaming_control) (t : try_format_out) :
  Forall format_ok (format stream) ->
  uvc_v4l2_try_format stream fmt probe = Done t -> 0 <= tf_ret t ->
  exists fo fr fi,
    tf_format t = Some fo /\ tf_frame t = Some fr /\
    uvc_probe_video (dev stream) (try_format_candidate stream fo fr fi)
      = (tf_ret t, tf_probe t, dev (tf_stream t)) /\
    let ask index ty u :=
      {| fival_index := index;
         fival_pixel_format := pix_pixelformat (fmt_pix (tf_fmt t));
         fival_width := pix_width (fmt_pix (tf_fmt t));
         fival_height := pix_height (fmt_pix (tf_fmt t));
         fival_type := ty; fival_u := u |} in
    (discrete_frame fr ->
     exists index, 0 <= index < bFrameIntervalType fr /\
       forall ty u,
         do_ioctl_enum_frameintervals stream (ask index ty u)
         = Done (0, ask index V4L2_FRMIVAL_TYPE_DISCRETE
                      (frmival_discrete
                         (uvc_simplify_fraction fi 10000000 8 333)))) /\
    (stepwise_frame fr ->
     exists min max step rest,
       dwFrameInterval fr = min :: max :: step :: rest /\
       forall index ty u,
         do_ioctl_enum_frameintervals stream (ask index ty u)
         = Done (0, ask index V4L2_FRMIVAL_TYPE_STEPWISE
                      (frmival_stepwise
                         (uvc_simplify_fraction min 10000000 8 333)
                         (uvc_simplify_fraction max 10000000 8 333)
                         (uvc_simplify_fraction step 10000000 8 333)))).
Proof.
  intros Htbl H Hret.
  destruct (try_format_proposal _ _ _ _ H Hret)
    as (fo & fr & fi & Hfo & Hfcc & Hsel & Hfi & Hp & Htfo & Htfr & Hfmt).
  destruct (find_format_lookup _ _ _ _ Hfo Hfcc) as [Hl | ?]; [| discriminate].
  destruct (lookup_format_fcc _ _ _ Hl) as [Hin _].
  assert (Hfok : format_ok fo) by (eapply Forall_forall in Htbl; eauto).
  assert (Hframes : frames_ok fo).
  { destruct Hfok as [Hall Hn]. split; [| exact Hn].
    eapply Forall_impl; [exact Hall |]. intros f (Hd & _). exact Hd. }
  pose proof (select_frame_lookup _ _ _ _ Hframes Hsel) as Hlf.
  assert (Hfrok : frame_ok fr).
  { destruct Hfok as [Hall _]. eapply Forall_forall in Hall; [exact Hall |].
    eapply select_frame_in; eauto. }
  exists fo, fr, fi. split; [exact Htfo |]. split; [exact Htfr |].
  split; [exact Hp |]. cbv zeta. rewrite Hfmt. cbn [negotiated_fmt fmt_pix
    pix_pixelformat pix_width pix_height].
  split.
  - intros Hd. destruct Hfrok as (_ & Hdef & _).
    destruct (interval_discrete_spec fr _ Hd Hdef) as (k & v & Hv & Hk & _).
    rewrite Hfi in Hv. inversion Hv; subst v.
    pose proof (lookup_lt_Some _ _ _ Hk) as Hlt.
    destruct Hd as (Hty & Hlen & _).
    exists (Z.of_nat k). split; [lia |]. intros ty u.
    unfold do_ioctl_enum_frameintervals.
    cbn [fival_pixel_format fival_width fival_height fival_index].
    rewrite Hl, Hlf.
    destruct (Z.eqb_spec (bFrameIntervalType fr) 0); [lia |]. cbn [negb].
    destruct (Z.geb_spec (Z.of_nat k) (bFrameIntervalType fr)); [lia |].
    rewrite (idx_lookup _ _ _ Hk). reflexivity.
  - intros (Hty & min & max & step & rest & Htab & Hstep).
    exists min, max, step, rest. split; [exact Htab |]. intros index ty u.
    unfold do_ioctl_enum_frameintervals.
    cbn [fival_pixel_format fival_width fival_height fival_index].
    rewrite Hl, Hlf, Hty, Htab. cbn [Z.eqb negb].
    destruct (idx_triple min max step rest) as (-> & -> & ->). reflexivity.
Qed.

(** X9. After a successful [uvc_v4l2_set_format], [VIDIOC_CROPCAP] reports
    bounds and a default rectangle at the origin with the negotiated width
    and height, and a pixel aspect of 1/1. On a stream with no committed
    frame it dereferences [NULL], where [uvc_v4l2_get_format] returns
    [-EINVAL]. *)
Theorem cropcap_after_set_format (stream stream' : uvc_streaming)
    (fmt fmt' : v4l2_format) (ret : Z) (ccap : v4l2_cropcap) :
  ccap_type ccap = type stream ->
  (uvc_v4l2_set_format stream fmt = Done (ret, stream', fmt') -> 0 <= ret ->
   do_ioctl_cropcap stream' ccap
   = Done (0, {| ccap_type := ccap_type ccap;
                 ccap_bounds :=
                   {| rect_left := 0; rect_top := 0;
                      rect_width := pix_width (fmt_pix fmt');
                      rect_height := pix_height (fmt_pix fmt') |};
                 ccap_defrect :=
                   {| rect_left := 0; rect_top := 0;
                      rect_width := pix_width (fmt_pix fmt');
                      rect_height := pix_height (fmt_pix fmt') |};
                 ccap_pixelaspect := (1, 1) |})) /\
  (cur_frame stream = None ->
   do_ioctl_cropcap stream ccap = Oops NullDeref /\
   forall q, fst (uvc_v4l2_get_format stream q) = - EINVAL).
Proof.
  intros Hty. split.
  - intros Hset Hret.
    destruct (set_format_cases _ _ _ _ _ Hset)
      as [[Hneg _] | (_ & _ & t & Htry & Htret & Hcfg)]; [lia |].
    assert (Htype : type stream' = type stream).
    { revert Hset. unfold uvc_v4l2_set_format. rewrite Htry. cbn [bind].
      destruct (try_format_done _ _ _ _ Htry) as [[d Hd] _].
      destruct (negb (fmt_type fmt =? type stream));
        [intros E; inversion E; subst; reflexivity |].
      destruct (tf_ret t <? 0); [intros E; inversion E; subst;
                                  rewrite Hd; reflexivity |].
      destruct (uvc_queue_allocated _);
        intros E; inversion E; subst; cbn; rewrite Hd; reflexivity. }
    assert (Hfmt' : fmt' = tf_fmt t).
    { revert Hset. unfold uvc_v4l2_set_format. rewrite Htry. cbn [bind].
      destruct (negb (fmt_type fmt =? type stream));
        [intros E; inversion E; subst; unfold EINVAL in *; lia |].
      destruct (tf_ret t <? 0); [intros E; inversion E; subst; reflexivity |].
      destruct (uvc_queue_allocated _);
        intros E; inversion E; subst; reflexivity. }
    assert (Hret' : 0 <= tf_ret t) by lia.
    destruct (try_format_proposal _ _ _ _ Htry Hret')
      as (fo & fr & fi & _ & _ & _ & _ & _ & _ & Hfr & Hnf).
    unfold main_config in Hcfg. inversion Hcfg as [[Hc Hcf Hcfr]].
    unfold do_ioctl_cropcap. rewrite Htype, Hty, Z.eqb_refl. cbn [negb].
    rewrite Hcfr, Hfr. cbn [deref bind]. rewrite Hfmt', Hnf. reflexivity.
  - intros Hnone. split.
    + unfold do_ioctl_cropcap. rewrite Hty, Z.eqb_refl, Hnone. reflexivity.
    + intros q. unfold uvc_v4l2_get_format. rewrite Hnone.
      destruct (negb (fmt_type q =? type stream)); [reflexivity |].
      destruct (cur_format stream); reflexivity.
Qed.

End Cropping.

(** ** Opening and closing files *)

Section FileOperations.
Context `{C : Collaborators}.

Lemma users_round_trip u : 0 <= u < 2 ^ 31 - 1 -> s32 (s32 (u + 1) - 1) = u.
Proof.
  intros Hu. rewrite (s32_id (u + 1)) by lia.
  replace (u + 1 - 1) with u by lia. apply s32_id. lia.
Qed.

(** X10. [uvc_v4l2_open] touches only the device state and the user count.
    When it fails, the open files and the user count are as before (the
    count is taken back when the status endpoint does not start); when it
    succeeds it returns 0, the new handle is passive and the user count has
    grown by one. It fails when the handle cannot be allocated, and with
    [-ENODEV], changing nothing, on a disconnected device. *)
Theorem open_outcome (file : nat) (kzalloc_ok : bool) (w : uvc_world) :
  0 <= users (w_stream w) < 2 ^ 31 - 1 ->
  let r := uvc_v4l2_open file kzalloc_ok w in
  (exists d,
     w_stream (snd r)
     = set_users (users (w_stream (snd r))) (set_dev d (w_stream w))) /\
  (fst r < 0 ->
   w_files (snd r) = w_files w /\
   users (w_stream (snd r)) = users (w_stream w)) /\
  (0 <= fst r ->
   fst r = 0 /\
   w_files (snd r) = <[file := {| state := UVC_HANDLE_PASSIVE |}]> (w_files w) /\
   users (w_stream (snd r)) = users (w_stream w) + 1) /\
  (kzalloc_ok = false -> fst r < 0) /\
  (dev_disconnected (dev (w_stream w)) = true ->
   fst r = - ENODEV /\ snd r = w).
Proof.
  intros Hu r. subst r. unfold uvc_v4l2_open.
  destruct (dev_disconnected (dev (w_stream w))) eqn:Hdis.
  { cbn [fst snd w_stream w_files]. unfold ENODEV. split_and!; try lia; auto.
    - exists (dev (w_stream w)). destruct (w_stream w); reflexivity.
    - intros _. split; [reflexivity |]. destruct w; reflexivity. }
  destruct (usb_autopm_get_interface (dev (w_stream w))) as [ret d].
  destruct (Z.ltb_spec ret 0) as [Hret | Hret].
  { cbn [fst snd w_stream w_files]. split_and!; try lia; auto; try discriminate.
    exists d. destruct (w_stream w); reflexivity. }
  destruct kzalloc_ok; cbn [negb].
  2:{ cbn [fst snd w_stream w_files]. unfold ENOMEM.
      split_and!; try lia; auto; try discriminate.
      exists (usb_autopm_put_interface d). destruct (w_stream w); reflexivity. }
  cbn [users set_dev set_users dev].
  rewrite (s32_id (users (w_stream w) + 1)) by lia.
  destruct (Z.eqb_spec (users (w_stream w) + 1) 1) as [Hfirst | Hfirst].
  2:{ cbn [fst snd w_stream w_files users set_users].
      split_and!; try lia; auto; try discriminate.
      exists d. destruct (w_stream w); reflexivity. }
  destruct (uvc_status_start d) as [ret' d'].
  destruct (Z.ltb_spec ret' 0) as [Hret' | Hret'].
  - cbn [fst snd w_stream w_files users set_users set_dev dev].
    assert (Hback : s32 (users (w_stream w) + 1 - 1) = users (w_stream w))
      by (replace (users (w_stream w) + 1 - 1) with (users (w_stream w)) by lia;
          apply s32_id; lia).
    split_and!; try lia; auto; try discriminate.
    exists (usb_autopm_put_interface d'). destruct (w_stream w); reflexivity.
  - cbn [fst snd w_stream w_files users set_users set_dev dev].
    split_and!; try lia; auto; try discriminate.
    exists d'. destruct (w_stream w); reflexivity.
Qed.

(** X11. Opening a file and closing it again restores the open files and
    the whole stream, the device state apart: user count, privilege
    counter, queues and committed configurations are as before. *)
Theorem open_then_release (file : nat) (kzalloc_ok : bool)
    (w w1 : uvc_world) (ret : Z) :
  w_files w !! file = None ->
  0 <= users (w_stream w) < 2 ^ 31 - 1 ->
  uvc_v4l2_open file kzalloc_ok w = (ret, w1) -> 0 <= ret ->
  exists w2 d,
    uvc_v4l2_release file w1 = Done (0, w2) /\
    w_files w2 = w_files w /\
    w_stream w2 = set_dev d (w_stream w).
Proof.
  intros Hnew Hu Hopen Hret. revert Hopen. unfold uvc_v4l2_open.
  destruct (dev_disconnected (dev (w_stream w)));
    [intros E; inversion E; subst; unfold ENODEV in Hret; lia |].
  destruct (usb_autopm_get_interface (dev (w_stream w))) as [r0 d0].
  destruct (Z.ltb_spec r0 0) as [Hr0 | Hr0];
    [intros E; inversion E; subst; lia |].
  destruct kzalloc_ok; cbn [negb];
    [| intros E; inversion E; subst; unfold ENOMEM in Hret; lia].
  cbn [users set_dev set_users dev].
  set (started := if s32 (users (w_stream w) + 1) =? 1 then _ else _).
  assert (Hst : (exists e, started = inl e /\ fst e < 0) \/
                (exists d1, started
                   = inr (set_users (s32 (users (w_stream w) + 1))
                            (set_dev d1 (w_stream w))))).
  { subst started. destruct (s32 (users (w_stream w) + 1) =? 1).
    - destruct (uvc_status_start d0) as [r1 d1].
      destruct (Z.ltb_spec r1 0).
      + left. eexists. split; [reflexivity | assumption].
      + right. exists d1. destruct (w_stream w); reflexivity.
    - right. exists d0. destruct (w_stream w); reflexivity. }
  clearbody started.
  destruct Hst as [([r1 s1] & -> & Hneg) | (d1 & ->)];
    [intros E; inversion E; subst; cbn in Hneg; lia |].
  intros E; inversion E; subst ret w1; clear E.
  unfold uvc_v4l2_release. cbn [w_files w_stream].
  rewrite lookup_insert_eq. cbn [deref bind].
  unfold uvc_has_privileges. cbn [state].
  rewrite bool_decide_eq_false_2 by discriminate.
  rewrite dismiss_passive by reflexivity.
  cbn [users set_users set_dev dev].
  rewrite (users_round_trip _ Hu).
  destruct (users (w_stream w) =? 0); cbn [dev set_dev set_users];
    eexists _, _; (split; [reflexivity |]); cbn [w_files w_stream];
    (split; [apply delete_insert_id; exact Hnew |]);
    destruct (w_stream w); reflexivity.
Qed.

(** X12. [uvc_v4l2_release] always returns 0, removes the handle, lowers the
    user count and keeps the committed main and still configurations. For a
    passive handle both queues and the privilege counter are untouched; for
    a privileged handle streaming is disabled, the buffers of both queues
    are freed and the counter is lowered. *)
Theorem release_resources (file : nat) (w : uvc_world) (h : uvc_fh) :
  w_files w !! file = Some h ->
  exists w',
    uvc_v4l2_release file w = Done (0, w') /\
    w_files w' = delete file (w_files w) /\
    main_config (w_stream w') = main_config (w_stream w) /\
    still_config (w_stream w') = still_config (w_stream w) /\
    users (w_stream w') = s32 (users (w_stream w) - 1) /\
    (state h = UVC_HANDLE_PASSIVE ->
     queue (w_stream w') = queue (w_stream w) /\
     still_queue (w_stream w') = still_queue (w_stream w) /\
     active (w_stream w') = active (w_stream w)) /\
    (state h = UVC_HANDLE_ACTIVE ->
     queue (w_stream w')
     = snd (uvc_free_buffers
              (snd (uvc_video_enable (dev (w_stream w))
                      (queue (w_stream w)) 0))) /\
     still_queue (w_stream w')
     = snd (uvc_free_buffers (still_queue (w_stream w))) /\
     active (w_stream w') = s32 (active (w_stream w) - 1)).
Proof.
  intros Hh. unfold uvc_v4l2_release. rewrite Hh. cbn [deref bind].
  assert (Hcase : forall b (s0 : uvc_streaming),
            let s1 := if b : bool
                      then set_dev (uvc_status_stop (dev s0)) s0 else s0 in
            let s2 := set_dev (usb_autopm_put_interface (dev s1)) s1 in
            main_config s2 = main_config s0 /\
            still_config s2 = still_config s0 /\
            users s2 = users s0 /\ queue s2 = queue s0 /\
            still_queue s2 = still_queue s0 /\ active s2 = active s0).
  { intros b s0. destruct b; cbn; auto 10. }
  destruct (state_cases h) as [Hs | Hs].
  - unfold uvc_has_privileges.
    rewrite bool_decide_eq_false_2 by congruence.
    rewrite (dismiss_passive _ _ Hs).
    eexists. split; [reflexivity |]. cbn [w_files w_stream].
    match goal with
    | |- context [set_dev _ (if ?b then _ else ?s0)] =>
        destruct (Hcase b s0) as (H1 & H2 & H3 & H4 & H5 & H6)
    end.
    cbv zeta in H1, H2, H3, H4, H5, H6.
    rewrite H1, H2, H3, H4, H5, H6.
    split_and!; try reflexivity; intros; try congruence.
    split_and!; reflexivity.
  - unfold uvc_has_privileges.
    rewrite bool_decide_eq_true_2 by exact Hs.
    destruct (uvc_video_enable (dev (w_stream w)) (queue (w_stream w)) 0)
      as [[r1 d1] q1].
    cbn [queue set_queue set_dev still_queue snd].
    destruct (uvc_free_buffers q1) as [r2 q2].
    destruct (uvc_free_buffers (still_queue (w_stream w))) as [r3 q3].
    unfold uvc_dismiss_privileges.
    destruct (decide (state h = UVC_HANDLE_ACTIVE)); [| contradiction].
    eexists. split; [reflexivity |]. cbn [w_files w_stream].
    match goal with
    | |- context [set_dev _ (if ?b then _ else ?s0)] =>
        destruct (Hcase b s0) as (H1 & H2 & H3 & H4 & H5 & H6)
    end.
    cbv zeta in H1, H2, H3, H4, H5, H6.
    rewrite H1, H2, H3, H4, H5, H6.
    split_and!; try reflexivity; intros; try congruence.
    split_and!; reflexivity.
Qed.

End FileOperations.

(** ** Requests and the privilege *)

Section RequestFrame.
Context `{C : Collaborators}.

Lemma set_format_still_frame stream fmt :
  let s' := snd (uvc_v4l2_set_format_still stream fmt) in
  main_config s' = main_config stream /\ users s' = users stream /\
  active s' = active stream /\ queue s' = queue stream.
Proof.
  unfold uvc_v4l2_set_format_still, uvc_v4l2_try_format_still.
  repeat case_match; simplify_eq; cbn; auto.
Qed.

(** X13. Only the four requests that call [uvc_acquire_privileges], which
    are S_INPUT, S_PARM, S_FMT on the main pipeline and a well-formed
    REQBUFS on the main queue, can change who is privileged: every other
    request of [uvc_ioctl], whatever it returns, leaves all the handles,
    the privilege counter, the user count and the committed main
    configuration as they were. *)
Theorem other_requests_keep_privileges (file : nat) (nonblock : bool)
    (cmd arg : uvc_ioctl) (w w' : uvc_world) (ret : Z) :
  needs_privilege (w_stream w) cmd = false ->
  uvc_v4l2_do_ioctl file nonblock cmd w = Done (ret, arg, w') ->
  w_files w' = w_files w /\
  active (w_stream w') = active (w_stream w) /\
  users (w_stream w') = users (w_stream w) /\
  main_config (w_stream w') = main_config (w_stream w).
Proof.
  intros Hn H. unfold uvc_v4l2_do_ioctl in H.
  destruct (w_files w !! file) as [h |] eqn:Hh; [| discriminate].
  cbn [deref bind] in H.
  pose proof (insert_id _ _ _ Hh) as Hid.
  destruct cmd; cbn [needs_privilege] in Hn.
  - destruct (uvc_v4l2_try_format _ _ _) as [t |] eqn:Ht; [| discriminate].
    destruct (try_format_done _ _ _ _ Ht) as [[d Hd] _].
    inversion H; subst; cbn. rewrite Hd. auto.
  - apply negb_false_iff in Hn. rewrite Hn in H.
    pose proof (set_format_still_frame (w_stream w) fmt) as Hf.
    destruct (uvc_v4l2_set_format_still _ _) as [r s].
    cbv zeta in Hf. cbn [snd] in Hf. destruct Hf as (? & ? & ? & ?).
    inversion H; subst; cbn. auto.
  - destruct (uvc_v4l2_get_format _ _). inversion H; subst; cbn; auto.
  - destruct (uvc_v4l2_get_streamparm _ _). inversion H; subst; cbn; auto.
  - discriminate.
  - destruct (IS_STILL_MAGIC (rb_reserved0 rb)); cbn [negb andb] in Hn.
    + repeat case_match; simplify_eq; cbn; auto.
    + destruct (Z.eqb_spec (rb_type rb) (type (w_stream w)));
        destruct (Z.eqb_spec (rb_memory rb) V4L2_MEMORY_MMAP);
        cbn in Hn; try discriminate; cbn [negb orb] in H;
        inversion H; subst; cbn; auto.
  - repeat case_match; simplify_eq; cbn; auto.
  - repeat case_match; simplify_eq; cbn; auto.
  - repeat case_match; simplify_eq; cbn; auto.
  - repeat case_match; simplify_eq; cbn; auto.
  - repeat case_match; simplify_eq; cbn; auto.
  - discriminate.
Qed.

End RequestFrame.

Section RequestPrivileges.
Context `{C : Collaborators}.

(** X14. While another file is privileged, a passive handle's S_INPUT,
    S_PARM, S_FMT on the main pipeline or well-formed REQBUFS on the main
    queue returns [-EBUSY] before anything else is looked at, and changes
    nothing at all. *)
Theorem second_handle_refused (file other : nat) (nonblock : bool)
    (cmd : uvc_ioctl) (w : uvc_world) (h : uvc_fh) :
  exclusive w -> w_files w !! file = Some h ->
  state h = UVC_HANDLE_PASSIVE -> privileged w other ->
  needs_privilege (w_stream w) cmd = true ->
  uvc_v4l2_do_ioctl file nonblock cmd w = Done (- EBUSY, cmd, w).
Proof.
  intros Hex Hh Hs Hp Hn.
  pose proof (exclusive_passive w file h other Hex Hh Hs Hp) as Ha.
  pose proof (acquire_held h (w_stream w) Hs Ha) as Hacq.
  unfold uvc_v4l2_do_ioctl. rewrite Hh. cbn [deref bind].
  destruct cmd; cbn [needs_privilege] in Hn; try discriminate.
  - apply negb_true_iff in Hn. rewrite Hn, Hacq.
    change (- EBUSY <? 0) with true. cbn iota.
    rewrite (world_same w file h Hh). reflexivity.
  - rewrite Hacq. change (- EBUSY <? 0) with true. cbn iota.
    rewrite (world_same w file h Hh). reflexivity.
  - apply andb_true_iff in Hn as [Hn Hmem].
    apply andb_true_iff in Hn as [Hn Hty].
    apply negb_true_iff in Hn. rewrite Hn, Hty, Hmem. cbn [negb orb].
    rewrite Hacq. change (- EBUSY <? 0) with true. cbn iota.
    rewrite (world_same w file h Hh). reflexivity.
  - unfold do_ioctl_s_input. rewrite Hacq.
    change (- EBUSY <? 0) with true. cbn iota.
    rewrite (world_same w file h Hh). reflexivity.
Qed.

(** X15. When nobody else is privileged, S_FMT on the main pipeline,
    S_PARM and S_INPUT leave the calling handle privileged and the counter
    at 1 whatever they return, so also when the negotiation or the
    validation then fails; the other handles are untouched. *)
Theorem configuration_takes_privilege (file : nat) (nonblock : bool)
    (cmd arg : uvc_ioctl) (w w' : uvc_world) (h : uvc_fh) (ret : Z) :
  exclusive w -> w_files w !! file = Some h ->
  (forall other, privileged w other -> other = file) ->
  needs_privilege (w_stream w) cmd = true ->
  (forall rb, cmd <> VIDIOC_REQBUFS rb) ->
  uvc_v4l2_do_ioctl file nonblock cmd w = Done (ret, arg, w') ->
  privileged w' file /\ active (w_stream w') = 1 /\
  forall f, f <> file -> w_files w' !! f = w_files w !! f.
Proof.
  intros Hex Hh Honly Hn Hrb H.
  assert (Hacq : uvc_acquire_privileges h (w_stream w)
                 = (0, {| state := UVC_HANDLE_ACTIVE |},
                    set_active 1 (w_stream w))).
  { destruct (state_cases h) as [Hs | Hs].
    - apply acquire_free; [exact Hs |].
      destruct Hex as [[Ha _] | (_ & f & (hf & Hf & Hsf) & _)]; [exact Ha |].
      assert (f = file) by (apply Honly; exists hf; auto). subst f.
      congruence.
    - destruct (exclusive_holder w file h Hex Hh Hs) as [Ha _].
      rewrite (acquire_active h _ Hs), (set_active_same _ _ Ha).
      rewrite <- Hs, fh_eta. reflexivity. }
  unfold uvc_v4l2_do_ioctl in H. rewrite Hh in H. cbn [deref bind] in H.
  destruct cmd; cbn [needs_privilege] in Hn; try discriminate.
  - apply negb_true_iff in Hn. rewrite Hn, Hacq in H.
    change (0 <? 0) with false in H. cbn iota in H.
    destruct (uvc_v4l2_set_format _ _) as [[[r s] f'] |] eqn:Hset;
      [| discriminate].
    cbn [bind] in H. inversion H; subst ret arg w'; clear H.
    pose proof (set_format_active _ _ _ _ _ Hset) as Hact.
    cbn [w_stream w_files]. split.
    { unfold privileged. cbn [w_files]. eexists.
      rewrite lookup_insert_eq. split; reflexivity. }
    split; [rewrite Hact; reflexivity |].
    intros f Hf. apply lookup_insert_ne. congruence.
  - rewrite Hacq in H. change (0 <? 0) with false in H. cbn iota in H.
    destruct (uvc_v4l2_set_streamparm _ _) as [[[r s] p'] |] eqn:Hset;
      [| discriminate].
    cbn [bind] in H. inversion H; subst ret arg w'; clear H.
    pose proof (set_streamparm_active _ _ _ _ _ Hset) as Hact.
    cbn [w_stream w_files]. split.
    { unfold privileged. cbn [w_files]. eexists.
      rewrite lookup_insert_eq. split; reflexivity. }
    split; [rewrite Hact; reflexivity |].
    intros f Hf. apply lookup_insert_ne. congruence.
  - exfalso. apply (Hrb rb). reflexivity.
  - unfold do_ioctl_s_input in H. rewrite Hacq in H.
    change (0 <? 0) with false in H. cbn iota in H.
    assert (Hout : exists r s,
              Done (r, VIDIOC_S_INPUT input,
                    {| w_stream := s;
                       w_files := <[file := {| state := UVC_HANDLE_ACTIVE |}]>
                                    (w_files w) |}) = Done (ret, arg, w') /\
              active s = 1).
    { repeat case_match; simplify_eq; eexists _, _;
        (split; [reflexivity | reflexivity]). }
    destruct Hout as (r & s & E & Hact). inversion E; subst ret arg w'.
    cbn [w_stream w_files]. split.
    { unfold privileged. cbn [w_files]. eexists.
      rewrite lookup_insert_eq. split; reflexivity. }
    split; [exact Hact |].
    intros f Hf. apply lookup_insert_ne. congruence.
Qed.

(** X16. A well-formed REQBUFS on the main queue by a file nobody competes
    with stores the queue the allocator left. If the allocation fails the
    error is returned and the privilege stays held; if it yields 0 buffers
    the privilege is given up (handle passive, counter 0); if it yields
    [n > 0] buffers the count [n] is handed back and the privilege is
    kept. *)
Theorem reqbufs_privilege (file : nat) (nonblock : bool)
    (rb : v4l2_requestbuffers) (w : uvc_world) (h : uvc_fh) :
  exclusive w -> w_files w !! file = Some h ->
  (forall other, privileged w other -> other = file) ->
  needs_privilege (w_stream w) (VIDIOC_REQBUFS rb) = true ->
  let n := fst (uvc_alloc_buffers (queue (w_stream w)) (rb_count rb)
                  (dwMaxVideoFrameSize (ctrl (w_stream w)))) in
  let q := snd (uvc_alloc_buffers (queue (w_stream w)) (rb_count rb)
                  (dwMaxVideoFrameSize (ctrl (w_stream w)))) in
  exists ret arg w',
    uvc_v4l2_do_ioctl file nonblock (VIDIOC_REQBUFS rb) w
      = Done (ret, arg, w') /\
    queue (w_stream w') = q /\
    (n < 0 ->
     ret = n /\ arg = VIDIOC_REQBUFS rb /\
     privileged w' file /\ active (w_stream w') = 1) /\
    (n = 0 ->
     ret = 0 /\ arg = VIDIOC_REQBUFS (set_rb_count 0 rb) /\
     w_files w' !! file = Some {| state := UVC_HANDLE_PASSIVE |} /\
     active (w_stream w') = 0) /\
    (0 < n ->
     ret = 0 /\ arg = VIDIOC_REQBUFS (set_rb_count n rb) /\
     privileged w' file /\ active (w_stream w') = 1).
Proof.
  intros Hex Hh Honly Hn n q.
  assert (Hacq : uvc_acquire_privileges h (w_stream w)
                 = (0, {| state := UVC_HANDLE_ACTIVE |},
                    set_active 1 (w_stream w))).
  { destruct (state_cases h) as [Hs | Hs].
    - apply acquire_free; [exact Hs |].
      destruct Hex as [[Ha _] | (_ & f & (hf & Hf & Hsf) & _)]; [exact Ha |].
      assert (f = file) by (apply Honly; exists hf; auto). subst f.
      congruence.
    - destruct (exclusive_holder w file h Hex Hh Hs) as [Ha _].
      rewrite (acquire_active h _ Hs), (set_active_same _ _ Ha).
      rewrite <- Hs, fh_eta. reflexivity. }
  cbn [needs_privilege] in Hn.
  apply andb_true_iff in Hn as [Hn Hmem].
  apply andb_true_iff in Hn as [Hn Hty].
  apply negb_true_iff in Hn.
  unfold uvc_v4l2_do_ioctl. rewrite Hh. cbn [deref bind].
  rewrite Hn, Hty, Hmem. cbn [negb orb]. rewrite Hacq.
  change (0 <? 0) with false. cbn iota.
  cbn [queue ctrl set_active]. subst n q.
  destruct (uvc_alloc_buffers _ _ _) as [n q]. cbn [fst snd].
  assert (Hpriv : forall s,
            privileged {| w_stream := s;
                          w_files := <[file := {| state := UVC_HANDLE_ACTIVE |}]>
                                       (w_files w) |} file).
  { intros s. eexists. cbn. rewrite lookup_insert_eq. split; reflexivity. }
  destruct (Z.ltb_spec n 0) as [Hneg | Hpos].
  { eexists _, _, _. split; [reflexivity |]. cbn [w_stream w_files].
    split; [reflexivity |]. split_and!; intros; try lia.
    split_and!; auto. }
  destruct (Z.eqb_spec n 0) as [Hz | Hnz].
  - subst n. rewrite dismiss_active by reflexivity.
    eexists _, _, _. split; [reflexivity |]. cbn [w_stream w_files].
    split; [reflexivity |]. split_and!; intros; try lia.
    split_and!; auto. apply lookup_insert_eq.
  - eexists _, _, _. split; [reflexivity |]. cbn [w_stream w_files].
    split; [reflexivity |]. split_and!; intros; try lia.
    split_and!; auto.
Qed.

End RequestPrivileges.

(** ** Control transactions and input selection *)

Section ControlTransactions.
Context {chain : Type}.

Lemma ext_ctrls_loop_accepted
    (op : chain -> v4l2_ext_control -> Z * chain * v4l2_ext_control)
    c todo c' todo' :
  accepted op c todo c' todo' ->
  forall done i, ext_ctrls_loop op c done todo i = inr (c', done ++ todo').
Proof.
  induction 1 as [c | c c1 c' x x' rest rest' ret Hop Hret _ IH];
    intros done i; cbn [ext_ctrls_loop].
  - rewrite app_nil_r. reflexivity.
  - rewrite Hop. destruct (Z.ltb_spec ret 0); [lia |].
    rewrite IH, <- app_assoc. reflexivity.
Qed.

Lemma ext_ctrls_loop_refused
    (op : chain -> v4l2_ext_control -> Z * chain * v4l2_ext_control)
    x post ret c1 x' c pre ck pre' :
  accepted op c pre ck pre' -> op ck x = (ret, c1, x') -> ret < 0 ->
  forall done i,
    0 <= i -> i + Z.of_nat (length pre) < 2 ^ 32 ->
    ext_ctrls_loop op c done (pre ++ x :: post) i
    = inl (ret, i + Z.of_nat (length pre), c1, done ++ pre' ++ x' :: post).
Proof.
  intros Hacc Hx Hneg.
  induction Hacc as [c | c c2 c' y y' rest rest' r Hop Hr _ IH];
    intros done i Hi Hlen; cbn [app ext_ctrls_loop length] in *.
  - rewrite Hx. destruct (Z.ltb_spec ret 0); [| lia].
    replace (i + Z.of_nat 0) with i by lia. reflexivity.
  - rewrite Hop. destruct (Z.ltb_spec r 0); [lia |].
    rewrite (u32_id (i + 1)) by (unfold is_u32; lia).
    rewrite (IH Hx) by lia. rewrite <- app_assoc.
    replace (i + 1 + Z.of_nat (length rest)) with
      (i + Z.of_nat (S (length rest))) by lia.
    reflexivity.
Qed.

Lemma accepted_or_refused
    (op : chain -> v4l2_ext_control -> Z * chain * v4l2_ext_control) ctrls :
  forall c,
    (exists c' ctrls', accepted op c ctrls c' ctrls') \/
    (exists pre x post ret c1 pre' x',
       ctrls = pre ++ x :: post /\ refused_at op c pre x ret c1 pre' x').
Proof.
  induction ctrls as [| x rest IH]; intros c.
  - left. exists c, []. constructor.
  - destruct (op c x) as [[ret c1] x'] eqn:Hop.
    destruct (Z.ltb_spec ret 0) as [Hneg | Hpos].
    + right. exists [], x, rest, ret, c1, [], x'. split; [reflexivity |].
      exists c. split; [constructor | auto].
    + destruct (IH c1) as [(c' & l' & Hacc)
                          | (pre & y & post & r & c2 & pre' & y' & -> & ck
                             & Hacc & Hy & Hr)].
      * left. exists c', (x' :: l'). econstructor; eauto.
      * right. exists (x :: pre), y, post, r, c2, (x' :: pre'), y'.
        split; [reflexivity |]. exists ck.
        split; [econstructor; eauto | auto].
Qed.

Lemma accepted_not_refused
    (op : chain -> v4l2_ext_control -> Z * chain * v4l2_ext_control)
    c ctrls c' ctrls' :
  accepted op c ctrls c' ctrls' ->
  forall pre x post ret c1 pre' x',
    ctrls = pre ++ x :: post -> refused_at op c pre x ret c1 pre' x' -> False.
Proof.
  induction 1 as [c | c c1 c' y y' rest rest' r Hop Hr _ IH];
    intros pre x post ret c2 pre' x' E (ck & Hacc & Hx & Hneg).
  - destruct pre; discriminate.
  - destruct pre as [| z pre]; cbn in E; inversion E; subst.
    + inversion Hacc; subst. rewrite Hop in Hx. inversion Hx; subst. lia.
    + inversion Hacc; subst.
      match goal with
      | H1 : op c z = _, H2 : accepted op _ pre ck _ |- _ =>
          rewrite Hop in H1; inversion H1; subst;
          eapply IH; [reflexivity | exists ck; eauto]
      end.
Qed.

Lemma transaction_loop (ops : uvc_ctrl_ops chain)
    (op : chain -> v4l2_ext_control -> Z * chain * v4l2_ext_control)
    (close : chain -> Z * chain) c0 ctrls :
  Z.of_nat (length ctrls) < 2 ^ 32 ->
  transaction_outcome ops op close c0 ctrls
    match ext_ctrls_loop op c0 [] ctrls 0 with
    | inl (ret, i, c, controls) =>
        let '(_, c) := uvc_ctrl_rollback ops c in
        (ret, {| xcs_error_idx := i; xcs_controls := controls |}, c)
    | inr (c, controls) =>
        let '(ret, c) := close c in
        (ret, {| xcs_error_idx := 0; xcs_controls := controls |}, c)
    end.
Proof.
  intros Hlen. split; [| split].
  - intros c' l' Hacc.
    rewrite (ext_ctrls_loop_accepted op _ _ _ _ Hacc). cbn [app].
    destruct (close c'). reflexivity.
  - intros pre x post ret c1 pre' x' -> (ck & Hacc & Hx & Hneg).
    rewrite length_app in Hlen. cbn [length] in Hlen.
    rewrite (ext_ctrls_loop_refused op x post ret c1 x' c0 pre ck pre'
               Hacc Hx Hneg) by lia.
    cbn [app]. destruct (uvc_ctrl_rollback ops c1). reflexivity.
  - apply accepted_or_refused.
Qed.

(** X17. A control transaction ends in [uvc_ctrl_commit] exactly when it
    was begun by S_EXT_CTRLS or S_CTRL and every control of the request was
    accepted, and then the value of the commit is returned. When a control
    is refused, the transaction is rolled back, the error of the refusal is
    returned, and for the extended requests the error index is the position
    of the first refused control, the controls before it being as the calls
    left them and those after it as they came. TRY_EXT_CTRLS, G_EXT_CTRLS
    and G_CTRL always end in a rollback, and a request whose
    [uvc_ctrl_begin] fails returns that error with its argument untouched.
    For every request one of the two cases applies, and only one. *)
Theorem ctrl_transactions (ops : uvc_ctrl_ops chain) (c : chain)
    (ctrls : v4l2_ext_controls) (ctrl : v4l2_control) :
  Z.of_nat (length (xcs_controls ctrls)) < 2 ^ 32 ->
  let r0 := fst (uvc_ctrl_begin ops c) in
  let c0 := snd (uvc_ctrl_begin ops c) in
  (r0 < 0 ->
   do_ioctl_s_ext_ctrls ops false c ctrls = (r0, ctrls, c0) /\
   do_ioctl_s_ext_ctrls ops true c ctrls = (r0, ctrls, c0) /\
   do_ioctl_g_ext_ctrls ops c ctrls = (r0, ctrls, c0) /\
   do_ioctl_s_ctrl ops c ctrl = (r0, ctrl, c0) /\
   do_ioctl_g_ctrl ops c ctrl = (r0, ctrl, c0)) /\
  (0 <= r0 ->
   transaction_outcome ops (uvc_ctrl_set ops) (uvc_ctrl_commit ops) c0
     (xcs_controls ctrls) (do_ioctl_s_ext_ctrls ops false c ctrls) /\
   transaction_outcome ops (uvc_ctrl_set ops) (uvc_ctrl_rollback ops) c0
     (xcs_controls ctrls) (do_ioctl_s_ext_ctrls ops true c ctrls) /\
   transaction_outcome ops (uvc_ctrl_get ops) (uvc_ctrl_rollback ops) c0
     (xcs_controls ctrls) (do_ioctl_g_ext_ctrls ops c ctrls) /\
   (forall ret c1 x',
      uvc_ctrl_set ops c0
        {| xc_id := ctl_id ctrl; xc_value := ctl_value ctrl |}
      = (ret, c1, x') ->
      do_ioctl_s_ctrl ops c ctrl
      = if ret <? 0 then (ret, ctrl, snd (uvc_ctrl_rollback ops c1))
        else (fst (uvc_ctrl_commit ops c1),
              (if fst (uvc_ctrl_commit ops c1) =? 0
               then {| ctl_id := ctl_id ctrl; ctl_value := xc_value x' |}
               else ctrl),
              snd (uvc_ctrl_commit ops c1))) /\
   (forall ret c1 x',
      uvc_ctrl_get ops c0 {| xc_id := ctl_id ctrl; xc_value := 0 |}
      = (ret, c1, x') ->
      do_ioctl_g_ctrl ops c ctrl
      = (ret,
         (if ret >=? 0
          then {| ctl_id := ctl_id ctrl; ctl_value := xc_value x' |}
          else ctrl),
         snd (uvc_ctrl_rollback ops c1)))) /\
  (forall (op : chain -> v4l2_ext_control -> Z * chain * v4l2_ext_control)
          c1 l c' l' pre x post ret c2 pre' x',
     accepted op c1 l c' l' -> l = pre ++ x :: post ->
     refused_at op c1 pre x ret c2 pre' x' -> False).
Proof.
  intros Hlen r0 c0. subst r0 c0.
  unfold do_ioctl_s_ext_ctrls, do_ioctl_g_ext_ctrls, do_ioctl_s_ctrl,
    do_ioctl_g_ctrl.
  destruct (uvc_ctrl_begin ops c) as [r0 c0]. cbn [fst snd].
  split; [| split].
  - intros Hneg. destruct (Z.ltb_spec r0 0); [| lia]. auto.
  - intros Hpos. destruct (Z.ltb_spec r0 0); [lia |].
    split; [apply (transaction_loop ops), Hlen |].
    split; [apply (transaction_loop ops), Hlen |].
    split; [apply (transaction_loop ops), Hlen |].
    split.
    + intros ret c1 x' ->. destruct (ret <? 0).
      * destruct (uvc_ctrl_rollback ops c1). reflexivity.
      * destruct (uvc_ctrl_commit ops c1) as [r2 c2]. cbn [fst snd].
        destruct (r2 =? 0); reflexivity.
    + intros ret c1 x' ->. destruct (uvc_ctrl_rollback ops c1).
      cbn [snd]. destruct (ret >=? 0); reflexivity.
  - intros op c1 l c' l' pre x post ret c2 pre' x' Hacc E Href.
    eapply accepted_not_refused; eauto.
Qed.

End ControlTransactions.

Section InputSelection.
Context `{C : Collaborators}.
Variable uvc_query_ctrl :
  uvc_device -> Z -> Z -> Z -> Z -> list Z -> Z * uvc_device * list Z.
Variable UVC_QUIRK_IGNORE_SELECTOR_UNIT : Z.

(** X18. S_INPUT takes the privilege before it validates its argument: a
    passive handle on a free stream is privileged afterwards also when the
    input is refused. Without a selector unit (or with the quirk that
    ignores it) only input 0 is accepted; with a selector of [n] pins the
    inputs below [n] are sent to the device as the byte [input + 1], and all
    the others, the one that wraps to 0 included, get [-EINVAL]. *)
Theorem s_input_validation (chain : uvc_video_chain) (arg : Z)
    (h : uvc_fh) (s : uvc_streaming) :
  state h = UVC_HANDLE_PASSIVE -> active s = 0 -> is_u32 arg ->
  let r := do_ioctl_s_input uvc_query_ctrl UVC_QUIRK_IGNORE_SELECTOR_UNIT
             chain arg h s in
  let held := {| state := UVC_HANDLE_ACTIVE |} in
  snd (fst r) = held /\ active (snd r) = 1 /\
  (selector chain = None \/
   quirk_set (quirks s) UVC_QUIRK_IGNORE_SELECTOR_UNIT = true ->
   (arg = 0 -> r = (0, held, set_active 1 s)) /\
   (arg <> 0 -> r = (- EINVAL, held, set_active 1 s))) /\
  (forall sel,
     selector chain = Some sel ->
     quirk_set (quirks s) UVC_QUIRK_IGNORE_SELECTOR_UNIT = false ->
     0 <= bNrInPins sel < 2 ^ 8 ->
     (bNrInPins sel <= arg -> r = (- EINVAL, held, set_active 1 s)) /\
     (arg < bNrInPins sel ->
      r = (fst (fst (uvc_query_ctrl (dev s) UVC_SET_CUR (entity_id sel)
                       (intfnum chain) UVC_SU_INPUT_SELECT_CONTROL
                       [arg + 1])),
           held,
           set_dev (snd (fst (uvc_query_ctrl (dev s) UVC_SET_CUR
                                (entity_id sel) (intfnum chain)
                                UVC_SU_INPUT_SELECT_CONTROL [arg + 1])))
             (set_active 1 s)))).
Proof.
  intros Hs Ha Harg r held. subst r. unfold do_ioctl_s_input.
  rewrite (acquire_free h s Hs Ha). change (0 <? 0) with false. cbn iota.
  fold held. cbn [quirks set_active dev].
  assert (Hin : arg < 2 ^ 32 - 1 -> u32 (arg + 1) = arg + 1).
  { intros. apply u32_id. unfold is_u32 in *. lia. }
  assert (Hwrap : arg = 2 ^ 32 - 1 -> u32 (arg + 1) = 0).
  { intros ->. reflexivity. }
  assert (Hone : arg = 0 <-> u32 (arg + 1) = 1).
  { destruct (Z.eq_dec arg (2 ^ 32 - 1)) as [E | E].
    - rewrite (Hwrap E). subst arg. split; [intros; lia | intros; lia].
    - rewrite Hin by (unfold is_u32 in Harg; lia). lia. }
  assert (Hnosel :
    (if negb (u32 (arg + 1) =? 1) then (- EINVAL, held, set_active 1 s)
     else (0, held, set_active 1 s))
    = if decide (arg = 0) then (0, held, set_active 1 s)
      else (- EINVAL, held, set_active 1 s)).
  { destruct (decide (arg = 0)) as [E | E].
    - apply Hone in E. rewrite E. reflexivity.
    - destruct (Z.eqb_spec (u32 (arg + 1)) 1) as [E1 | E1]; [| reflexivity].
      apply Hone in E1. contradiction. }
  rewrite Hnosel. clear Hnosel.
  split_and!.
  - repeat case_match; reflexivity.
  - repeat case_match; reflexivity.
  - intros [Hnone | Hq].
    + rewrite Hnone. destruct (decide (arg = 0)); split; intros; congruence.
    + rewrite Hq. destruct (selector chain);
        destruct (decide (arg = 0)); split; intros; congruence.
  - intros sel Hsel Hq Hpins. rewrite Hsel, Hq. split.
    + intros Hge.
      destruct (Z.eq_dec arg (2 ^ 32 - 1)) as [E | E].
      * rewrite (Hwrap E). reflexivity.
      * rewrite Hin by (unfold is_u32 in Harg; lia).
        destruct (Z.eqb_spec (arg + 1) 0); [reflexivity |].
        destruct (Z.gtb_spec (arg + 1) (bNrInPins sel)); [reflexivity | lia].
    + intros Hlt. unfold is_u32 in Harg.
      rewrite Hin by lia.
      destruct (Z.eqb_spec (arg + 1) 0); [lia |].
      destruct (Z.gtb_spec (arg + 1) (bNrInPins sel)); [lia |].
      cbn [orb].
      assert (Hu8 : u8 (arg + 1) = arg + 1).
      { unfold u8. apply Z.mod_small. lia. }
      rewrite Hu8.
      destruct (uvc_query_ctrl _ _ _ _ _ _) as [[ret d] data]. reflexivity.
Qed.

End InputSelection.

(** ** Further scenarios *)

Section ScenariosNegotiation.

#[local] Existing Instance Bench.collaborators.

Lemma get_still_idx_first_match_witness :
  uvc_v4l2_get_still_idx
    (Bench.request Bench.YUYV 800 600 Bench.STILL_MAGIC) (Some Bench.yuyv) = 1.
Proof.
  destruct (get_still_idx_first_match
              (Bench.request Bench.YUYV 800 600 Bench.STILL_MAGIC) Bench.yuyv)
    as [Hfound _].
  - cbn. lia.
  - apply (Hfound 0%nat {| still_wWidth := 800; still_wHeight := 600 |}).
    + reflexivity.
    + split; reflexivity.
    + intros j e' Hj. lia.
Defined.

Lemma set_format_still_commits_null_witness :
  still_format
    (snd (uvc_v4l2_set_format_still (Bench.stream0 true)
            (Bench.request Bench.YUYV 800 600 Bench.STILL_MAGIC))) = None.
Proof.
  destruct (set_format_still_commits_null (Bench.stream0 true)
              (Bench.request Bench.YUYV 800 600 Bench.STILL_MAGIC))
    as (H & _).
  - pose proof (eq_refl : fst (uvc_v4l2_set_format_still (Bench.stream0 true)
                  (Bench.request Bench.YUYV 800 600 Bench.STILL_MAGIC)) = 0)
      as E.
    rewrite E. lia.
  - exact H.
Defined.

Lemma try_format_is_dry_run_witness :
  exists t,
    uvc_v4l2_try_format (Bench.stream0 true)
      (Bench.request Bench.YUYV 700 480 0) zero_ctrl = Done t /\
    tf_stream t = set_dev (dev (tf_stream t)) (Bench.stream0 true).
Proof.
  eexists. split; [reflexivity |].
  eapply (try_format_is_dry_run (Bench.stream0 true)
            (Bench.request Bench.YUYV 700 480 0) zero_ctrl).
  reflexivity.
Defined.

Lemma get_format_after_set_format_witness :
  exists stream' fmt',
    uvc_v4l2_set_format (Bench.stream0 true)
      (Bench.request Bench.YUYV 700 480 0) = Done (0, stream', fmt') /\
    uvc_v4l2_get_format stream' (Bench.request 0 0 0 0)
    = (0, {| fmt_type := V4L2_BUF_TYPE_VIDEO_CAPTURE;
             fmt_pix := fmt_pix fmt' |}).
Proof.
  eexists _, _. split; [reflexivity |].
  apply (get_format_after_set_format (Bench.stream0 true) _
           (Bench.request Bench.YUYV 700 480 0) _ (Bench.request 0 0 0 0) 0).
  - reflexivity.
  - lia.
  - reflexivity.
Defined.

Lemma get_streamparm_after_set_streamparm_witness :
  exists stream' parm',
    uvc_v4l2_set_streamparm Fixtures.configured Bench.parm30
      = Done (0, stream', parm') /\
    uvc_v4l2_get_streamparm stream' Bench.parm30 = (0, parm').
Proof.
  eexists _, _. split; [reflexivity |].
  eapply (get_streamparm_after_set_streamparm Fixtures.configured _
            Bench.parm30 _ Bench.parm30 0).
  - reflexivity.
  - lia.
  - reflexivity.
Defined.

Lemma interval_discrete_nearest_witness :
  exists v,
    uvc_try_frame_interval (Some Bench.frame_vga) 400000 = Done v /\
    v ∈ dwFrameInterval Bench.frame_vga /\
    forall j b, dwFrameInterval Bench.frame_vga !! j = Some b ->
      Z.abs (400000 - v) <= Z.abs (400000 - b).
Proof.
  apply (interval_discrete_nearest Bench.frame_vga 400000).
  - split; [cbn; lia |]. split; [reflexivity |].
    repeat constructor; unfold is_u32; lia.
  - unfold is_u32. lia.
  - intros i j a b Hij Ha Hb.
    destruct i as [| [| i]]; destruct j as [| [| j]];
      cbn in Ha, Hb; try discriminate; try lia;
      inversion Ha; inversion Hb; subst; lia.
Defined.

Lemma try_frame_interval_stepwise_in_range_witness :
  exists v,
    uvc_try_frame_interval (Some Fixtures.frame_range) 333 = Done v /\
    v = Z.min 1000 (100 + (333 - 100 + 50 / 2) / 50 * 50) /\
    100 <= v <= 1000 /\
    (v = 1000 \/ exists k, 0 <= k /\ v = 100 + k * 50).
Proof.
  apply (try_frame_interval_stepwise_in_range Fixtures.frame_range
           100 1000 50 []); try reflexivity; try lia.
Defined.

End ScenariosNegotiation.

Section ScenariosFiles.

#[local] Existing Instance Bench.collaborators.

Lemma enum_framesizes_spec_witness :
  exists ret out,
    do_ioctl_enum_framesizes (Bench.stream0 true)
      {| fsize_index := 1; fsize_pixel_format := Bench.YUYV;
         fsize_type := 0; fsize_width := 0; fsize_height := 0 |}
    = Done (ret, out) /\ (ret = 0 \/ ret = - EINVAL).
Proof.
  destruct (enum_framesizes_spec (Bench.stream0 true)
              {| fsize_index := 1; fsize_pixel_format := Bench.YUYV;
                 fsize_type := 0; fsize_width := 0; fsize_height := 0 |})
    as (ret & out & H & Hret & _).
  - cbn. lia.
  - exists ret, out. split; assumption.
Defined.

Lemma negotiated_size_enumerated_witness :
  exists t index ty w h,
    uvc_v4l2_try_format (Bench.stream0 true)
      (Bench.request Bench.YUYV 700 480 0) zero_ctrl = Done t /\
    0 <= index /\
    do_ioctl_enum_framesizes (Bench.stream0 true)
      {| fsize_index := index;
         fsize_pixel_format := pix_pixelformat (fmt_pix (tf_fmt t));
         fsize_type := ty; fsize_width := w; fsize_height := h |}
    = Done (0, {| fsize_index := index;
                  fsize_pixel_format := pix_pixelformat (fmt_pix (tf_fmt t));
                  fsize_type := V4L2_FRMSIZE_TYPE_DISCRETE;
                  fsize_width := pix_width (fmt_pix (tf_fmt t));
                  fsize_height := pix_height (fmt_pix (tf_fmt t)) |}).
Proof.
  destruct (uvc_v4l2_try_format (Bench.stream0 true)
              (Bench.request Bench.YUYV 700 480 0) zero_ctrl)
    as [t | e] eqn:Ht; [| discriminate Ht].
  assert (Hret : 0 <= tf_ret t).
  { pose proof (eq_refl :
      match uvc_v4l2_try_format (Bench.stream0 true)
              (Bench.request Bench.YUYV 700 480 0) zero_ctrl with
      | Done t => tf_ret t
      | Oops _ => -1
      end = 0) as E.
    rewrite Ht in E. rewrite E. lia. }
  destruct (negotiated_size_enumerated (Bench.stream0 true)
              (Bench.request Bench.YUYV 700 480 0) zero_ctrl t Ht Hret)
    as (index & ty & w & h & Hi & H).
  exists t, index, ty, w, h. auto.
Defined.

Lemma negotiated_interval_enumerated_witness :
  exists t fo fr,
    uvc_v4l2_try_format (Bench.stream0 true)
      (Bench.request Bench.YUYV 700 480 0) zero_ctrl = Done t /\
    tf_format t = Some fo /\ tf_frame t = Some fr.
Proof.
  destruct (uvc_v4l2_try_format (Bench.stream0 true)
              (Bench.request Bench.YUYV 700 480 0) zero_ctrl)
    as [t | e] eqn:Ht; [| discriminate Ht].
  assert (Hret : 0 <= tf_ret t).
  { pose proof (eq_refl :
      match uvc_v4l2_try_format (Bench.stream0 true)
              (Bench.request Bench.YUYV 700 480 0) zero_ctrl with
      | Done t => tf_ret t
      | Oops _ => -1
      end = 0) as E.
    rewrite Ht in E. rewrite E. lia. }
  destruct (negotiated_interval_enumerated (Bench.stream0 true)
              (Bench.request Bench.YUYV 700 480 0) zero_ctrl t
              bench_table_ok Ht Hret)
    as (fo & fr & fi & Hfo & Hfr & _).
  exists t, fo, fr. auto.
Defined.

Lemma cropcap_after_set_format_witness :
  exists stream' fmt',
    uvc_v4l2_set_format (Bench.stream0 true)
      (Bench.request Bench.YUYV 700 480 0) = Done (0, stream', fmt') /\
    do_ioctl_cropcap stream'
      {| ccap_type := V4L2_BUF_TYPE_VIDEO_CAPTURE;
         ccap_bounds := {| rect_left := 0; rect_top := 0;
                           rect_width := 0; rect_height := 0 |};
         ccap_defrect := {| rect_left := 0; rect_top := 0;
                            rect_width := 0; rect_height := 0 |};
         ccap_pixelaspect := (0, 0) |}
    = Done (0, {| ccap_type := V4L2_BUF_TYPE_VIDEO_CAPTURE;
                  ccap_bounds := {| rect_left := 0; rect_top := 0;
                                    rect_width := 640; rect_height := 480 |};
                  ccap_defrect := {| rect_left := 0; rect_top := 0;
                                     rect_width := 640; rect_height := 480 |};
                  ccap_pixelaspect := (1, 1) |}).
Proof.
  destruct (uvc_v4l2_set_format (Bench.stream0 true)
              (Bench.request Bench.YUYV 700 480 0))
    as [[[r s'] f'] | e] eqn:Hset; [| discriminate Hset].
  pose proof (eq_refl :
    match uvc_v4l2_set_format (Bench.stream0 true)
            (Bench.request Bench.YUYV 700 480 0) with
    | Done (r, _, f') => (r, pix_width (fmt_pix f'), pix_height (fmt_pix f'))
    | Oops _ => (-1, 0, 0)
    end = (0, 640, 480)) as E.
  rewrite Hset in E. inversion E as [[Hr Hw Hh]]. subst r.
  exists s', f'. split; [reflexivity |].
  rewrite (proj1 (cropcap_after_set_format (Bench.stream0 true) s'
                    (Bench.request Bench.YUYV 700 480 0) f' 0
                    {| ccap_type := V4L2_BUF_TYPE_VIDEO_CAPTURE;
                       ccap_bounds := {| rect_left := 0; rect_top := 0;
                                         rect_width := 0; rect_height := 0 |};
                       ccap_defrect := {| rect_left := 0; rect_top := 0;
                                          rect_width := 0; rect_height := 0 |};
                       ccap_pixelaspect := (0, 0) |} eq_refl) Hset)
    by lia.
  rewrite Hw, Hh. reflexivity.
Defined.

Lemma open_outcome_witness :
  fst (uvc_v4l2_open 3 true (Bench.world0 true)) = 0 /\
  users (w_stream (snd (uvc_v4l2_open 3 true (Bench.world0 true)))) = 3.
Proof.
  destruct (open_outcome 3 true (Bench.world0 true)) as (_ & _ & Hok & _).
  - cbn. lia.
  - cbv zeta in Hok. destruct Hok as (H0 & _ & Hu).
    + pose proof (eq_refl : fst (uvc_v4l2_open 3 true (Bench.world0 true)) = 0)
        as E.
      rewrite E. lia.
    + split; [exact H0 | exact Hu].
Defined.

Lemma open_then_release_witness :
  exists w1 w2 d,
    uvc_v4l2_open 3 true (Bench.world0 true) = (0, w1) /\
    uvc_v4l2_release 3 w1 = Done (0, w2) /\
    w_files w2 = w_files (Bench.world0 true) /\
    w_stream w2 = set_dev d (w_stream (Bench.world0 true)).
Proof.
  destruct (open_then_release 3 true (Bench.world0 true)
              (snd (uvc_v4l2_open 3 true (Bench.world0 true))) 0)
    as (w2 & d & H).
  - reflexivity.
  - cbn. lia.
  - reflexivity.
  - lia.
  - exists (snd (uvc_v4l2_open 3 true (Bench.world0 true))), w2, d.
    split; [reflexivity | exact H].
Defined.

Lemma release_resources_witness :
  exists w',
    uvc_v4l2_release 1 (Bench.world1 true) = Done (0, w') /\
    main_config (w_stream w') = main_config (w_stream (Bench.world1 true)).
Proof.
  destruct (release_resources 1 (Bench.world1 true)
              {| state := UVC_HANDLE_ACTIVE |})
    as (w' & H & _ & Hcfg & _).
  - reflexivity.
  - exists w'. split; assumption.
Defined.

End ScenariosFiles.

Section ScenariosRequests.

#[local] Existing Instance Bench.collaborators.

Lemma bench_world0_free other : privileged (Bench.world0 true) other -> False.
Proof.
  destruct bench_world0_exclusive as [[_ Hnone] | [Ha _]].
  - apply Hnone.
  - discriminate Ha.
Qed.

Lemma other_requests_keep_privileges_witness :
  exists ret arg w',
    uvc_v4l2_do_ioctl 2 false
      (VIDIOC_TRY_FMT (Bench.request Bench.YUYV 700 480 0)) (Bench.world1 true)
    = Done (ret, arg, w') /\
    w_files w' = w_files (Bench.world1 true) /\
    active (w_stream w') = 1.
Proof.
  destruct (uvc_v4l2_do_ioctl 2 false
              (VIDIOC_TRY_FMT (Bench.request Bench.YUYV 700 480 0))
              (Bench.world1 true))
    as [[[ret arg] w'] | e] eqn:H; [| discriminate H].
  exists ret, arg, w'. split; [reflexivity |].
  destruct (other_requests_keep_privileges 2 false
              (VIDIOC_TRY_FMT (Bench.request Bench.YUYV 700 480 0)) arg
              (Bench.world1 true) w' ret eq_refl H)
    as (Hf & Ha & _).
  split; [exact Hf | rewrite Ha; reflexivity].
Defined.

Lemma second_handle_refused_witness :
  uvc_v4l2_do_ioctl 2 false (VIDIOC_S_PARM Bench.parm30) (Bench.world1 true)
  = Done (- EBUSY, VIDIOC_S_PARM Bench.parm30, Bench.world1 true).
Proof.
  apply (second_handle_refused 2 1 false (VIDIOC_S_PARM Bench.parm30)
           (Bench.world1 true) {| state := UVC_HANDLE_PASSIVE |}).
  - exact bench_world1_exclusive.
  - reflexivity.
  - reflexivity.
  - eexists. split; reflexivity.
  - reflexivity.
Defined.

Lemma configuration_takes_privilege_witness :
  exists ret arg w',
    uvc_v4l2_do_ioctl 1 false (VIDIOC_S_FMT (Bench.request 0 700 480 0))
      (Bench.world0 true) = Done (ret, arg, w') /\
    ret = - EINVAL /\ privileged w' 1 /\ active (w_stream w') = 1.
Proof.
  destruct (uvc_v4l2_do_ioctl 1 false
              (VIDIOC_S_FMT (Bench.request 0 700 480 0)) (Bench.world0 true))
    as [[[ret arg] w'] | e] eqn:H; [| discriminate H].
  pose proof (eq_refl :
    match uvc_v4l2_do_ioctl 1 false
            (VIDIOC_S_FMT (Bench.request 0 700 480 0)) (Bench.world0 true) with
    | Done (r, _, _) => r
    | Oops _ => 0
    end = - EINVAL) as E.
  rewrite H in E.
  exists ret, arg, w'. split; [reflexivity |]. split; [exact E |].
  destruct (configuration_takes_privilege 1 false
              (VIDIOC_S_FMT (Bench.request 0 700 480 0)) arg
              (Bench.world0 true) w' {| state := UVC_HANDLE_PASSIVE |} ret)
    as (Hp & Ha & _).
  - exact bench_world0_exclusive.
  - reflexivity.
  - intros other Ho. destruct (bench_world0_free other Ho).
  - reflexivity.
  - intros rb. discriminate.
  - exact H.
  - split; [exact Hp | exact Ha].
Defined.

Lemma reqbufs_privilege_witness :
  exists ret arg w',
    uvc_v4l2_do_ioctl 1 false
      (VIDIOC_REQBUFS {| rb_count := 0; rb_type := V4L2_BUF_TYPE_VIDEO_CAPTURE;
                         rb_memory := V4L2_MEMORY_MMAP; rb_reserved0 := 0 |})
      (Bench.world1 true) = Done (ret, arg, w') /\
    ret = 0 /\ active (w_stream w') = 0.
Proof.
  destruct (reqbufs_privilege 1 false
              {| rb_count := 0; rb_type := V4L2_BUF_TYPE_VIDEO_CAPTURE;
                 rb_memory := V4L2_MEMORY_MMAP; rb_reserved0 := 0 |}
              (Bench.world1 true) {| state := UVC_HANDLE_ACTIVE |})
    as (ret & arg & w' & H & _ & _ & Hzero & _).
  - exact bench_world1_exclusive.
  - reflexivity.
  - intros other Ho.
    destruct bench_world1_exclusive as [[_ Hnone] | (_ & f & _ & Huniq)].
    + destruct (Hnone other Ho).
    + rewrite (Huniq other Ho). symmetry. apply Huniq.
      eexists. split; reflexivity.
  - reflexivity.
  - exists ret, arg, w'. split; [exact H |].
    destruct Hzero as (Hr & _ & _ & Ha); [reflexivity |]. auto.
Defined.

Lemma bench_world0_reachable : reachable (Bench.world0 true).
Proof.
  change (Bench.world0 true)
    with (snd (uvc_v4l2_open 2 true
                 (snd (uvc_v4l2_open 1 true
                         {| w_stream := Bench.stream0 true; w_files := ∅ |})))).
  apply reach_open; [apply reach_open |].
  - apply reach_attach. reflexivity.
  - reflexivity.
  - reflexivity.
Qed.

Lemma reachable_exclusive_witness :
  exists ret arg w',
    uvc_v4l2_do_ioctl 1 false
      (VIDIOC_S_FMT (Bench.request Bench.YUYV 700 480 0)) (Bench.world0 true)
    = Done (ret, arg, w') /\
    option_map state (w_files w' !! 1%nat) = Some UVC_HANDLE_ACTIVE /\
    option_map state (w_files w' !! 2%nat) = Some UVC_HANDLE_PASSIVE /\
    exclusive w'.
Proof.
  destruct (uvc_v4l2_do_ioctl 1 false
              (VIDIOC_S_FMT (Bench.request Bench.YUYV 700 480 0))
              (Bench.world0 true))
    as [[[ret arg] w'] | e] eqn:H; [| discriminate H].
  pose proof (eq_refl :
    match uvc_v4l2_do_ioctl 1 false
            (VIDIOC_S_FMT (Bench.request Bench.YUYV 700 480 0))
            (Bench.world0 true) with
    | Done (_, _, w') =>
        (option_map state (w_files w' !! 1%nat),
         option_map state (w_files w' !! 2%nat))
    | Oops _ => (None, None)
    end = (Some UVC_HANDLE_ACTIVE, Some UVC_HANDLE_PASSIVE)) as E.
  rewrite H in E. injection E as E1 E2.
  exists ret, arg, w'. split; [reflexivity |].
  split; [exact E1 |]. split; [exact E2 |].
  apply reachable_exclusive.
  eapply reach_ioctl; [exact bench_world0_reachable | exact H].
Defined.

End ScenariosRequests.

Section ScenariosControls.

#[local] Existing Instance Bench.collaborators.


Lemma ctrl_transactions_witness :
  do_ioctl_s_ext_ctrls Fixtures.ctrl_ops false (5, 5)
    {| xcs_error_idx := 0;
       xcs_controls := [ {| xc_id := 1; xc_value := 7 |};
                         {| xc_id := 2; xc_value := 9 |};
                         {| xc_id := 1; xc_value := 8 |} ] |}
  = (- EINVAL,
     {| xcs_error_idx := 1;
        xcs_controls := [ {| xc_id := 1; xc_value := 7 |};
                          {| xc_id := 2; xc_value := 9 |};
                          {| xc_id := 1; xc_value := 8 |} ] |},
     (5, 5)).
Proof.
  destruct (ctrl_transactions Fixtures.ctrl_ops (5, 5)
              {| xcs_error_idx := 0;
                 xcs_controls := [ {| xc_id := 1; xc_value := 7 |};
                                   {| xc_id := 2; xc_value := 9 |};
                                   {| xc_id := 1; xc_value := 8 |} ] |}
              {| ctl_id := 1; ctl_value := 7 |})
    as (_ & H & _).
  - cbn. lia.
  - destruct H as ((_ & Hrefused & _) & _); [cbn; lia |].
    apply (Hrefused [ {| xc_id := 1; xc_value := 7 |} ]
             {| xc_id := 2; xc_value := 9 |}
             [ {| xc_id := 1; xc_value := 8 |} ]
             (- EINVAL) (5, 7)
             [ {| xc_id := 1; xc_value := 7 |} ]
             {| xc_id := 2; xc_value := 9 |}).
    + reflexivity.
    + exists (5, 7). split; [| split; [reflexivity | unfold EINVAL; lia]].
      eapply accepted_cons; [reflexivity | lia | constructor].
Defined.

Lemma s_input_validation_witness :
  do_ioctl_s_input Fixtures.query_ok 0 Fixtures.chain2 2
    {| state := UVC_HANDLE_PASSIVE |} (Bench.stream0 true)
  = (- EINVAL, {| state := UVC_HANDLE_ACTIVE |},
     set_active 1 (Bench.stream0 true)).
Proof.
  destruct (s_input_validation Fixtures.query_ok 0 Fixtures.chain2 2
              {| state := UVC_HANDLE_PASSIVE |} (Bench.stream0 true))
    as (_ & _ & _ & H).
  - reflexivity.
  - reflexivity.
  - unfold is_u32. lia.
  - destruct (H {| entity_id := 3; bNrInPins := 2 |}) as [Hge _].
    + reflexivity.
    + reflexivity.
    + cbn. lia.
    + apply Hge. cbn. lia.
Defined.

End ScenariosControls.
